(** * SeaSocks: the reactor of [server.cpp] and [PageRequest::content]

    A shallow embedding of [src/main/c/server.cpp] (class [SeaSocks::Server])
    and of the accessors of [src/main/c/internal/PageRequest.h].

    The server is a single-threaded reactor around [epoll].  Its code is
    a sequence of system calls whose results decide the control flow, so the
    embedding threads a machine state (the [Server] object and the part of
    the operating system the server talks to) through every member function
    and records every call that leaves the function in a trace.  The one
    C++ exception of the file ([std::runtime_error] in [checkThread]) is an
    outcome of its own. *)

From Stdlib Require Import ZArith List Lia Bool.
From stdpp Require Import base option list strings gmap sorting.
Import ListNotations.

Set Warnings "-register-all".

Local Open Scope Z_scope.

(** ** Constants of the platform headers *)

(** [<sys/epoll.h>]: the event bits the server tests. *)
Definition EPOLLIN : Z := 1.
Definition EPOLLPRI : Z := 2.
Definition EPOLLOUT : Z := 4.
Definition EPOLLERR : Z := 8.
Definition EPOLLHUP : Z := 16.

(** [<errno.h>]: the three error numbers [serve] compares [errno] with.
    The header is not part of the repository, so the numbers are a
    parameter of the development; [linux] is the table of the only
    platform that has [epoll]. *)
Class Errno := {
  EINTR : Z;
  EAGAIN : Z;
  EWOULDBLOCK : Z
}.

Definition linux : Errno :=
  {| EINTR := 4; EAGAIN := 11; EWOULDBLOCK := 11 |}.

(** server.cpp:53-54 *)
Definition EpollTimeoutMillis : Z := 500.
Definition DefaultLameConnectionTimeoutSeconds : Z := 10.

(** server.cpp:180 *)
Definition maxEvents : nat := 256.

(** ** Data *)

(** A [Connection*] is the address of a connection object, a [positive]. *)

Record sockaddr_in := {
  sin_addr : Z;
  sin_port : Z
}.

(** The part of a [Connection] object that [server.cpp] reads. *)
Record Connection := {
  getFd : Z;
  getRemoteAddress : sockaddr_in;
  bytesReceived : Z
}.

(** [struct linger] of [<sys/socket.h>]; [l_linger] is the linger time
    in seconds. *)
Record linger := {
  l_onoff : bool;
  l_linger : Z
}.

(** [epoll_event.data.ptr]: [serve] tells three kinds of pointer apart,
    [this], [&_pipes[0]] and a [Connection*]. *)
Inductive Token :=
| ThisServer
| WakePipe
| ConnectionPtr (c : positive).

Inductive EpollOp := EPOLL_CTL_ADD | EPOLL_CTL_DEL | EPOLL_CTL_MOD.

(** One entry of [epoll_wait]'s output array: [data.ptr] and [events]. *)
Definition epoll_event : Type := Token * Z.

(** Modelled from the spec: a task is "an opaque unit of work runnable on
    the reactor thread"; [Server::Runnable] is declared in seasocks/server.h
    and its [run()] is host code, neither of which is under src/.  What the
    reactor can observe of a runnable is that it ran and which runnables it
    handed to [Server::schedule] while running.  The model holds the
    runnables whose scheduling comes to an end: a runnable is the finite
    tree of the runnables it schedules.  In an execution in which the
    [for (;;)] loop of [processEventQueue] ends, the runnables that ran and
    what each of them scheduled form such a tree, so the model has every
    execution in which [epoll_wait] follows.  A [run()] that hands itself
    to [schedule] again every time it runs is not in the model; with it
    the loop never ends and [epoll_wait] is not reached.  A
    [boost::shared_ptr] may be null, hence [option]. *)
Inductive Runnable :=
| Task (id : nat) (schedules : list (option Runnable)).

Definition runnable_id (r : Runnable) : nat :=
  match r with Task id _ => id end.

Definition runnable_schedules (r : Runnable) : list (option Runnable) :=
  match r with Task _ rs => rs end.

(** Every call that leaves the member functions of [Server], with its
    arguments. *)
Inductive Call :=
| sys_socket
| sys_bind (fd port : Z)
| sys_listen (fd backlog : Z)
| sys_epoll_create
| sys_pipe
| sys_accept (fd : Z)
| sys_setsockopt_SO_LINGER (fd : Z) (l : linger)
| sys_setsockopt_SO_REUSEADDR (fd : Z)
| sys_ioctl_FIONBIO (fd : Z)
| sys_epoll_ctl (epfd : Z) (op : EpollOp) (fd : Z) (events : Z) (data : Token)
| sys_epoll_wait (epfd : Z) (capacity : nat) (timeout : Z)
| sys_read (fd : Z)
| sys_write (fd : Z)
| sys_close (fd : Z)
| new_Connection (c : positive) (fd : Z)
| delete_Connection (c : positive)
| handleDataReadyForWrite (c : positive)
| handleDataReadyForRead (c : positive)
| Runnable_run (id : nat).

(** What a [read] on the wake-up pipe returns: a byte count, or [-1] with
    [errno] set. *)
Inductive ReadResult :=
| ReadCount (n : N)
| ReadError (e : Z).

(** What [epoll_wait] returns: [-1] with [errno] set, or the ready events. *)
Inductive WaitResult :=
| WaitError (e : Z)
| WaitReady (events : list epoll_event).

(** The [Server] object (the fields [server.cpp] uses). *)
Record Server := {
  _listenSock : Z;
  _epollFd : Z;
  _pipes0 : Z;
  _pipes1 : Z;
  _lameConnectionTimeoutSeconds : Z;
  _nextDeadConnectionCheck : Z;
  _terminate : bool;
  _threadId : Z;
  _connections : gmap positive Z;
  _pendingRunnables : list (option Runnable)
}.

(** The operating system as the server meets it. *)
Record World := {
  gettid : Z;                          (* id of the running thread *)
  clock : Z;                           (* what [time(NULL)] returns *)
  errno : Z;
  fd_supply : list Z;                  (* descriptors the kernel hands out next *)
  backlog : list sockaddr_in;          (* peers waiting on the listening socket *)
  pipe_reads : list ReadResult;        (* results of the next reads of the pipe *)
  wait_results : list WaitResult;      (* results of the next [epoll_wait]s *)
  faults : Call -> bool;               (* calls the kernel refuses *)
  interest : gmap Z (Z * Token);       (* the epoll interest list, by descriptor *)
  objects : positive -> Connection;    (* the heap of connection objects *)
  next_object : positive;              (* where [new] allocates next *)
  trace : list Call                    (* the calls made so far, oldest first *)
}.

Record Machine := {
  srv : Server;
  os : World
}.

(** *** Field updates *)

Definition set_listenSock (v : Z) (s : Server) : Server :=
  {| _listenSock := v; _epollFd := _epollFd s; _pipes0 := _pipes0 s;
     _pipes1 := _pipes1 s;
     _lameConnectionTimeoutSeconds := _lameConnectionTimeoutSeconds s;
     _nextDeadConnectionCheck := _nextDeadConnectionCheck s;
     _terminate := _terminate s; _threadId := _threadId s;
     _connections := _connections s;
     _pendingRunnables := _pendingRunnables s |}.

Definition set_epollFd (v : Z) (s : Server) : Server :=
  {| _listenSock := _listenSock s; _epollFd := v; _pipes0 := _pipes0 s;
     _pipes1 := _pipes1 s;
     _lameConnectionTimeoutSeconds := _lameConnectionTimeoutSeconds s;
     _nextDeadConnectionCheck := _nextDeadConnectionCheck s;
     _terminate := _terminate s; _threadId := _threadId s;
     _connections := _connections s;
     _pendingRunnables := _pendingRunnables s |}.

Definition set_pipes (r w : Z) (s : Server) : Server :=
  {| _listenSock := _listenSock s; _epollFd := _epollFd s; _pipes0 := r;
     _pipes1 := w;
     _lameConnectionTimeoutSeconds := _lameConnectionTimeoutSeconds s;
     _nextDeadConnectionCheck := _nextDeadConnectionCheck s;
     _terminate := _terminate s; _threadId := _threadId s;
     _connections := _connections s;
     _pendingRunnables := _pendingRunnables s |}.

Definition set_lameConnectionTimeoutSeconds (v : Z) (s : Server) : Server :=
  {| _listenSock := _listenSock s; _epollFd := _epollFd s;
     _pipes0 := _pipes0 s; _pipes1 := _pipes1 s;
     _lameConnectionTimeoutSeconds := v;
     _nextDeadConnectionCheck := _nextDeadConnectionCheck s;
     _terminate := _terminate s; _threadId := _threadId s;
     _connections := _connections s;
     _pendingRunnables := _pendingRunnables s |}.

Definition set_terminate (v : bool) (s : Server) : Server :=
  {| _listenSock := _listenSock s; _epollFd := _epollFd s;
     _pipes0 := _pipes0 s; _pipes1 := _pipes1 s;
     _lameConnectionTimeoutSeconds := _lameConnectionTimeoutSeconds s;
     _nextDeadConnectionCheck := _nextDeadConnectionCheck s;
     _terminate := v; _threadId := _threadId s;
     _connections := _connections s;
     _pendingRunnables := _pendingRunnables s |}.

Definition set_threadId (v : Z) (s : Server) : Server :=
  {| _listenSock := _listenSock s; _epollFd := _epollFd s;
     _pipes0 := _pipes0 s; _pipes1 := _pipes1 s;
     _lameConnectionTimeoutSeconds := _lameConnectionTimeoutSeconds s;
     _nextDeadConnectionCheck := _nextDeadConnectionCheck s;
     _terminate := _terminate s; _threadId := v;
     _connections := _connections s;
     _pendingRunnables := _pendingRunnables s |}.

Definition set_connections (v : gmap positive Z) (s : Server) : Server :=
  {| _listenSock := _listenSock s; _epollFd := _epollFd s;
     _pipes0 := _pipes0 s; _pipes1 := _pipes1 s;
     _lameConnectionTimeoutSeconds := _lameConnectionTimeoutSeconds s;
     _nextDeadConnectionCheck := _nextDeadConnectionCheck s;
     _terminate := _terminate s; _threadId := _threadId s;
     _connections := v;
     _pendingRunnables := _pendingRunnables s |}.

Definition set_pendingRunnables (v : list (option Runnable)) (s : Server)
  : Server :=
  {| _listenSock := _listenSock s; _epollFd := _epollFd s;
     _pipes0 := _pipes0 s; _pipes1 := _pipes1 s;
     _lameConnectionTimeoutSeconds := _lameConnectionTimeoutSeconds s;
     _nextDeadConnectionCheck := _nextDeadConnectionCheck s;
     _terminate := _terminate s; _threadId := _threadId s;
     _connections := _connections s;
     _pendingRunnables := v |}.

Definition set_gettid (v : Z) (w : World) : World :=
  {| gettid := v; clock := clock w; errno := errno w;
     fd_supply := fd_supply w; backlog := backlog w;
     pipe_reads := pipe_reads w; wait_results := wait_results w;
     faults := faults w; interest := interest w; objects := objects w;
     next_object := next_object w; trace := trace w |}.

Definition set_errno (v : Z) (w : World) : World :=
  {| gettid := gettid w; clock := clock w; errno := v;
     fd_supply := fd_supply w; backlog := backlog w;
     pipe_reads := pipe_reads w; wait_results := wait_results w;
     faults := faults w; interest := interest w; objects := objects w;
     next_object := next_object w; trace := trace w |}.

Definition set_fd_supply (v : list Z) (w : World) : World :=
  {| gettid := gettid w; clock := clock w; errno := errno w;
     fd_supply := v; backlog := backlog w;
     pipe_reads := pipe_reads w; wait_results := wait_results w;
     faults := faults w; interest := interest w; objects := objects w;
     next_object := next_object w; trace := trace w |}.

Definition set_backlog (v : list sockaddr_in) (w : World) : World :=
  {| gettid := gettid w; clock := clock w; errno := errno w;
     fd_supply := fd_supply w; backlog := v;
     pipe_reads := pipe_reads w; wait_results := wait_results w;
     faults := faults w; interest := interest w; objects := objects w;
     next_object := next_object w; trace := trace w |}.

Definition set_pipe_reads (v : list ReadResult) (w : World) : World :=
  {| gettid := gettid w; clock := clock w; errno := errno w;
     fd_supply := fd_supply w; backlog := backlog w;
     pipe_reads := v; wait_results := wait_results w;
     faults := faults w; interest := interest w; objects := objects w;
     next_object := next_object w; trace := trace w |}.

Definition set_wait_results (v : list WaitResult) (w : World) : World :=
  {| gettid := gettid w; clock := clock w; errno := errno w;
     fd_supply := fd_supply w; backlog := backlog w;
     pipe_reads := pipe_reads w; wait_results := v;
     faults := faults w; interest := interest w; objects := objects w;
     next_object := next_object w; trace := trace w |}.

Definition set_interest (v : gmap Z (Z * Token)) (w : World) : World :=
  {| gettid := gettid w; clock := clock w; errno := errno w;
     fd_supply := fd_supply w; backlog := backlog w;
     pipe_reads := pipe_reads w; wait_results := wait_results w;
     faults := faults w; interest := v; objects := objects w;
     next_object := next_object w; trace := trace w |}.

Definition set_heap (v : positive -> Connection) (n : positive) (w : World)
  : World :=
  {| gettid := gettid w; clock := clock w; errno := errno w;
     fd_supply := fd_supply w; backlog := backlog w;
     pipe_reads := pipe_reads w; wait_results := wait_results w;
     faults := faults w; interest := interest w; objects := v;
     next_object := n; trace := trace w |}.

Definition set_trace (v : list Call) (w : World) : World :=
  {| gettid := gettid w; clock := clock w; errno := errno w;
     fd_supply := fd_supply w; backlog := backlog w;
     pipe_reads := pipe_reads w; wait_results := wait_results w;
     faults := faults w; interest := interest w; objects := objects w;
     next_object := next_object w; trace := v |}.

(** ** The monad of member functions

    A member function maps a machine to an outcome: it returns a value and
    a machine, or it throws and leaves a machine behind. *)

Inductive Outcome (A : Type) :=
| Returns (a : A) (m : Machine)
| Throws (m : Machine).
Arguments Returns {A} a m.
Arguments Throws {A} m.

Definition M (A : Type) : Type := Machine -> Outcome A.

Definition ret {A} (a : A) : M A := fun m => Returns a m.

Definition bind {A B} (f : M A) (k : A -> M B) : M B :=
  fun m =>
    match f m with
    | Returns a m' => k a m'
    | Throws m' => Throws m'
    end.

Global Instance M_ret : MRet M := @ret.
Global Instance M_bind : MBind M := fun A B k f => bind f k.

(** The machine an outcome ends in. *)
Definition final {A} (o : Outcome A) : Machine :=
  match o with
  | Returns _ m => m
  | Throws m => m
  end.

Definition returned {A} (o : Outcome A) : bool :=
  match o with
  | Returns _ _ => true
  | Throws _ => false
  end.

Definition get_srv : M Server := fun m => Returns (srv m) m.
Definition get_os : M World := fun m => Returns (os m) m.

Definition modify_srv (f : Server -> Server) : M unit :=
  fun m => Returns tt {| srv := f (srv m); os := os m |}.

Definition modify_os (f : World -> World) : M unit :=
  fun m => Returns tt {| srv := srv m; os := f (os m) |}.

Definition throw {A} : M A := fun m => Throws m.

(** *** Calls *)

Definition emit (c : Call) : M unit :=
  modify_os (fun w => set_trace (trace w ++ [c]) w).

(** A call whose only result is success or failure: [true] when it
    succeeds. *)
Definition call (c : Call) : M bool :=
  emit c;;
  w ← get_os;
  mret (negb (faults w c)).

(** [time(NULL)] *)
Definition time : M Z :=
  w ← get_os; mret (clock w).

(** ** The kernel *)

(** [C]'s test of an integer used as a condition. *)
Definition nonzero (x : Z) : bool := negb (x =? 0).

(** The conversion of an [int] to [uint16_t], as in [htons(port)] at
    server.cpp:138: the value modulo [65536].  [htons] then puts the two
    bytes in network order; [sys_bind] records the port the socket is bound
    to, in host order. *)
Definition uint16_t (x : Z) : Z := x mod 65536.

(** [socket] and [epoll_create]: a descriptor from the supply, [-1]
    when the call is refused or no descriptor is left. *)
Definition fresh_fd (c : Call) : M Z :=
  emit c;;
  w ← get_os;
  if faults w c then mret (-1)
  else match fd_supply w with
       | fd :: rest => modify_os (set_fd_supply rest);; mret fd
       | [] => mret (-1)
       end.

Definition socket : M Z := fresh_fd sys_socket.
Definition epoll_create : M Z := fresh_fd sys_epoll_create.

(** [pipe]: both ends, or [None] for a result other than [0]. *)
Definition pipe : M (option (Z * Z)) :=
  emit sys_pipe;;
  w ← get_os;
  if faults w sys_pipe then mret None
  else match fd_supply w with
       | r :: wr :: rest => modify_os (set_fd_supply rest);; mret (Some (r, wr))
       | _ => mret None
       end.

(** [accept] on the non-blocking listening socket: the first waiting peer
    on a fresh descriptor, [-1] when the call is refused, nobody waits or
    no descriptor is left. *)
Definition accept (fd : Z) : M (Z * sockaddr_in) :=
  emit (sys_accept fd);;
  w ← get_os;
  let nobody := {| sin_addr := 0; sin_port := 0 |} in
  if faults w (sys_accept fd) then mret (-1, nobody)
  else match backlog w, fd_supply w with
       | peer :: waiting, new :: rest =>
           modify_os (fun w => set_backlog waiting (set_fd_supply rest w));;
           mret (new, peer)
       | _, _ => mret (-1, nobody)
       end.

(** [epoll_ctl]: [true] when it returns [0].  Besides refused calls, [ADD]
    fails on a registered descriptor and [MOD] and [DEL] on one that is not
    registered. *)
Definition epoll_ctl (epfd : Z) (op : EpollOp) (fd events : Z) (data : Token)
  : M bool :=
  emit (sys_epoll_ctl epfd op fd events data);;
  w ← get_os;
  if faults w (sys_epoll_ctl epfd op fd events data) then mret false
  else match op, interest w !! fd with
       | EPOLL_CTL_ADD, None | EPOLL_CTL_MOD, Some _ =>
           modify_os (set_interest (<[fd := (events, data)]> (interest w)));;
           mret true
       | EPOLL_CTL_DEL, Some _ =>
           modify_os (set_interest (base.delete fd (interest w)));;
           mret true
       | _, _ => mret false
       end.

Definition close (fd : Z) : M unit :=
  _ ← call (sys_close fd); mret tt.

(** [new Connection(...)]: a fresh object that has received nothing. *)
Definition newConnection (fd : Z) (address : sockaddr_in) : M positive :=
  w ← get_os;
  let c := next_object w in
  let object :=
    {| getFd := fd; getRemoteAddress := address; bytesReceived := 0 |} in
  modify_os (set_heap (fun p => if Pos.eqb p c then object else objects w p)
                      (Pos.succ c));;
  emit (new_Connection c fd);;
  mret c.

(** ** [std::map<Connection*, time_t>] *)

(** [insert] keeps the entry of a key that is present. *)
Definition map_insert (c : positive) (t : Z) (m : gmap positive Z)
  : gmap positive Z :=
  match m !! c with
  | Some _ => m
  | None => <[c := t]> m
  end.

(** Iteration is by ascending key. *)
Definition key_le (a b : positive * Z) : Prop := (a.1 <= b.1)%positive.

Global Instance key_le_dec a b : Decision (key_le a b).
Proof. unfold key_le. apply _. Defined.

Definition entries (m : gmap positive Z) : list (positive * Z) :=
  merge_sort key_le (map_to_list m).

(** [m.begin()->first] *)
Definition begin (m : gmap positive Z) : option positive :=
  match entries m with
  | [] => None
  | e :: _ => Some e.1
  end.

(** ** Runnables *)

(** Iterations of the loop of [processEventQueue] a queue can cause. *)
Fixpoint work (r : Runnable) : nat :=
  match r with
  | Task _ rs =>
      S (list_sum (List.map (fun o => match o with
                                      | Some r' => work r'
                                      | None => 1%nat
                                      end) rs))
  end.

Definition work_of (o : option Runnable) : nat :=
  match o with
  | Some r => work r
  | None => 1%nat
  end.

Definition pending_work (q : list (option Runnable)) : nat :=
  list_sum (List.map work_of q).

(** ** [class Server] *)

(** server.cpp:64-70 *)
Definition Server_new : Server :=
  {| _listenSock := -1; _epollFd := -1; _pipes0 := -1; _pipes1 := -1;
     _lameConnectionTimeoutSeconds := DefaultLameConnectionTimeoutSeconds;
     _nextDeadConnectionCheck := 0;
     _terminate := false; _threadId := 0;
     _connections := ∅; _pendingRunnables := [] |}.

(** server.cpp:96-103 *)
Definition makeNonBlocking (fd : Z) : M bool :=
  call (sys_ioctl_FIONBIO fd).

(** server.cpp:105-115 *)
Definition configureSocket (fd : Z) : M bool :=
  ok ← makeNonBlocking fd;
  if negb ok then mret false
  else call (sys_setsockopt_SO_REUSEADDR fd).

(** server.cpp:117-123 *)
Definition terminate : M unit :=
  modify_srv (set_terminate true);;
  s ← get_srv;
  _ ← call (sys_write (_pipes1 s));
  mret tt.

(** server.cpp:416-424 *)
Definition checkThread : M unit :=
  w ← get_os;
  s ← get_srv;
  let thisTid := gettid w in
  if negb (thisTid =? _threadId s) then throw else mret tt.

(** server.cpp:321-328 *)
Definition remove (connection : positive) : M unit :=
  checkThread;;
  s ← get_srv;
  w ← get_os;
  _ ← epoll_ctl (_epollFd s) EPOLL_CTL_DEL (getFd (objects w connection)) 0
        (ConnectionPtr connection);
  modify_srv (fun s =>
    set_connections (base.delete connection (_connections s)) s).

(** Modelled from the spec: [Connection::~Connection] is in connection.cpp,
    which is not under src/.  server.cpp:79 says of [delete] on a
    connection: "Deleting the connection closes it and removes it from
    'this'", and the spec's registry "owns the connection object: removal
    destroys it". *)
Definition deleteConnection (connection : positive) : M unit :=
  emit (delete_Connection connection);;
  w ← get_os;
  remove connection;;
  close (getFd (objects w connection)).

(** server.cpp:287-319 *)
Definition handleAccept : M unit :=
  s ← get_srv;
  '(fd, address) ← accept (_listenSock s);
  if fd =? -1 then mret tt
  else
    let linger := {| l_onoff := true; l_linger := 500 |} in
    ok ← call (sys_setsockopt_SO_LINGER fd linger);
    if negb ok then close fd
    else
      ok ← configureSocket fd;
      if negb ok then close fd
      else
        newConnection ← newConnection fd address;
        ok ← epoll_ctl (_epollFd s) EPOLL_CTL_ADD fd EPOLLIN
               (ConnectionPtr newConnection);
        if negb ok then
          deleteConnection newConnection;;
          close fd
        else
          now ← time;
          modify_srv (fun s =>
            set_connections (map_insert newConnection now (_connections s)) s).

(** server.cpp:330-337 *)
Definition subscribeToWriteEvents (connection : positive) : M bool :=
  s ← get_srv;
  w ← get_os;
  epoll_ctl (_epollFd s) EPOLL_CTL_MOD (getFd (objects w connection))
    (Z.lor EPOLLIN EPOLLOUT) (ConnectionPtr connection).

(** server.cpp:339-346 *)
Definition unsubscribeFromWriteEvents (connection : positive) : M bool :=
  s ← get_srv;
  w ← get_os;
  epoll_ctl (_epollFd s) EPOLL_CTL_MOD (getFd (objects w connection))
    EPOLLIN (ConnectionPtr connection).

(** server.cpp:369-376 *)
Definition schedule (runnable : option Runnable) : M unit :=
  modify_srv (fun s =>
    set_pendingRunnables (_pendingRunnables s ++ [runnable]) s);;
  s ← get_srv;
  if negb (_pipes1 s =? -1) then
    _ ← call (sys_write (_pipes1 s)); mret tt
  else mret tt.

(** server.cpp:378-386: a null pointer when the queue is empty, else its
    front, which may itself be null. *)
Definition popNextRunnable : M (option Runnable) :=
  s ← get_srv;
  match _pendingRunnables s with
  | [] => mret None
  | front :: rest =>
      modify_srv (set_pendingRunnables rest);;
      mret front
  end.

(** server.cpp:411-414 *)
Definition setLameConnectionTimeoutSeconds (seconds : Z) : M unit :=
  modify_srv (set_lameConnectionTimeoutSeconds seconds).

(** [runnable->run()]: the runnable runs and schedules what it
    schedules. *)
Fixpoint scheduleAll (rs : list (option Runnable)) : M unit :=
  match rs with
  | [] => mret tt
  | r :: rest => schedule r;; scheduleAll rest
  end.

Definition run (r : Runnable) : M unit :=
  emit (Runnable_run (runnable_id r));;
  scheduleAll (runnable_schedules r).

(** server.cpp:264-268, the [for (;;)] loop; [fuel] bounds its
    iterations. *)
Fixpoint runPending (fuel : nat) : M unit :=
  match fuel with
  | O => mret tt
  | S fuel' =>
      runnable ← popNextRunnable;
      match runnable with
      | None => mret tt
      | Some r => run r;; runPending fuel'
      end
  end.

(** server.cpp:275, the test of one registry entry. *)
Definition lame (w : World) (timeout now : Z) (entry : positive * Z) : bool :=
  let numSecondsSinceConnection := now - entry.2 in
  (bytesReceived (objects w entry.1) =? 0)
  && (timeout <=? numSecondsSinceConnection).

(** server.cpp:281-283 *)
Fixpoint deleteEach (toRemove : list positive) : M unit :=
  match toRemove with
  | [] => mret tt
  | c :: rest => deleteConnection c;; deleteEach rest
  end.

(** server.cpp:269-284 *)
Definition reapLameConnections : M unit :=
  now ← time;
  s ← get_srv;
  if _nextDeadConnectionCheck s <=? now then
    w ← get_os;
    let toRemove :=
      (List.filter (lame w (_lameConnectionTimeoutSeconds s) now)
                   (entries (_connections s))).*1 in
    deleteEach toRemove
  else mret tt.

(** server.cpp:263-285 *)
Definition processEventQueue : M unit :=
  s ← get_srv;
  runPending (S (pending_work (_pendingRunnables s)));;
  reapLameConnections.

(** server.cpp:76-94, the [while] loop: each round deletes the first
    connection of the registry; [fuel] bounds the rounds. *)
Fixpoint deleteAllConnections (fuel : nat) : M unit :=
  match fuel with
  | O => mret tt
  | S fuel' =>
      s ← get_srv;
      match begin (_connections s) with
      | None => mret tt
      | Some c => deleteConnection c;; deleteAllConnections fuel'
      end
  end.

(** [if (fd != -1) close(fd);] *)
Definition closeUnlessUnset (fd : Z) : M unit :=
  if negb (fd =? -1) then close fd else mret tt.

(** server.cpp:76-94, [Server::~Server] *)
Definition Server_destructor : M unit :=
  s ← get_srv;
  deleteAllConnections (S (size (_connections s)));;
  s ← get_srv;
  closeUnlessUnset (_listenSock s);;
  closeUnlessUnset (_pipes0 s);;
  closeUnlessUnset (_pipes1 s);;
  closeUnlessUnset (_epollFd s).

Section Reactor.

Context {E : Errno}.

(** [read] on the non-blocking end of the wake-up pipe: what the script
    says, and [EAGAIN] once it is used up (the pipe is empty). *)
Definition read (fd : Z) : M Z :=
  emit (sys_read fd);;
  w ← get_os;
  match pipe_reads w with
  | ReadCount n :: rest =>
      modify_os (set_pipe_reads rest);; mret (Z.of_N n)
  | ReadError e :: rest =>
      modify_os (fun w => set_errno e (set_pipe_reads rest w));; mret (-1)
  | [] =>
      modify_os (set_errno EAGAIN);; mret (-1)
  end.

(** [epoll_wait]: the return value and the entries of the array that were
    filled, at most [capacity].  Without a scripted result the call times
    out. *)
Definition epoll_wait (epfd : Z) (capacity : nat) (timeout : Z)
  : M (Z * list epoll_event) :=
  emit (sys_epoll_wait epfd capacity timeout);;
  w ← get_os;
  match wait_results w with
  | WaitError e :: rest =>
      modify_os (fun w => set_errno e (set_wait_results rest w));;
      mret (-1, [])
  | WaitReady ready :: rest =>
      modify_os (set_wait_results rest);;
      let events := take capacity ready in
      mret (Z.of_nat (length events), events)
  | [] => mret (0, [])
  end.

(** server.cpp:221-223, the [while] loop on the pipe; [fuel] bounds its
    iterations. *)
Fixpoint drainWakePipe (fuel : nat) : M unit :=
  match fuel with
  | O => mret tt
  | S fuel' =>
      s ← get_srv;
      n ← read (_pipes0 s);
      if negb (n =? -1) then drainWakePipe fuel' else mret tt
  end.

(** Modelled from the spec: "the reactor routes each event to ...
    per-connection read/write", and then "connection state machines consume
    read bytes, produce write bytes".  [Connection::handleDataReadyForWrite]
    and [Connection::handleDataReadyForRead] are in connection.cpp, which is
    not under src/: the model records that [serve] made the call and
    nothing of what the connection does in it. *)
Definition Connection_handleDataReadyForWrite (connection : positive)
  : M unit :=
  emit (handleDataReadyForWrite connection).

Definition Connection_handleDataReadyForRead (connection : positive)
  : M unit :=
  emit (handleDataReadyForRead connection).

(** How the body of the [for] loop over the events ends. *)
Inductive Exit := Next | Break.

(** server.cpp:203-247, the body of the [for] loop for one event. *)
Definition routeEvent (event : epoll_event) (toBeDeleted : list positive)
  : M (Exit * list positive) :=
  let '(data, events) := event in
  match data with
  | ThisServer =>
      if nonzero (Z.land events (Z.lnot EPOLLIN)) then
        modify_srv (set_terminate true);;
        mret (Break, toBeDeleted)
      else
        (if nonzero (Z.land events EPOLLIN) then handleAccept else mret tt);;
        mret (Next, toBeDeleted)
  | WakePipe =>
      if nonzero (Z.land events (Z.lnot EPOLLIN)) then
        modify_srv (set_terminate true);;
        mret (Break, toBeDeleted)
      else
        w ← get_os;
        drainWakePipe (S (length (pipe_reads w)));;
        w ← get_os;
        (if negb (errno w =? EAGAIN) || negb (errno w =? EWOULDBLOCK) then
           modify_srv (set_terminate true)
         else mret tt);;
        mret (Next, toBeDeleted)
  | ConnectionPtr connection =>
      if nonzero (Z.land events
                    (Z.lnot (Z.lor (Z.lor EPOLLIN EPOLLOUT) EPOLLHUP))) then
        mret (Next, toBeDeleted ++ [connection])
      else if nonzero (Z.land events EPOLLHUP) then
        mret (Next, toBeDeleted ++ [connection])
      else
        (if nonzero (Z.land events EPOLLOUT) then
           Connection_handleDataReadyForWrite connection
         else mret tt);;
        (if nonzero (Z.land events EPOLLIN) then
           Connection_handleDataReadyForRead connection
         else mret tt);;
        mret (Next, toBeDeleted)
  end.

(** server.cpp:202-248 *)
Fixpoint routeEvents (events : list epoll_event) (toBeDeleted : list positive)
  : M (list positive) :=
  match events with
  | [] => mret toBeDeleted
  | event :: rest =>
      '(exit, toBeDeleted) ← routeEvent event toBeDeleted;
      match exit with
      | Break => mret toBeDeleted
      | Next => routeEvents rest toBeDeleted
      end
  end.

(** server.cpp:249-259 *)
Fixpoint deleteQueued (toBeDeleted : list positive) : M unit :=
  match toBeDeleted with
  | [] => mret tt
  | connection :: rest =>
      s ← get_srv;
      match _connections s !! connection with
      | None => modify_srv (set_terminate true)
      | Some _ => deleteConnection connection;; deleteQueued rest
      end
  end.

(** How the body of the [while] loop of [serve] ends. *)
Inductive Flow := Continue | Return.

(** server.cpp:183-260, the body of [while (!_terminate)]. *)
Definition serveOnce : M Flow :=
  processEventQueue;;
  s ← get_srv;
  '(numEvents, events) ← epoll_wait (_epollFd s) maxEvents EpollTimeoutMillis;
  if numEvents =? -1 then
    w ← get_os;
    if errno w =? EINTR then mret Continue else mret Return
  else
    toBeDeleted ← routeEvents events [];
    deleteQueued toBeDeleted;;
    mret Continue.

(** server.cpp:183-260; [true] when [serve] returns within [fuel] rounds. *)
Fixpoint serveLoop (fuel : nat) : M bool :=
  match fuel with
  | O => mret false
  | S fuel' =>
      s ← get_srv;
      if _terminate s then mret true
      else
        flow ← serveOnce;
        match flow with
        | Return => mret true
        | Continue => serveLoop fuel'
        end
  end.

(** server.cpp:125-261; [true] when [serve] returns within [fuel] rounds of
    its loop. *)
Definition serve (port : Z) (fuel : nat) : M bool :=
  w ← get_os;
  modify_srv (set_threadId (gettid w));;
  listenSock ← socket;
  modify_srv (set_listenSock listenSock);;
  if listenSock =? -1 then mret true
  else
    ok ← configureSocket listenSock;
    if negb ok then mret true
    else
      ok ← call (sys_bind listenSock (uint16_t port));
      if negb ok then mret true
      else
        ok ← call (sys_listen listenSock 5);
        if negb ok then mret true
        else
          epollFd ← epoll_create;
          modify_srv (set_epollFd epollFd);;
          if epollFd =? -1 then mret true
          else
            pipes ← pipe;
            match pipes with
            | None => mret true
            | Some (pipes0, pipes1) =>
                modify_srv (set_pipes pipes0 pipes1);;
                ok0 ← makeNonBlocking pipes0;
                if negb ok0 then mret true
                else
                ok1 ← makeNonBlocking pipes1;
                if negb ok1 then mret true
                else
                  ok ← epoll_ctl epollFd EPOLL_CTL_ADD listenSock EPOLLIN
                         ThisServer;
                  if negb ok then mret true
                  else
                    ok ← epoll_ctl epollFd EPOLL_CTL_ADD pipes0 EPOLLIN
                           WakePipe;
                    if negb ok then mret true
                    else serveLoop fuel
            end.

End Reactor.


(** ** [class PageRequest] (internal/PageRequest.h) *)

Module PageRequest.

(** A [const uint8_t*] as [content()] returns it: null, or the address of
    an element of [_content]; [undefined] is what [&_content[0]] is on an
    empty vector, where [operator[]] has no element to refer to (undefined
    behaviour). *)
Inductive pointer :=
| NULL
| element_of_content (index : nat)
| undefined.

(** The fields whose types the header has ([_credentials] and [_verb] are
    of types declared elsewhere). *)
Record t := {
  _remoteAddress : sockaddr_in;
  _requestUri : string;
  _contentLength : N;
  _content : list Byte.byte;
  _headers : gmap string string
}.

(** PageRequest.h:60-66 *)
Definition getRemoteAddress (r : t) : sockaddr_in := _remoteAddress r.
Definition getRequestUri (r : t) : string := _requestUri r.

(** PageRequest.h:68-70 *)
Definition contentLength (r : t) : N := _contentLength r.

(** [&_content[index]]: the address of the element when the vector has
    one at [index]. *)
Definition address_of_element (r : t) (index : nat) : pointer :=
  match _content r !! index with
  | Some _ => element_of_content index
  | None => undefined
  end.

(** PageRequest.h:72-74.  The result, and the indices at which evaluating
    the expression applied [operator[]] to [_content]: the conditional
    evaluates [&_content[0]] only when its condition holds.  The
    constructor takes the content length and no body, so [_contentLength]
    and the size of [_content] are independent fields. *)
Definition content_evaluation (r : t) : pointer * list nat :=
  if (0 <? _contentLength r)%N then (address_of_element r 0, [0%nat])
  else (NULL, []).

Definition content (r : t) : pointer := (content_evaluation r).1.

(** PageRequest.h:76-83 *)
Definition hasHeader (r : t) (name : string) : bool :=
  bool_decide (is_Some (_headers r !! name)).

Definition getHeader (r : t) (name : string) : string :=
  match _headers r !! name with
  | None => EmptyString
  | Some value => value
  end.

(** What a [const uint8_t*] points at. *)
Definition deref (r : t) (p : pointer) : option Byte.byte :=
  match p with
  | NULL => None
  | element_of_content index => _content r !! index
  | undefined => None
  end.

End PageRequest.

(** ** [EventBits] and its [operator<<] (server.cpp:25-51) *)

(** [<sys/epoll.h>]: the other event bits [operator<<] names.  The header
    defines [EPOLLRDHUP], so the [DO_BIT] under [#ifdef] at server.cpp:42-44
    is compiled.  [bits] is a [uint32_t]; masking with the complement of a
    bit keeps it within 32 bits, so nothing wraps. *)
Definition EPOLLRDNORM : Z := 64.
Definition EPOLLRDBAND : Z := 128.
Definition EPOLLWRNORM : Z := 256.
Definition EPOLLWRBAND : Z := 512.
Definition EPOLLMSG : Z := 1024.
Definition EPOLLRDHUP : Z := 8192.
Definition EPOLLONESHOT : Z := 1073741824.
Definition EPOLLET : Z := 2147483648.

(** server.cpp:32-33, one [DO_BIT(NAME)]: the stream and the local [bits]
    before and after; [b_bits] is [b.bits]. *)
Definition DO_BIT (b_bits : Z) (NAME : Z) (name : string)
    (state : string * Z) : string * Z :=
  let '(o, bits) := state in
  if nonzero (Z.land bits NAME) then
    let o := if negb (bits =? b_bits) then o +:+ ", " else o in
    (o +:+ name, Z.land bits (Z.lnot NAME))
  else (o, bits).

(** server.cpp:30-51: the text of the stream after [o << EventBits(bits)]. *)
Definition print_EventBits (o : string) (b_bits : Z) : string :=
  let state := (o, b_bits) in
  let state := DO_BIT b_bits EPOLLIN "EPOLLIN" state in
  let state := DO_BIT b_bits EPOLLPRI "EPOLLPRI" state in
  let state := DO_BIT b_bits EPOLLOUT "EPOLLOUT" state in
  let state := DO_BIT b_bits EPOLLRDNORM "EPOLLRDNORM" state in
  let state := DO_BIT b_bits EPOLLRDBAND "EPOLLRDBAND" state in
  let state := DO_BIT b_bits EPOLLWRNORM "EPOLLWRNORM" state in
  let state := DO_BIT b_bits EPOLLWRBAND "EPOLLWRBAND" state in
  let state := DO_BIT b_bits EPOLLMSG "EPOLLMSG" state in
  let state := DO_BIT b_bits EPOLLERR "EPOLLERR" state in
  let state := DO_BIT b_bits EPOLLHUP "EPOLLHUP" state in
  let state := DO_BIT b_bits EPOLLRDHUP "EPOLLRDHUP" state in
  let state := DO_BIT b_bits EPOLLONESHOT "EPOLLONESHOT" state in
  let state := DO_BIT b_bits EPOLLET "EPOLLET" state in
  state.1.

(** ** The handler map (server.cpp:348-367) *)

(** A [boost::shared_ptr<WebSocket::Handler>]: null, or a handler of the
    host. *)
Definition HandlerPtr : Type := option nat.

(** The value type of [_handlerMap]. *)
Record HandlerEntry := {
  handler : HandlerPtr;
  allowCrossOrigin : bool
}.

(** The three member functions touch no field but [_handlerMap], so they
    are functions of that map. *)

(** server.cpp:348-351 *)
Definition addWebSocketHandler (endpoint : string) (handler : HandlerPtr)
    (allowCrossOriginRequests : bool)
    (_handlerMap : gmap string HandlerEntry) : gmap string HandlerEntry :=
  <[endpoint := {| handler := handler;
                   allowCrossOrigin := allowCrossOriginRequests |}]>
    _handlerMap.

(** server.cpp:353-359 *)
Definition isCrossOriginAllowed (endpoint : string)
    (_handlerMap : gmap string HandlerEntry) : bool :=
  match _handlerMap !! endpoint with
  | None => false
  | Some entry => allowCrossOrigin entry
  end.

(** server.cpp:361-367 *)
Definition getWebSocketHandler (endpoint : string)
    (_handlerMap : gmap string HandlerEntry) : HandlerPtr :=
  match _handlerMap !! endpoint with
  | None => None
  | Some entry => handler entry
  end.
(** * Vocabulary of the properties *)

(** ** What a trace says *)

(** The call is an [accept]. *)
Definition is_accept (c : Call) : bool :=
  match c with
  | sys_accept _ => true
  | _ => false
  end.

(** How many times [accept] was called. *)
Definition accept_count (calls : list Call) : nat :=
  length (List.filter is_accept calls).

(** The call is an [epoll_wait]. *)
Definition is_wait (c : Call) : bool :=
  match c with
  | sys_epoll_wait _ _ _ => true
  | _ => false
  end.

(** The runnable a call ran, when it ran one. *)
Definition ran_id (c : Call) : option nat :=
  match c with
  | Runnable_run id => Some id
  | _ => None
  end.

(** The runnables that ran, in the order of the trace. *)
Definition run_ids (calls : list Call) : list nat := omap ran_id calls.

(** The linger times, in seconds, of the [SO_LINGER] calls of a trace. *)
Definition linger_seconds (calls : list Call) : list Z :=
  omap (fun c => match c with
                 | sys_setsockopt_SO_LINGER _ l => Some (l_linger l)
                 | _ => None
                 end) calls.

(** ** The calls of the member functions *)

(** The calls [handleAccept] makes for a connection it keeps. *)
Definition accepted_calls (s : Server) (fd : Z) (c : positive) : list Call :=
  [sys_accept (_listenSock s);
   sys_setsockopt_SO_LINGER fd {| l_onoff := true; l_linger := 500 |};
   sys_ioctl_FIONBIO fd;
   sys_setsockopt_SO_REUSEADDR fd;
   new_Connection c fd;
   sys_epoll_ctl (_epollFd s) EPOLL_CTL_ADD fd EPOLLIN (ConnectionPtr c)].

(** The calls of deleting one connection on the reactor thread. *)
Definition deletion_calls (s : Server) (w : World) (c : positive)
  : list Call :=
  [delete_Connection c;
   sys_epoll_ctl (_epollFd s) EPOLL_CTL_DEL (getFd (objects w c)) 0
     (ConnectionPtr c);
   sys_close (getFd (objects w c))].

(** The calls with which [~Server] closes its own descriptors. *)
Definition resource_closes (s : Server) : list Call :=
  flat_map (fun fd => if fd =? -1 then [] else [sys_close fd])
    [_listenSock s; _pipes0 s; _pipes1 s; _epollFd s].

(** ** The poller *)

(** The mask asks for read-readiness. *)
Definition wants_read (events : Z) : bool := nonzero (Z.land events EPOLLIN).

(** The poller watches [fd] for read-readiness. *)
Definition watched_for_read (w : World) (fd : Z) : bool :=
  match interest w !! fd with
  | Some (events, _) => wants_read events
  | None => false
  end.

(** What one toggle of the write subscription does: a single
    [epoll_ctl(MOD)] on the connection's descriptor whose mask asks for
    read-readiness; the mask is installed when the call succeeds and the
    interest list is untouched when it fails. *)
Definition toggles_with_read (toggle : positive -> M bool) : Prop :=
  forall (connection : positive) (m : Machine),
    let fd := getFd (objects (os m) connection) in
    exists events ok m',
      toggle connection m = Returns ok m' /\
      wants_read events = true /\
      srv m' = srv m /\
      trace (os m') =
        trace (os m) ++
        [sys_epoll_ctl (_epollFd (srv m)) EPOLL_CTL_MOD fd events
           (ConnectionPtr connection)] /\
      interest (os m') =
        (if ok then <[fd := (events, ConnectionPtr connection)]> (interest (os m))
         else interest (os m)).

(** ** The script of the wake-up pipe *)

(** How many reads of the pipe the script answers up to and including the
    first that fails. *)
Fixpoint reads_until_error (script : list ReadResult) : nat :=
  match script with
  | ReadCount _ :: rest => S (reads_until_error rest)
  | _ => 1%nat
  end.

(** [errno] after the first failing read of the script. *)
Fixpoint first_error {E : Errno} (script : list ReadResult) : Z :=
  match script with
  | [] => EAGAIN
  | ReadCount _ :: rest => first_error rest
  | ReadError e :: _ => e
  end.

(** ** The registry *)

(** The registry after the connections of a list were erased. *)
Definition erase_all (l : list positive) (registry : gmap positive Z)
  : gmap positive Z :=
  foldl (fun r c => base.delete c r) registry l.

(** The test of server.cpp:275 on a registry entry, as a proposition. *)
Definition is_lame (m : Machine) (c : positive) (t : Z) : Prop :=
  bytesReceived (objects (os m) c) = 0 /\
  _lameConnectionTimeoutSeconds (srv m) <= clock (os m) - t.

(** ** The queue of runnables *)

(** No null runnable: neither the runnable schedules one, nor does any
    runnable it schedules. *)
Fixpoint never_null (r : Runnable) : bool :=
  match r with
  | Task _ rs =>
      forallb (fun o => match o with
                        | Some r' => never_null r'
                        | None => false
                        end) rs
  end.

(** A queue entry that is a runnable, and one that never schedules a
    null runnable. *)
Definition set_and_never_null (o : option Runnable) : bool :=
  match o with
  | Some r => never_null r
  | None => false
  end.

(** The queue holds no null runnable and none will be scheduled. *)
Definition no_null (q : list (option Runnable)) : bool :=
  forallb set_and_never_null q.

(** A runnable and every runnable that it, or a runnable it schedules,
    schedules. *)
Fixpoint tasks (r : Runnable) : list nat :=
  match r with
  | Task id rs =>
      id :: flat_map (fun o => match o with
                               | Some r' => tasks r'
                               | None => []
                               end) rs
  end.

(** The runnables of a queue and all that they schedule. *)
Definition queued_tasks (q : list (option Runnable)) : list nat :=
  flat_map (fun o => match o with
                     | Some r => tasks r
                     | None => []
                     end) q.

(** The order in which a first-in first-out queue is served: the front is
    served and what it schedules joins the back, up to the first null
    entry.  [fuel] bounds the length of the result. *)
Fixpoint run_order (fuel : nat) (q : list (option Runnable)) : list nat :=
  match fuel with
  | O => []
  | S fuel' =>
      match q with
      | Some r :: rest =>
          runnable_id r :: run_order fuel' (rest ++ runnable_schedules r)
      | _ => []
      end
  end.

(** ** Relations between the machine before and after a member function *)

(** [f] takes every machine to one related to it by [R], whether it
    returns or throws. *)
Definition preserves {A} (R : relation Machine) (f : M A) : Prop :=
  forall m, R m (final (f m)).

(** The trace has only grown. *)
Definition trace_grows : relation Machine := fun m m' =>
  exists calls, trace (os m') = trace (os m) ++ calls.

(** The running thread and the recorded reactor thread are as before. *)
Definition thread_kept : relation Machine := fun m m' =>
  gettid (os m') = gettid (os m) /\
  _threadId (srv m') = _threadId (srv m).

(** Between the two machines [epoll_wait] was not called, and the running
    thread and the reactor thread are the same as before. *)
Definition no_wait : relation Machine := fun m m' =>
  (exists calls,
     trace (os m') = trace (os m) ++ calls /\
     forallb (fun c => negb (is_wait c)) calls = true) /\
  gettid (os m') = gettid (os m) /\
  _threadId (srv m') = _threadId (srv m).

(** No [accept] was called and the backlog is as it was. *)
Definition no_accept : relation Machine := fun m m' =>
  accept_count (trace (os m')) = accept_count (trace (os m)) /\
  backlog (os m') = backlog (os m).

(** [accept] was called once and took at most the first waiting peer. *)
Definition accepts_one : relation Machine := fun m m' =>
  accept_count (trace (os m')) = S (accept_count (trace (os m))) /\
  (backlog (os m') = backlog (os m) \/
   backlog (os m') = tail (backlog (os m))).

(** * Sample machines *)

(** What the heap holds where no connection was allocated. *)
Definition no_object : Connection :=
  {| getFd := -1; getRemoteAddress := {| sin_addr := 0; sin_port := 0 |};
     bytesReceived := 0 |}.

(** A kernel that refuses nothing, with two peers waiting on the listening
    socket, at time 100, seen from thread 1. *)
Definition two_waiting : World :=
  {| gettid := 1; clock := 100; errno := 0;
     fd_supply := [7; 8; 9];
     backlog := [ {| sin_addr := 167772161; sin_port := 40000 |};
                  {| sin_addr := 167772162; sin_port := 40001 |} ];
     pipe_reads := []; wait_results := [];
     faults := fun _ => false;
     interest := {[ 3 := (EPOLLIN, ThisServer); 5 := (EPOLLIN, WakePipe) ]};
     objects := fun _ => no_object;
     next_object := 1%positive;
     trace := [] |}.

(** A server inside [serve] on thread 1: listening socket 3, epoll
    descriptor 4, pipe 5 and 6. *)
Definition serving : Server :=
  set_threadId 1 (set_pipes 5 6 (set_epollFd 4 (set_listenSock 3 Server_new))).

(** [serving] with two peers waiting. *)
Definition listening : Machine := {| srv := serving; os := two_waiting |}.

(** [listening] with thread 2 running. *)
Definition foreign_thread : Machine :=
  {| srv := serving; os := set_gettid 2 two_waiting |}.

(** [listening] when [epoll_wait] reports the listening socket readable. *)
Definition readable_listener : Machine :=
  {| srv := serving;
     os := set_wait_results [WaitReady [(ThisServer, EPOLLIN)]] two_waiting |}.

(** [listening] with two reads waiting in the wake-up pipe. *)
Definition woken : Machine :=
  {| srv := serving;
     os := set_pipe_reads [ReadCount 8; ReadCount 8] two_waiting |}.

(** [listening] after it has accepted its first peer: connection 1 on
    descriptor 7, watched for read-readiness. *)
Definition one_accepted : Machine := final (handleAccept listening).

(** A heap with three connections: 1 and 2 have received nothing, 3 has
    received 120 bytes. *)
Definition three_objects (c : positive) : Connection :=
  match c with
  | 1%positive => {| getFd := 7; getRemoteAddress := {| sin_addr := 1; sin_port := 1 |};
                     bytesReceived := 0 |}
  | 2%positive => {| getFd := 8; getRemoteAddress := {| sin_addr := 2; sin_port := 2 |};
                     bytesReceived := 0 |}
  | 3%positive => {| getFd := 9; getRemoteAddress := {| sin_addr := 3; sin_port := 3 |};
                     bytesReceived := 120 |}
  | _ => no_object
  end.

(** At time 100 and with the default timeout: connection 1 was accepted at
    80, connection 2 at 95, connection 3 at 50. *)
Definition three_connections : Machine :=
  {| srv := set_connections {[ 1%positive := 80; 2%positive := 95;
                               3%positive := 50 ]} serving;
     os := set_heap three_objects 4%positive
             (set_interest
                {[ 3 := (EPOLLIN, ThisServer); 5 := (EPOLLIN, WakePipe);
                   7 := (EPOLLIN, ConnectionPtr 1);
                   8 := (EPOLLIN, ConnectionPtr 2);
                   9 := (EPOLLIN, ConnectionPtr 3) ]}
                two_waiting) |}.

(** [listening] with runnable 1, which schedules runnable 3, and runnable 2
    in the queue, when [epoll_wait] reports nothing. *)
Definition two_tasks : Machine :=
  {| srv := set_pendingRunnables
              [Some (Task 1 [Some (Task 3 [])]); Some (Task 2 [])] serving;
     os := set_wait_results [WaitReady []] two_waiting |}.

(** [listening] with a null runnable scheduled ahead of runnable 7, when
    [epoll_wait] reports nothing. *)
Definition null_then_task : Machine :=
  {| srv := set_pendingRunnables [None; Some (Task 7 [])] serving;
     os := set_wait_results [WaitReady []] two_waiting |}.

(** A server before [serve], with a kernel that refuses nothing: one peer
    will connect, become readable and writable, and hang up; then the
    listening socket reports an error. *)
Definition fresh_start : Machine :=
  {| srv := Server_new;
     os := {| gettid := 1; clock := 100; errno := 0;
              fd_supply := [3; 4; 5; 6; 7];
              backlog := [ {| sin_addr := 167772161; sin_port := 40000 |} ];
              pipe_reads := [];
              wait_results :=
                [WaitReady [(ThisServer, EPOLLIN)];
                 WaitReady [(ConnectionPtr 1, Z.lor EPOLLIN EPOLLOUT)];
                 WaitError 4;
                 WaitReady [(ConnectionPtr 1, EPOLLHUP)];
                 WaitReady [(ThisServer, EPOLLERR)]];
              faults := fun _ => false;
              interest := ∅;
              objects := fun _ => no_object;
              next_object := 1%positive;
              trace := [] |} |}.

(** A request with the body [abc] and a request without a body. *)
Definition with_body : PageRequest.t :=
  {| PageRequest._remoteAddress := {| sin_addr := 0; sin_port := 0 |};
     PageRequest._requestUri := "/post";
     PageRequest._contentLength := 3;
     PageRequest._content := [Byte.x61; Byte.x62; Byte.x63];
     PageRequest._headers := ∅ |}.

Definition without_body : PageRequest.t :=
  {| PageRequest._remoteAddress := {| sin_addr := 0; sin_port := 0 |};
     PageRequest._requestUri := "/";
     PageRequest._contentLength := 0;
     PageRequest._content := [];
     PageRequest._headers := ∅ |}.

(** A request with a content length of [3] whose body has not been
    stored: [_content] is empty. *)
Definition body_not_stored : PageRequest.t :=
  {| PageRequest._remoteAddress := {| sin_addr := 0; sin_port := 0 |};
     PageRequest._requestUri := "/post";
     PageRequest._contentLength := 3;
     PageRequest._content := [];
     PageRequest._headers := ∅ |}.

(** ** The names of event bits *)

(** The bits [operator<<] names, in the order it tests them. *)
Definition event_names : list (Z * string) :=
  [(EPOLLIN, "EPOLLIN"); (EPOLLPRI, "EPOLLPRI"); (EPOLLOUT, "EPOLLOUT");
   (EPOLLRDNORM, "EPOLLRDNORM"); (EPOLLRDBAND, "EPOLLRDBAND");
   (EPOLLWRNORM, "EPOLLWRNORM"); (EPOLLWRBAND, "EPOLLWRBAND");
   (EPOLLMSG, "EPOLLMSG"); (EPOLLERR, "EPOLLERR"); (EPOLLHUP, "EPOLLHUP");
   (EPOLLRDHUP, "EPOLLRDHUP"); (EPOLLONESHOT, "EPOLLONESHOT");
   (EPOLLET, "EPOLLET")].

(** The names of the bits of [table] that are set in [bits]. *)
Definition set_names (table : list (Z * string)) (bits : Z) : list string :=
  (List.filter (fun entry => nonzero (Z.land bits entry.1)) table).*2.

(** The masks of a table share no bit. *)
Fixpoint disjoint_masks (table : list (Z * string)) : Prop :=
  match table with
  | [] => True
  | entry :: rest =>
      Forall (fun other => Z.land entry.1 other.1 = 0) rest /\
      disjoint_masks rest
  end.

(** Every name with the separator before it. *)
Definition comma_before (names : list string) : string :=
  String.concat "" (List.map (fun name => ", " +:+ name) names).

(** The [DO_BIT]s of a table, one after the other. *)
Definition do_bits (b_bits : Z) (table : list (Z * string))
    (state : string * Z) : string * Z :=
  foldl (fun state entry => DO_BIT b_bits entry.1 entry.2 state) state table.

(** ** The events of a batch that belong to connections *)

(** server.cpp:229-236: an event that makes [serve] queue the connection
    for deletion, an error bit or a hang-up. *)
Definition hung_up (events : Z) : bool :=
  nonzero (Z.land events (Z.lnot (Z.lor (Z.lor EPOLLIN EPOLLOUT) EPOLLHUP)))
  || nonzero (Z.land events EPOLLHUP).

(** The handlers of a connection an event makes [serve] call. *)
Definition handler_calls (event : positive * Z) : list Call :=
  let '(c, events) := event in
  if hung_up events then []
  else
    (if nonzero (Z.land events EPOLLOUT)
     then [handleDataReadyForWrite c] else []) ++
    (if nonzero (Z.land events EPOLLIN)
     then [handleDataReadyForRead c] else []).

(** The connections a batch of connection events queues for deletion. *)
Definition queued_for_deletion (batch : list (positive * Z)) : list positive :=
  (List.filter (fun event => hung_up event.2) batch).*1.

Definition connection_events (batch : list (positive * Z))
  : list epoll_event :=
  List.map (fun event => (ConnectionPtr event.1, event.2)) batch.

(** ** Setting [serve] up *)

(** server.cpp:128-176: the calls [serve] makes before its loop, when none
    of them fails. *)
Definition setup_calls (port listenSock epollFd pipes0 pipes1 : Z)
  : list Call :=
  [sys_socket;
   sys_ioctl_FIONBIO listenSock;
   sys_setsockopt_SO_REUSEADDR listenSock;
   sys_bind listenSock (uint16_t port);
   sys_listen listenSock 5;
   sys_epoll_create;
   sys_pipe;
   sys_ioctl_FIONBIO pipes0;
   sys_ioctl_FIONBIO pipes1;
   sys_epoll_ctl epollFd EPOLL_CTL_ADD listenSock EPOLLIN ThisServer;
   sys_epoll_ctl epollFd EPOLL_CTL_ADD pipes0 EPOLLIN WakePipe].

(** The calls [serve] makes only inside its loop. *)
Definition in_loop (c : Call) : bool :=
  match c with
  | sys_epoll_wait _ _ _ | sys_accept _ | sys_read _ | Runnable_run _
  | new_Connection _ _ | delete_Connection _
  | handleDataReadyForWrite _ | handleDataReadyForRead _
  | sys_close _ | sys_setsockopt_SO_LINGER _ _ => true
  | _ => false
  end.

(** The machine on which the loop of [serve] starts, when the setup has
    succeeded on the descriptors [listenSock], [epollFd], [pipes0] and
    [pipes1] and has left [supply]. *)
Definition set_up (port listenSock epollFd pipes0 pipes1 : Z)
    (supply : list Z) (m : Machine) : Machine :=
  {| srv := set_pipes pipes0 pipes1
              (set_epollFd epollFd
                 (set_listenSock listenSock
                    (set_threadId (gettid (os m)) (srv m))));
     os := set_interest
             (<[pipes0 := (EPOLLIN, WakePipe)]>
                (<[listenSock := (EPOLLIN, ThisServer)]> (interest (os m))))
             (set_fd_supply supply
                (set_trace
                   (trace (os m) ++
                    setup_calls port listenSock epollFd pipes0 pipes1)
                   (os m))) |}.

(** ** Descriptors *)

(** The descriptors the server object stores. *)
Definition own_descriptors (s : Server) : list Z :=
  [_listenSock s; _pipes0 s; _pipes1 s; _epollFd s].

(** [fd] is the descriptor of a connection of the registry. *)
Definition registered (m : Machine) (fd : Z) : Prop :=
  exists c, is_Some (_connections (srv m) !! c) /\
            getFd (objects (os m) c) = fd.

(** [fd] is accounted for: the kernel has not handed it out, or the server
    stores it, or it was closed, or a registered connection has it. *)
Definition held (m : Machine) (fd : Z) : Prop :=
  fd ∈ fd_supply (os m) \/
  fd ∈ own_descriptors (srv m) \/
  sys_close fd ∈ trace (os m) \/
  registered m fd.

(** The kernel has only handed out descriptors of its supply, in order, and
    every descriptor that was accounted for still is. *)
Definition descriptors_kept : relation Machine := fun m m' =>
  (exists consumed, fd_supply (os m) = consumed ++ fd_supply (os m')) /\
  forall fd, fd <> -1 -> held m fd -> held m' fd.


(** From a machine that satisfies [I], [f] returns, in a machine that
    satisfies [I] and that [R] relates to the first. *)
Definition safe {A} (I : Machine -> Prop) (R : relation Machine) (f : M A)
  : Prop :=
  forall m, I m -> exists a m', f m = Returns a m' /\ I m' /\ R m m'.

(** ** What [processEventQueue] leaves alone *)

(** The script of [epoll_wait], the terminate flag and the epoll
    descriptor are as before, and the trace has only grown. *)
Definition poll_kept : relation Machine := fun m m' =>
  wait_results (os m') = wait_results (os m) /\
  _terminate (srv m') = _terminate (srv m) /\
  _epollFd (srv m') = _epollFd (srv m) /\
  exists calls, trace (os m') = trace (os m) ++ calls.

Definition reactor_thread (m : Machine) : Prop :=
  gettid (os m) = _threadId (srv m).

(** The time of the next scan for lame connections is as before. *)
Definition scan_time_kept : relation Machine := fun m m' =>
  _nextDeadConnectionCheck (srv m') = _nextDeadConnectionCheck (srv m).

(** ** Scheduling *)

(** The wake-up [schedule] writes: one byte to the pipe, once the pipe
    exists. *)
Definition wake_up (s : Server) : list Call :=
  if _pipes1 s =? -1 then [] else [sys_write (_pipes1 s)].

(** ** More sample machines *)

(** A table of error numbers on which [EAGAIN] and [EWOULDBLOCK] differ,
    as POSIX allows. *)
Definition distinct_errnos : Errno :=
  {| EINTR := 4; EAGAIN := 11; EWOULDBLOCK := 246 |}.

(** [fresh_start] with the terminate flag set. *)
Definition terminated_start : Machine :=
  {| srv := set_terminate true Server_new; os := os fresh_start |}.

(** [listening] when a signal interrupts [epoll_wait]. *)
Definition interrupted : Machine :=
  {| srv := serving; os := set_wait_results [WaitError 4] two_waiting |}.

(** [three_connections] with connection 3 alone, which has received bytes,
    when [epoll_wait] reports it readable and hung up. *)
Definition hanging_up : Machine :=
  {| srv := set_connections {[ 3%positive := 50 ]} (srv three_connections);
     os := set_wait_results
             [WaitReady
                (connection_events [(3%positive, Z.lor EPOLLIN EPOLLHUP)])]
             (os three_connections) |}.
(** * Properties *)

(** ** Running the monad in proofs *)

Ltac unfold_monad :=
  unfold call, close, Connection_handleDataReadyForWrite,
    Connection_handleDataReadyForRead, emit, time, throw, get_srv, get_os,
    modify_srv, modify_os, mbind, M_bind, bind, mret, M_ret, ret in *.

Ltac run := repeat (progress (unfold_monad; cbn in *)).

(** ** Write-readiness subscription *)

Lemma epoll_ctl_MOD_spec epfd fd events data (m : Machine) :
  exists ok m',
    epoll_ctl epfd EPOLL_CTL_MOD fd events data m = Returns ok m' /\
    srv m' = srv m /\
    trace (os m') =
      trace (os m) ++ [sys_epoll_ctl epfd EPOLL_CTL_MOD fd events data] /\
    interest (os m') =
      (if ok then <[fd := (events, data)]> (interest (os m))
       else interest (os m)).
Proof.
  unfold epoll_ctl. run.
  repeat case_match; by eexists _, _.
Qed.

Lemma subscribeToWriteEvents_toggles : toggles_with_read subscribeToWriteEvents.
Proof.
  intros connection m fd.
  destruct (epoll_ctl_MOD_spec (_epollFd (srv m)) fd (Z.lor EPOLLIN EPOLLOUT)
              (ConnectionPtr connection) m) as (ok & m' & Hrun & ?).
  exists (Z.lor EPOLLIN EPOLLOUT), ok, m'. split; [exact Hrun|]. by split.
Qed.

Lemma unsubscribeFromWriteEvents_toggles :
  toggles_with_read unsubscribeFromWriteEvents.
Proof.
  intros connection m fd.
  destruct (epoll_ctl_MOD_spec (_epollFd (srv m)) fd EPOLLIN
              (ConnectionPtr connection) m) as (ok & m' & Hrun & ?).
  exists EPOLLIN, ok, m'. split; [exact Hrun|]. by split.
Qed.

Lemma toggle_keeps_read (toggle : positive -> M bool) connection m :
  toggles_with_read toggle ->
  let fd := getFd (objects (os m) connection) in
  watched_for_read (os m) fd = true ->
  watched_for_read (os (final (toggle connection m))) fd = true.
Proof.
  intros Htoggle fd Hwatched.
  destruct (Htoggle connection m) as (events & ok & m' & -> & Hin & _ & _ & Hi).
  cbn [final]. unfold watched_for_read in *. rewrite Hi.
  destruct ok; [|done]. fold fd. by rewrite lookup_insert_eq.
Qed.

(** C9.  [subscribeToWriteEvents] and [unsubscribeFromWriteEvents] each
    make one [epoll_ctl(EPOLL_CTL_MOD)] call whose mask includes [EPOLLIN],
    so a connection that the poller watches for read-readiness is still
    watched for it after either call. *)
Theorem write_subscription_keeps_read_interest :
  toggles_with_read subscribeToWriteEvents /\
  toggles_with_read unsubscribeFromWriteEvents /\
  forall (connection : positive) (m : Machine),
    let fd := getFd (objects (os m) connection) in
    watched_for_read (os m) fd = true ->
    watched_for_read (os (final (subscribeToWriteEvents connection m))) fd
      = true /\
    watched_for_read (os (final (unsubscribeFromWriteEvents connection m))) fd
      = true.
Proof.
  split; [apply subscribeToWriteEvents_toggles|].
  split; [apply unsubscribeFromWriteEvents_toggles|].
  intros connection m fd Hwatched. split.
  - by apply toggle_keeps_read; [apply subscribeToWriteEvents_toggles|].
  - by apply toggle_keeps_read; [apply unsubscribeFromWriteEvents_toggles|].
Qed.

(** ** [PageRequest::content] *)

(** C10, as the code has it.  [content()] is null when [contentLength()] is
    [0], and then the vector is not subscripted.  When the length is not
    [0] and the vector holds a byte, it is the address of the first byte of
    the body, and not null.  When the length is not [0] and the vector is
    still empty, the expression subscripts an empty vector and the result
    is no pointer to a byte. *)
Theorem content_null_iff_empty (r : PageRequest.t) :
  (PageRequest.contentLength r = 0%N ->
   PageRequest.content r = PageRequest.NULL /\
   (PageRequest.content_evaluation r).2 = []) /\
  (PageRequest.contentLength r <> 0%N ->
   PageRequest._content r <> [] ->
   PageRequest.content r = PageRequest.element_of_content 0 /\
   PageRequest.content r <> PageRequest.NULL /\
   PageRequest.deref r (PageRequest.content r)
     = head (PageRequest._content r) /\
   is_Some (PageRequest.deref r (PageRequest.content r))) /\
  (PageRequest.contentLength r <> 0%N ->
   PageRequest._content r = [] ->
   PageRequest.content r = PageRequest.undefined /\
   (PageRequest.content_evaluation r).2 = [0%nat] /\
   PageRequest.deref r (PageRequest.content r) = None).
Proof.
  unfold PageRequest.content, PageRequest.content_evaluation,
    PageRequest.address_of_element, PageRequest.contentLength.
  destruct (N.ltb_spec 0 (PageRequest._contentLength r)) as [Hpos|Hzero];
    cbn [fst snd].
  - split; [lia|]. split.
    + intros _ Hbody.
      destruct (PageRequest._content r) as [|byte body] eqn:Hcontent;
        [done|].
      cbn. rewrite Hcontent. by repeat split.
    + intros _ ->. by cbn.
  - split; [done|]. split; intros Hlen; lia.
Qed.

(** The claim as it was made, for every request, fails on a request whose
    body has not been stored: the content length is [3] and [content()]
    points at no byte. *)
Lemma content_before_body_is_stored :
  PageRequest.contentLength body_not_stored = 3%N /\
  PageRequest.content body_not_stored = PageRequest.undefined /\
  PageRequest.deref body_not_stored (PageRequest.content body_not_stored)
    = None /\
  (PageRequest.content_evaluation body_not_stored).2 = [0%nat].
Proof. vm_compute. done. Qed.

(** ** [handleAccept] *)

Lemma accept_count_app (l k : list Call) :
  accept_count (l ++ k) = (accept_count l + accept_count k)%nat.
Proof. unfold accept_count. by rewrite List.filter_app, length_app. Qed.

(** When the kernel refuses nothing, [handleAccept] keeps the first waiting
    peer: it makes [accepted_calls], the [SO_LINGER] and [FIONBIO] calls
    ahead of [epoll_ctl], and then inserts the new connection with the
    current time, whatever thread is running. *)
Lemma handleAccept_keeps (m : Machine) peer waiting fd rest :
  backlog (os m) = peer :: waiting ->
  fd_supply (os m) = fd :: rest ->
  fd <> -1 ->
  (forall c, faults (os m) c = false) ->
  interest (os m) !! fd = None ->
  exists m',
    handleAccept m = Returns tt m' /\
    _connections (srv m') =
      map_insert (next_object (os m)) (clock (os m)) (_connections (srv m)) /\
    trace (os m') =
      trace (os m) ++ accepted_calls (srv m) fd (next_object (os m)) /\
    backlog (os m') = waiting.
Proof.
  intros Hbacklog Hsupply Hfd Hfaults Hfree.
  unfold handleAccept, accept, configureSocket, makeNonBlocking,
    newConnection, epoll_ctl.
  run. rewrite !Hfaults, Hbacklog, Hsupply. run.
  destruct (Z.eqb_spec fd (-1)) as [|_]; [done|].
  repeat (first [rewrite Hfaults | rewrite Hfree | progress run]).
  eexists. split; [reflexivity|]. cbn.
  split; [done|]. split; [|done].
  unfold accepted_calls. by rewrite <- !app_assoc.
Qed.
(** ** Relations every step of a member function keeps *)

Section Preserves.

Context (R : relation Machine) `{!PreOrder R}.

Lemma preserves_ret {A} (a : A) : preserves R (mret a).
Proof. intros m. reflexivity. Qed.

Lemma preserves_throw {A} : preserves R (@throw A).
Proof. intros m. reflexivity. Qed.

Lemma preserves_get_srv : preserves R get_srv.
Proof. intros m. reflexivity. Qed.

Lemma preserves_get_os : preserves R get_os.
Proof. intros m. reflexivity. Qed.

Lemma preserves_bind {A B} (f : M A) (k : A -> M B) :
  preserves R f -> (forall a, preserves R (k a)) -> preserves R (f ≫= k).
Proof.
  intros Hf Hk m. unfold mbind, M_bind, bind.
  specialize (Hf m). destruct (f m) as [a m1|m1]; cbn in *; [|done].
  by etrans; [|apply Hk].
Qed.

Lemma preserves_modify_srv (g : Server -> Server) :
  (forall m, R m {| srv := g (srv m); os := os m |}) ->
  preserves R (modify_srv g).
Proof. intros Hg m. apply Hg. Qed.

Lemma preserves_modify_os (g : World -> World) :
  (forall m, R m {| srv := srv m; os := g (os m) |}) ->
  preserves R (modify_os g).
Proof. intros Hg m. apply Hg. Qed.

End Preserves.

(** One step of a proof that a member function preserves a relation:
    sequencing, the primitives, case analysis on what the code tests, and
    the definitions of the functions it calls. *)
Ltac preserves_step :=
  first
    [ apply preserves_ret; solve [apply _]
    | apply preserves_throw; solve [apply _]
    | apply preserves_get_srv; solve [apply _]
    | apply preserves_get_os; solve [apply _]
    | apply preserves_bind; [solve [apply _]| |intros ?; cbv beta zeta]
    | apply preserves_modify_srv; [solve [apply _]|intros ?]
    | apply preserves_modify_os; [solve [apply _]|intros ?]
    | match goal with
      | |- preserves _ (if ?b then _ else _) => destruct b
      | |- preserves _ (match ?x with _ => _ end) => destruct x
      | |- preserves _ (let '(_, _) := ?x in _) => destruct x
      end
    | progress unfold call, close, Connection_handleDataReadyForWrite,
        Connection_handleDataReadyForRead, emit, time, fresh_fd, socket,
        epoll_create, pipe, accept, epoll_ctl, newConnection,
        makeNonBlocking, configureSocket, checkThread, remove,
        deleteConnection, schedule, popNextRunnable, terminate ].

(** *** No [accept] and no change of the backlog *)

Global Instance no_accept_preorder : PreOrder no_accept.
Proof.
  split; [by intros m|].
  intros m1 m2 m3 [? ?] [? ?]. split; congruence.
Qed.

(** *** The trace only grows *)

Global Instance trace_grows_preorder : PreOrder trace_grows.
Proof.
  split; [intros m; exists []; by rewrite app_nil_r|].
  intros m1 m2 m3 [c1 H1] [c2 H2]. exists (c1 ++ c2).
  by rewrite H2, H1, app_assoc.
Qed.

Local Arguments accept_count : simpl never.

Lemma deleteConnection_no_accept c : preserves no_accept (deleteConnection c).
Proof.
  repeat preserves_step;
    (split; cbn; [rewrite ?accept_count_app; unfold accept_count; cbn; lia
                 |done]).
Qed.

Lemma bind_get_srv {A} (k : Server -> M A) (m : Machine) :
  (get_srv ≫= k) m = k (srv m) m.
Proof. reflexivity. Qed.

Lemma bind_get_os {A} (k : World -> M A) (m : Machine) :
  (get_os ≫= k) m = k (os m) m.
Proof. reflexivity. Qed.

(** After a step [f] described by [S], a continuation that preserves [R]
    ends in a machine that [R] relates to the one [f] ended in. *)
Lemma bind_then {A B} (S R : relation Machine) `{!Reflexive R}
    (f : M A) (k : A -> M B) (m : Machine) :
  S m (final (f m)) ->
  (forall a, preserves R (k a)) ->
  exists m1, S m m1 /\ R m1 (final ((f ≫= k) m)).
Proof.
  intros Hf Hk. exists (final (f m)). split; [done|].
  unfold mbind, M_bind, bind. destruct (f m) as [a m1|m1]; cbn; [|done].
  apply Hk.
Qed.

Lemma accept_once (fd : Z) (m : Machine) :
  accepts_one m (final (accept fd m)).
Proof.
  unfold accepts_one, accept. run.
  repeat case_match; cbn; rewrite accept_count_app;
    (split; [unfold accept_count; cbn; lia|]); auto.
Qed.

Lemma handleAccept_accepts_once (m : Machine) :
  accepts_one m (final (handleAccept m)).
Proof.
  unfold handleAccept. rewrite bind_get_srv.
  match goal with |- context [(?f ≫= ?k) m] =>
    destruct (bind_then accepts_one no_accept f k m)
      as (m1 & [Hcount Hbacklog] & [Hcount' Hbacklog'])
  end; [apply accept_once| |].
  2: { unfold accepts_one. rewrite Hcount', Hbacklog'. by split. }
  intros [fd address].
  repeat preserves_step;
    try apply deleteConnection_no_accept;
    (split; cbn; [rewrite ?accept_count_app; unfold accept_count; cbn; lia
                 |done]).
Qed.
(** C1.  For the first waiting peer of [listening], [handleAccept] makes
    the socket non-blocking and enables [SO_LINGER] before it registers the
    descriptor with the poller and inserts the connection, but the linger
    time it passes is [l_linger = 500] seconds, not the 5 seconds of the
    comment at server.cpp:298. *)
Theorem accepted_socket_lingers_500_seconds :
  let m' := final (handleAccept listening) in
  trace (os m') =
    [sys_accept 3;
     sys_setsockopt_SO_LINGER 7 {| l_onoff := true; l_linger := 500 |};
     sys_ioctl_FIONBIO 7;
     sys_setsockopt_SO_REUSEADDR 7;
     new_Connection 1 7;
     sys_epoll_ctl 4 EPOLL_CTL_ADD 7 EPOLLIN (ConnectionPtr 1)] /\
  _connections (srv m') !! 1%positive = Some 100 /\
  linger_seconds (trace (os m')) = [500].
Proof. vm_compute. done. Qed.

(** The same for every peer [handleAccept] keeps: see
    [handleAccept_keeps], whose [accepted_calls] has the [SO_LINGER] call
    with 500 seconds and the [FIONBIO] call ahead of [epoll_ctl]. *)
Lemma kept_connections_linger_500_seconds (s : Server) (fd : Z) (c : positive) :
  linger_seconds (accepted_calls s fd c) = [500].
Proof. reflexivity. Qed.

(** ** Thread ownership *)

Lemma remove_foreign_thread (connection : positive) (m : Machine) :
  gettid (os m) <> _threadId (srv m) ->
  remove connection m = Throws m.
Proof.
  intros Htid. unfold remove, checkThread. run.
  destruct (Z.eqb_spec (gettid (os m)) (_threadId (srv m))); [done|].
  by destruct m.
Qed.

Lemma remove_reactor_thread (connection : positive) (m : Machine) :
  gettid (os m) = _threadId (srv m) ->
  exists w',
    remove connection m =
      Returns tt
        {| srv := set_connections
                    (base.delete connection (_connections (srv m))) (srv m);
           os := w' |} /\
    trace w' =
      trace (os m) ++
      [sys_epoll_ctl (_epollFd (srv m)) EPOLL_CTL_DEL
         (getFd (objects (os m) connection)) 0 (ConnectionPtr connection)] /\
    gettid w' = gettid (os m) /\
    objects w' = objects (os m) /\
    clock w' = clock (os m).
Proof.
  intros Htid. unfold remove, checkThread, epoll_ctl. run.
  rewrite Htid, Z.eqb_refl. run.
  repeat (case_match; run); simplify_eq/=;
    (eexists; split; [reflexivity|]); by cbn.
Qed.

(** C4, as the code has it.  [remove] checks the running thread against
    [_threadId]: on another thread it throws before it touches the poller
    or the registry, on the reactor thread it erases the connection.
    [handleAccept] makes no such check: when the kernel refuses nothing it
    inserts the accepted connection whatever thread is running. *)
Theorem remove_checks_thread_accept_does_not
    (connection : positive) (m : Machine) :
  (gettid (os m) <> _threadId (srv m) ->
   remove connection m = Throws m) /\
  (gettid (os m) = _threadId (srv m) ->
   exists m',
     remove connection m = Returns tt m' /\
     _connections (srv m') = base.delete connection (_connections (srv m))) /\
  (forall peer waiting fd rest,
     backlog (os m) = peer :: waiting ->
     fd_supply (os m) = fd :: rest ->
     fd <> -1 ->
     (forall c, faults (os m) c = false) ->
     interest (os m) !! fd = None ->
     exists m',
       handleAccept m = Returns tt m' /\
       _connections (srv m') =
         map_insert (next_object (os m)) (clock (os m))
           (_connections (srv m))).
Proof.
  split; [apply remove_foreign_thread|]. split.
  - intros Htid.
    destruct (remove_reactor_thread connection m Htid) as (w' & -> & _).
    by eexists.
  - intros peer waiting fd rest Hb Hs Hfd Hfaults Hfree.
    destruct (handleAccept_keeps m peer waiting fd rest Hb Hs Hfd Hfaults Hfree)
      as (m' & Hrun & Hreg & _).
    by exists m'.
Qed.

(** C4 as stated fails for the insertion: on [foreign_thread], where thread
    2 runs a server whose reactor thread is 1, [handleAccept] returns
    normally and the connection is in the registry. *)
Lemma handleAccept_unchecked_on_foreign_thread :
  gettid (os foreign_thread) <> _threadId (srv foreign_thread) /\
  returned (handleAccept foreign_thread) = true /\
  _connections (srv (final (handleAccept foreign_thread))) !! 1%positive
    = Some 100.
Proof. split; [discriminate|]. split; vm_compute; reflexivity. Qed.

Section ReactorProperties.

Context {E : Errno}.

(** ** Routing of one event *)

(** C3, as the code has it.  A readable event on the listening socket makes
    exactly one [accept] call: at most the first waiting peer leaves the
    backlog, the others wait for a later event. *)
Theorem listening_socket_accepts_once
    (events : Z) (toBeDeleted : list positive) (m : Machine) :
  Z.land events (Z.lnot EPOLLIN) = 0 ->
  Z.land events EPOLLIN <> 0 ->
  let m' := final (routeEvent (ThisServer, events) toBeDeleted m) in
  accept_count (trace (os m')) = S (accept_count (trace (os m))) /\
  (backlog (os m') = backlog (os m) \/
   backlog (os m') = tail (backlog (os m))).
Proof.
  intros Honly Hin. unfold routeEvent, nonzero. rewrite Honly.
  destruct (Z.eqb_spec (Z.land events EPOLLIN) 0) as [|_]; [done|].
  pose proof (handleAccept_accepts_once m) as Hone.
  run. destruct (handleAccept m); exact Hone.
Qed.

(** C7.  An event on a connection whose mask has [EPOLLIN] and [EPOLLOUT]
    and no other bit calls [handleDataReadyForWrite] and then
    [handleDataReadyForRead] on it, and nothing else. *)
Theorem writable_serviced_before_readable
    (connection : positive) (events : Z) (toBeDeleted : list positive)
    (m : Machine) :
  Z.land events (Z.lnot (Z.lor (Z.lor EPOLLIN EPOLLOUT) EPOLLHUP)) = 0 ->
  Z.land events EPOLLHUP = 0 ->
  Z.land events EPOLLOUT <> 0 ->
  Z.land events EPOLLIN <> 0 ->
  exists m',
    routeEvent (ConnectionPtr connection, events) toBeDeleted m
      = Returns (Next, toBeDeleted) m' /\
    srv m' = srv m /\
    trace (os m') =
      trace (os m) ++
      [handleDataReadyForWrite connection; handleDataReadyForRead connection].
Proof.
  intros Herr Hhup Hout Hin. unfold routeEvent, nonzero.
  rewrite Herr, Hhup.
  destruct (Z.eqb_spec (Z.land events EPOLLOUT) 0) as [|_]; [done|].
  destruct (Z.eqb_spec (Z.land events EPOLLIN) 0) as [|_]; [done|].
  run. eexists. split; [reflexivity|]. split; [done|].
  cbn. by rewrite <- app_assoc.
Qed.

End ReactorProperties.

(** C3 as stated fails: on [readable_listener] two peers wait when the
    listening socket is reported readable; the iteration calls [accept]
    once, keeps one connection, and leaves the second peer waiting. *)
Lemma second_peer_left_waiting :
  let m' := final (@serveOnce linux readable_listener) in
  length (backlog (os readable_listener)) = 2%nat /\
  accept_count (trace (os m')) = 1%nat /\
  size (_connections (srv m')) = 1%nat /\
  backlog (os m') = [ {| sin_addr := 167772162; sin_port := 40001 |} ].
Proof. vm_compute. done. Qed.

Section WakePipe.

Context {E : Errno}.

(** ** The wake-up pipe *)

(** With enough fuel the loop on the pipe ends at the first failing read,
    whatever the fuel. *)
Lemma drainWakePipe_spec (fuel : nat) (m : Machine) :
  (length (pipe_reads (os m)) < fuel)%nat ->
  let script := pipe_reads (os m) in
  exists w',
    drainWakePipe fuel m = Returns tt {| srv := srv m; os := w' |} /\
    trace w' =
      trace (os m) ++
      replicate (reads_until_error script) (sys_read (_pipes0 (srv m))) /\
    pipe_reads w' = drop (reads_until_error script) script /\
    errno w' = first_error script.
Proof.
  revert m. induction fuel as [|fuel IH]; intros m Hfuel; [lia|].
  cbn [drainWakePipe]. unfold read. run.
  destruct (pipe_reads (os m)) as [|[n|e] rest] eqn:Hscript; run.
  - eexists. split; [reflexivity|]. by cbn.
  - destruct (Z.eqb_spec (Z.of_N n) (-1)) as [|_]; [lia|]. cbn.
    match goal with |- context [drainWakePipe fuel ?m1] =>
      destruct (IH m1) as (w' & -> & Htrace & Hreads & Herrno)
    end.
    { cbn. cbn in Hfuel. lia. }
    cbn in *. eexists. split; [reflexivity|].
    rewrite Htrace, Hreads, Herrno. by rewrite <- app_assoc.
  - eexists. split; [reflexivity|]. by cbn.
Qed.

(** C2.  Where [EAGAIN] and [EWOULDBLOCK] are the same number, as on Linux:
    a readable event on the wake-up pipe reads the pipe until the first
    read that fails; the terminate flag is left as it was when that read
    failed because it would block, and is set when it failed with any
    other error. *)
Theorem wake_pipe_drained_until_would_block
    (events : Z) (toBeDeleted : list positive) (m : Machine) :
  EAGAIN = EWOULDBLOCK ->
  Z.land events (Z.lnot EPOLLIN) = 0 ->
  let script := pipe_reads (os m) in
  exists m',
    routeEvent (WakePipe, events) toBeDeleted m
      = Returns (Next, toBeDeleted) m' /\
    trace (os m') =
      trace (os m) ++
      replicate (reads_until_error script) (sys_read (_pipes0 (srv m))) /\
    pipe_reads (os m') = drop (reads_until_error script) script /\
    _terminate (srv m') =
      (if first_error script =? EAGAIN then _terminate (srv m) else true).
Proof.
  intros Hsame Honly script. unfold routeEvent, nonzero. rewrite Honly.
  destruct (drainWakePipe_spec (S (length (pipe_reads (os m)))) m)
    as (w' & Hrun & Htrace & Hreads & Herrno); [lia|].
  run. rewrite Hrun. run. rewrite <- Hsame, Herrno. fold script.
  destruct (first_error script =? EAGAIN); run;
    (eexists; split; [reflexivity|by cbn]).
Qed.

(** X15.  Where the two numbers differ the test at server.cpp:224 holds
    for every [errno], and a readable event on the pipe always sets the
    terminate flag. *)
Lemma wake_terminates_where_errnos_differ
    (events : Z) (toBeDeleted : list positive) (m : Machine) :
  EAGAIN <> EWOULDBLOCK ->
  Z.land events (Z.lnot EPOLLIN) = 0 ->
  _terminate (srv (final (routeEvent (WakePipe, events) toBeDeleted m)))
    = true.
Proof.
  intros Hdiffer Honly. unfold routeEvent, nonzero. rewrite Honly.
  destruct (drainWakePipe_spec (S (length (pipe_reads (os m)))) m)
    as (w' & Hrun & _); [lia|].
  run. rewrite Hrun. run.
  destruct (Z.eqb_spec (errno w') EAGAIN) as [Ha|_];
    destruct (Z.eqb_spec (errno w') EWOULDBLOCK) as [Hw|_];
    run; congruence.
Qed.

End WakePipe.

(** ** Deleting connections *)

Lemma deleteConnection_reactor_thread (c : positive) (m : Machine) :
  gettid (os m) = _threadId (srv m) ->
  exists w',
    deleteConnection c m =
      Returns tt
        {| srv := set_connections (base.delete c (_connections (srv m)))
                    (srv m);
           os := w' |} /\
    trace w' = trace (os m) ++ deletion_calls (srv m) (os m) c /\
    gettid w' = gettid (os m) /\
    objects w' = objects (os m) /\
    clock w' = clock (os m).
Proof.
  intros Htid. unfold deleteConnection.
  destruct (remove_reactor_thread c
              {| srv := srv m;
                 os := set_trace (trace (os m) ++ [delete_Connection c])
                         (os m) |} Htid)
    as (w1 & Hrun & Htrace & Hgettid & Hobjects & Hclock).
  run. rewrite Hrun. run.
  eexists. split; [reflexivity|]. cbn.
  rewrite Htrace, Hgettid, Hobjects, Hclock. cbn.
  unfold deletion_calls. by rewrite <- !app_assoc.
Qed.

Lemma deleteConnection_foreign_thread (c : positive) (m : Machine) :
  gettid (os m) <> _threadId (srv m) ->
  exists w',
    deleteConnection c m = Throws {| srv := srv m; os := w' |} /\
    trace w' = trace (os m) ++ [delete_Connection c].
Proof.
  intros Htid. unfold deleteConnection. run.
  rewrite remove_foreign_thread; [|done]. by eexists.
Qed.

Lemma deleteEach_reactor_thread (l : list positive) (m : Machine) :
  gettid (os m) = _threadId (srv m) ->
  exists w',
    deleteEach l m =
      Returns tt
        {| srv := set_connections (erase_all l (_connections (srv m)))
                    (srv m);
           os := w' |} /\
    trace w' = trace (os m) ++ flat_map (deletion_calls (srv m) (os m)) l /\
    gettid w' = gettid (os m) /\
    objects w' = objects (os m) /\
    clock w' = clock (os m).
Proof.
  revert m. induction l as [|c l IH]; intros m Htid.
  - exists (os m). cbn. rewrite app_nil_r. by destruct m as [[] ?].
  - cbn [deleteEach].
    destruct (deleteConnection_reactor_thread c m Htid)
      as (w1 & Hrun & Htrace & Hgettid & Hobjects & Hclock).
    run. rewrite Hrun.
    match goal with |- context [deleteEach l ?m1] =>
      destruct (IH m1) as (w2 & -> & Htrace2 & Hgettid2 & Hobjects2 & Hclock2)
    end; [by cbn; rewrite Hgettid|].
    cbn in *. exists w2. split; [reflexivity|].
    unfold deletion_calls in *. cbn in *.
    rewrite Htrace2, Htrace, Hgettid2, Hobjects2, Hclock2, Hobjects.
    by rewrite <- !app_assoc.
Qed.

Lemma lookup_erase_all (l : list positive) (registry : gmap positive Z)
    (c : positive) :
  erase_all l registry !! c = if decide (c ∈ l) then None else registry !! c.
Proof.
  unfold erase_all. revert registry.
  induction l as [|d l IH]; intros registry; cbn.
  - by rewrite decide_False by apply not_elem_of_nil.
  - rewrite IH.
    destruct (decide (c ∈ l)) as [Hin|Hout];
      destruct (decide (c ∈ d :: l)) as [Hin'|Hout']; try done.
    + exfalso. apply Hout'. by apply list_elem_of_further.
    + apply elem_of_cons in Hin' as [->|Hin']; [|done].
      apply lookup_delete_eq.
    + apply lookup_delete_ne. intros ->. apply Hout'.
      apply list_elem_of_here.
Qed.

Lemma deleted_in_deletion_calls s w (l : list positive) (c : positive) :
  delete_Connection c ∈ flat_map (deletion_calls s w) l <-> c ∈ l.
Proof.
  rewrite !list_elem_of_In, in_flat_map. split.
  - intros (d & Hd & Hin). cbn in Hin.
    destruct Hin as [Heq|[Heq|[Heq|[]]]]; try discriminate Heq.
    by injection Heq as ->.
  - intros Hin. exists c. split; [done|]. by left.
Qed.

(** ** The registry in key order *)

Lemma elem_of_entries (registry : gmap positive Z) (c : positive) (t : Z) :
  (c, t) ∈ entries registry <-> registry !! c = Some t.
Proof.
  unfold entries. rewrite merge_sort_Permutation.
  apply elem_of_map_to_list.
Qed.

Lemma bind_time {A} (k : Z -> M A) (m : Machine) :
  (time ≫= k) m = k (clock (os m)) m.
Proof. reflexivity. Qed.

(** ** The reaper *)

Lemma lame_entries (m : Machine) (c : positive) (t : Z) :
  _connections (srv m) !! c = Some t ->
  c ∈ (List.filter
         (lame (os m) (_lameConnectionTimeoutSeconds (srv m)) (clock (os m)))
         (entries (_connections (srv m)))).*1
  <-> is_lame m c t.
Proof.
  intros Hc. rewrite list_elem_of_fmap. unfold is_lame. split.
  - intros ([c' t'] & -> & Hin). cbn in *.
    apply list_elem_of_In, filter_In in Hin as [Hin Hlame].
    apply list_elem_of_In, elem_of_entries in Hin.
    assert (t' = t) as -> by congruence.
    unfold lame in Hlame. cbn in Hlame.
    apply andb_true_iff in Hlame as [Hbytes Hage]. lia.
  - intros [Hbytes Hage]. exists (c, t). split; [done|].
    apply list_elem_of_In, filter_In. split.
    + by apply list_elem_of_In, elem_of_entries.
    + unfold lame. cbn. apply andb_true_iff. lia.
Qed.

(** C5.  On the reactor thread, when the current time has reached
    [_nextDeadConnectionCheck], the scan of [processEventQueue] deletes a
    connection of the registry exactly when it has received no byte and
    its age is at least [_lameConnectionTimeoutSeconds]: such a connection
    is deleted and leaves the registry, every other connection, so every
    one that received a byte, is not deleted and stays.  The timeout is 10
    unless [setLameConnectionTimeoutSeconds] has set another. *)
Theorem lame_connections_reaped (m : Machine) :
  gettid (os m) = _threadId (srv m) ->
  _nextDeadConnectionCheck (srv m) <= clock (os m) ->
  (exists m' calls,
    reapLameConnections m = Returns tt m' /\
    trace (os m') = trace (os m) ++ calls /\
    forall (c : positive) (t : Z),
      _connections (srv m) !! c = Some t ->
      (is_lame m c t ->
       delete_Connection c ∈ calls /\ _connections (srv m') !! c = None) /\
      (~ is_lame m c t ->
       (delete_Connection c ∉ calls) /\ _connections (srv m') !! c = Some t) /\
      (bytesReceived (objects (os m) c) <> 0 -> ~ is_lame m c t)) /\
  _lameConnectionTimeoutSeconds Server_new = 10 /\
  (forall (seconds : Z) (m0 : Machine),
    _lameConnectionTimeoutSeconds
      (srv (final (setLameConnectionTimeoutSeconds seconds m0))) = seconds).
Proof.
  intros Htid Hdue. split; [|by split].
  unfold reapLameConnections. rewrite bind_time, bind_get_srv.
  destruct (Z.leb_spec (_nextDeadConnectionCheck (srv m)) (clock (os m)))
    as [_|]; [|lia].
  rewrite bind_get_os.
  match goal with |- context [deleteEach ?l m] =>
    destruct (deleteEach_reactor_thread l m Htid)
      as (w' & -> & Htrace & _); set (toRemove := l) in *
  end.
  eexists _, _. split; [reflexivity|]. split; [exact Htrace|].
  intros c t Hc. cbn [srv os]. cbn [_connections set_connections].
  rewrite lookup_erase_all, deleted_in_deletion_calls.
  pose proof (lame_entries m c t Hc) as Hlame. fold toRemove in Hlame.
  split; [|split].
  - intros Hyes. apply Hlame in Hyes. by rewrite decide_True.
  - intros Hno. rewrite <- Hlame in Hno. by rewrite decide_False.
  - intros Hbytes [Hzero _]. done.
Qed.

(** ** [~Server] *)

Lemma begin_None (registry : gmap positive Z) :
  begin registry = None -> registry = ∅.
Proof.
  unfold begin. destruct (entries registry) as [|e l] eqn:Hentries; [|done].
  intros _. apply map_to_list_empty_iff, Permutation_nil_r.
  rewrite <- Hentries. unfold entries. by rewrite merge_sort_Permutation.
Qed.

Lemma begin_Some (registry : gmap positive Z) (c : positive) :
  begin registry = Some c -> is_Some (registry !! c).
Proof.
  unfold begin. destruct (entries registry) as [|[c' t] l] eqn:Hentries;
    [done|].
  intros [= <-]. exists t. apply elem_of_entries. rewrite Hentries.
  apply list_elem_of_here.
Qed.

Lemma set_connections_same (m : Machine) :
  {| srv := set_connections (_connections (srv m)) (srv m); os := os m |} = m.
Proof. by destruct m as [[] ?]. Qed.

(** With enough fuel the loop of [~Server] on the reactor thread deletes
    every connection of the registry and leaves it empty. *)
Lemma deleteAllConnections_reactor_thread (fuel : nat) (m : Machine) :
  gettid (os m) = _threadId (srv m) ->
  (size (_connections (srv m)) < fuel)%nat ->
  exists w' deletions,
    deleteAllConnections fuel m =
      Returns tt {| srv := set_connections ∅ (srv m); os := w' |} /\
    trace w' = trace (os m) ++ deletions /\
    forall c, is_Some (_connections (srv m) !! c) ->
              delete_Connection c ∈ deletions.
Proof.
  revert m. induction fuel as [|fuel IH]; intros m Htid Hfuel; [lia|].
  cbn [deleteAllConnections]. rewrite bind_get_srv.
  destruct (begin (_connections (srv m))) as [c|] eqn:Hbegin.
  - apply begin_Some in Hbegin.
    destruct (deleteConnection_reactor_thread c m Htid)
      as (w1 & Hrun & Htrace & Hgettid & _).
    unfold mbind, M_bind, bind. rewrite Hrun.
    match goal with |- context [deleteAllConnections fuel ?m1] =>
      destruct (IH m1) as (w2 & deletions & -> & Htrace2 & Hall)
    end.
    { by cbn; rewrite Hgettid. }
    { cbn. rewrite map_size_delete_Some by done.
      assert (size (_connections (srv m)) <> 0%nat); [|lia].
      intros Hzero%map_size_empty_iff.
      rewrite Hzero, lookup_empty in Hbegin. by destruct Hbegin. }
    cbn in *. exists w2, (deletion_calls (srv m) (os m) c ++ deletions).
    split; [reflexivity|]. split.
    { by rewrite Htrace2, Htrace, app_assoc. }
    intros c' Hc'. apply elem_of_app.
    destruct (decide (c' = c)) as [->|Hne].
    + left. apply list_elem_of_here.
    + right. apply Hall. by rewrite lookup_delete_ne.
  - apply begin_None in Hbegin. exists (os m), [].
    rewrite app_nil_r. split; [|split; [done|]].
    + cbn. rewrite <- Hbegin. by rewrite set_connections_same.
    + intros c. rewrite Hbegin, lookup_empty. by intros [? ?].
Qed.

(** On another thread the loop throws in the destructor of the first
    connection, or has nothing to do. *)
Lemma deleteAllConnections_foreign_thread (fuel : nat) (m : Machine) :
  gettid (os m) <> _threadId (srv m) ->
  (_connections (srv m) = ∅ /\
   deleteAllConnections (S fuel) m = Returns tt m) \/
  (exists c w',
     deleteAllConnections (S fuel) m = Throws {| srv := srv m; os := w' |} /\
     trace w' = trace (os m) ++ [delete_Connection c]).
Proof.
  intros Htid. cbn [deleteAllConnections]. rewrite bind_get_srv.
  destruct (begin (_connections (srv m))) as [c|] eqn:Hbegin.
  - right.
    destruct (deleteConnection_foreign_thread c m Htid) as (w' & Hrun & ?).
    exists c, w'. unfold mbind, M_bind, bind. by rewrite Hrun.
  - left. by apply begin_None in Hbegin.
Qed.

Lemma closeUnlessUnset_spec (fd : Z) (m : Machine) :
  closeUnlessUnset fd m =
    Returns tt
      {| srv := srv m;
         os := set_trace
                 (trace (os m) ++ (if fd =? -1 then [] else [sys_close fd]))
                 (os m) |}.
Proof.
  unfold closeUnlessUnset. destruct (fd =? -1); cbn.
  - rewrite app_nil_r. by destruct m as [? []].
  - reflexivity.
Qed.

(** After the loop, [~Server] closes its descriptors. *)
Lemma close_resources_spec (m : Machine) (k : M unit) :
  k = (s ← get_srv;
       closeUnlessUnset (_listenSock s);;
       closeUnlessUnset (_pipes0 s);;
       closeUnlessUnset (_pipes1 s);;
       closeUnlessUnset (_epollFd s)) ->
  exists w',
    k m = Returns tt {| srv := srv m; os := w' |} /\
    trace w' = trace (os m) ++ resource_closes (srv m).
Proof.
  intros ->. rewrite bind_get_srv.
  unfold mbind, M_bind, bind. rewrite !closeUnlessUnset_spec. cbn.
  eexists. split; [reflexivity|]. cbn. unfold resource_closes. cbn.
  by rewrite app_nil_r, <- !app_assoc.
Qed.

Lemma Server_destructor_reactor_thread (m : Machine) :
  gettid (os m) = _threadId (srv m) ->
  exists w' deletions,
    Server_destructor m =
      Returns tt {| srv := set_connections ∅ (srv m); os := w' |} /\
    trace w' = trace (os m) ++ deletions ++ resource_closes (srv m) /\
    forall c, is_Some (_connections (srv m) !! c) ->
              delete_Connection c ∈ deletions.
Proof.
  intros Htid. unfold Server_destructor. rewrite bind_get_srv.
  destruct (deleteAllConnections_reactor_thread
              (S (size (_connections (srv m)))) m Htid)
    as (w1 & deletions & Hrun & Htrace & Hall); [lia|].
  unfold mbind at 1, M_bind at 1, bind at 1. rewrite Hrun.
  match goal with |- context [?k {| srv := ?s1; os := w1 |}] =>
    destruct (close_resources_spec {| srv := s1; os := w1 |} k eq_refl)
      as (w2 & -> & Htrace2)
  end.
  cbn in *. exists w2, deletions. split; [done|]. split; [|done].
  by rewrite Htrace2, Htrace, <- app_assoc.
Qed.

Lemma Server_destructor_foreign_thread (m : Machine) :
  gettid (os m) <> _threadId (srv m) ->
  (_connections (srv m) = ∅ /\
   exists w',
     Server_destructor m = Returns tt {| srv := srv m; os := w' |} /\
     trace w' = trace (os m) ++ resource_closes (srv m)) \/
  (exists c w',
     Server_destructor m = Throws {| srv := srv m; os := w' |} /\
     trace w' = trace (os m) ++ [delete_Connection c]).
Proof.
  intros Htid.
  destruct (deleteAllConnections_foreign_thread
              (size (_connections (srv m))) m Htid)
    as [[Hempty Hrun]|(c & w' & Hrun & Htrace)]; [left|right];
    unfold Server_destructor; rewrite bind_get_srv;
    unfold mbind at 1, M_bind at 1, bind at 1; rewrite Hrun.
  - split; [done|].
    match goal with |- context [?k m] =>
      destruct (close_resources_spec m k eq_refl) as (w2 & -> & Htrace2)
    end.
    by exists w2.
  - by exists c, w'.
Qed.

(** *** The order in which [~Server] deletes *)

Global Instance key_le_transitive : Transitive key_le.
Proof. intros a b c. unfold key_le. apply Pos.le_trans. Qed.

Global Instance key_le_total : Total key_le.
Proof. intros a b. unfold key_le. apply Pos.le_total. Qed.

Lemma NoDup_keys_of_entries (registry : gmap positive Z) :
  NoDup (entries registry).*1.
Proof.
  unfold entries. rewrite merge_sort_Permutation.
  apply NoDup_fst_map_to_list.
Qed.

Lemma elem_of_keys_of_entries (registry : gmap positive Z) (c : positive) :
  c ∈ (entries registry).*1 <-> is_Some (registry !! c).
Proof.
  rewrite list_elem_of_fmap. split.
  - intros ([c' t] & -> & Hin). exists t. by apply elem_of_entries.
  - intros [t Hc]. exists (c, t). split; [done|]. by apply elem_of_entries.
Qed.

(** The iteration of the registry starts at its least key, and goes on
    with the iteration of the registry without that key. *)
Lemma entries_begin (registry : gmap positive Z) (c : positive) :
  begin registry = Some c ->
  (entries registry).*1 = c :: (entries (base.delete c registry)).*1.
Proof.
  unfold begin.
  destruct (entries registry) as [|[c' t] l] eqn:Hentries; [done|].
  intros [= <-]. cbn. f_equal. f_equal.
  assert (registry !! c' = Some t) as Hc.
  { apply elem_of_entries. rewrite Hentries. apply list_elem_of_here. }
  apply (Sorted_unique_strong key_le).
  - intros [c1 t1] [c2 t2] Hin1 Hin2 Hle1 Hle2. unfold key_le in *.
    cbn in *.
    assert (c1 = c2) as <- by (by apply Pos.le_antisym).
    f_equal.
    assert (registry !! c1 = Some t1) as H1.
    { apply elem_of_entries. rewrite Hentries.
      by apply list_elem_of_further. }
    apply elem_of_entries, lookup_delete_Some in Hin2 as [_ H2].
    congruence.
  - pose proof (Sorted_merge_sort key_le (map_to_list registry)) as Hsorted.
    fold (entries registry) in Hsorted. rewrite Hentries in Hsorted.
    by apply Sorted_inv in Hsorted as [? _].
  - apply (Sorted_merge_sort key_le).
  - apply (Permutation_cons_inv (a := (c', t))).
    rewrite <- Hentries. unfold entries.
    rewrite !merge_sort_Permutation.
    by rewrite <- map_to_list_delete.
Qed.

(** The loop of [~Server] deletes the connections in the order of the
    registry, and makes no other call. *)
Lemma deleteAllConnections_in_order (fuel : nat) (m : Machine) :
  gettid (os m) = _threadId (srv m) ->
  (size (_connections (srv m)) < fuel)%nat ->
  exists w',
    deleteAllConnections fuel m =
      Returns tt {| srv := set_connections ∅ (srv m); os := w' |} /\
    trace w' =
      trace (os m) ++
      flat_map (deletion_calls (srv m) (os m))
        (entries (_connections (srv m))).*1.
Proof.
  revert m. induction fuel as [|fuel IH]; intros m Htid Hfuel; [lia|].
  cbn [deleteAllConnections]. rewrite bind_get_srv.
  destruct (begin (_connections (srv m))) as [c|] eqn:Hbegin.
  - rewrite (entries_begin _ _ Hbegin). apply begin_Some in Hbegin.
    destruct (deleteConnection_reactor_thread c m Htid)
      as (w1 & Hrun & Htrace & Hgettid & Hobjects & _).
    unfold mbind, M_bind, bind. rewrite Hrun.
    match goal with |- context [deleteAllConnections fuel ?m1] =>
      destruct (IH m1) as (w2 & -> & Htrace2)
    end.
    { by cbn; rewrite Hgettid. }
    { cbn. rewrite map_size_delete_Some by done.
      assert (size (_connections (srv m)) <> 0%nat); [|lia].
      intros Hzero%map_size_empty_iff.
      rewrite Hzero, lookup_empty in Hbegin. by destruct Hbegin. }
    cbn in *. exists w2. split; [reflexivity|].
    unfold deletion_calls in *. cbn in *.
    rewrite Htrace2, Htrace, Hobjects. by rewrite <- !app_assoc.
  - apply begin_None in Hbegin. exists (os m).
    rewrite Hbegin. split.
    + cbn. rewrite <- Hbegin at 1. by rewrite set_connections_same.
    + unfold entries. rewrite map_to_list_empty. cbn.
      by rewrite app_nil_r.
Qed.

Lemma Server_destructor_in_order (m : Machine) :
  gettid (os m) = _threadId (srv m) ->
  exists w',
    Server_destructor m =
      Returns tt {| srv := set_connections ∅ (srv m); os := w' |} /\
    trace w' =
      trace (os m) ++
      flat_map (deletion_calls (srv m) (os m))
        (entries (_connections (srv m))).*1 ++
      resource_closes (srv m).
Proof.
  intros Htid. unfold Server_destructor. rewrite bind_get_srv.
  destruct (deleteAllConnections_in_order
              (S (size (_connections (srv m)))) m Htid)
    as (w1 & Hrun & Htrace); [lia|].
  unfold mbind at 1, M_bind at 1, bind at 1. rewrite Hrun.
  match goal with |- context [?k {| srv := ?s1; os := w1 |}] =>
    destruct (close_resources_spec {| srv := s1; os := w1 |} k eq_refl)
      as (w2 & -> & Htrace2)
  end.
  cbn in *. exists w2. split; [done|].
  by rewrite Htrace2, Htrace, <- app_assoc.
Qed.

(** C8.  When [~Server] returns, its calls are these and no others, in
    this order: for each connection of the registry, once, in the order of
    the registry, the deletion of the connection (its destructor, which
    takes it out of the poller and closes its socket); and only then the
    calls that close the listening socket, the two ends of the pipe and
    the epoll descriptor.  So every connection that was in the registry is
    deleted before the first of those, none of them is closed between two
    deletions, and the registry is empty.  [~Server] returns whenever it
    runs on the reactor thread; on another thread with a connection left,
    [remove] throws in the destructor of the first connection and nothing
    is closed. *)
Theorem connections_destroyed_before_resources_closed (m : Machine) :
  match Server_destructor m with
  | Returns _ m' =>
      let order := (entries (_connections (srv m))).*1 in
      let deletions := flat_map (deletion_calls (srv m) (os m)) order in
      trace (os m') =
        trace (os m) ++ deletions ++ resource_closes (srv m) /\
      NoDup order /\
      (forall c, is_Some (_connections (srv m) !! c) <-> c ∈ order) /\
      (forall c, is_Some (_connections (srv m) !! c) ->
                 delete_Connection c ∈ deletions) /\
      _connections (srv m') = ∅
  | Throws m' =>
      gettid (os m) <> _threadId (srv m) /\
      exists c, trace (os m') = trace (os m) ++ [delete_Connection c]
  end /\
  (gettid (os m) = _threadId (srv m) ->
   returned (Server_destructor m) = true).
Proof.
  destruct (decide (gettid (os m) = _threadId (srv m))) as [Htid|Htid].
  - destruct (Server_destructor_in_order m Htid) as (w' & -> & Htrace).
    cbn. split; [|done]. split; [done|].
    split; [apply NoDup_keys_of_entries|].
    split; [intros c; by rewrite elem_of_keys_of_entries|].
    split; [|done].
    intros c Hc. apply deleted_in_deletion_calls.
    by apply elem_of_keys_of_entries.
  - split; [|done].
    destruct (Server_destructor_foreign_thread m Htid)
      as [(Hempty & w' & -> & Htrace)|(c & w' & -> & Htrace)]; cbn.
    + split.
      { rewrite Htrace, Hempty. unfold entries.
        by rewrite map_to_list_empty. }
      split; [apply NoDup_keys_of_entries|].
      split; [intros c; by rewrite elem_of_keys_of_entries|].
      split; [|done].
      intros c. rewrite Hempty, lookup_empty. by intros [? ?].
    + split; [done|]. by exists c.
Qed.

(** ** Runnables *)

Lemma run_ids_app (l k : list Call) : run_ids (l ++ k) = run_ids l ++ run_ids k.
Proof. apply omap_app. Qed.

Lemma pending_work_app (q k : list (option Runnable)) :
  pending_work (q ++ k) = (pending_work q + pending_work k)%nat.
Proof. unfold pending_work. by rewrite List.map_app, list_sum_app. Qed.

Lemma work_unfold (r : Runnable) :
  work r = S (pending_work (runnable_schedules r)).
Proof. by destruct r. Qed.

Lemma no_null_app (q k : list (option Runnable)) :
  no_null (q ++ k) = no_null q && no_null k.
Proof. apply forallb_app. Qed.

Lemma never_null_unfold (r : Runnable) :
  never_null r = no_null (runnable_schedules r).
Proof. by destruct r. Qed.

Lemma schedule_spec (r : option Runnable) (m : Machine) :
  exists m' writes,
    schedule r m = Returns tt m' /\
    _pendingRunnables (srv m') = _pendingRunnables (srv m) ++ [r] /\
    trace (os m') = trace (os m) ++ writes /\
    run_ids writes = [].
Proof.
  unfold schedule. run. destruct (_pipes1 (srv m) =? -1); cbn.
  - exists {| srv := set_pendingRunnables (_pendingRunnables (srv m) ++ [r])
                       (srv m); os := os m |}, [].
    by rewrite app_nil_r.
  - by eexists _, [_].
Qed.

Lemma scheduleAll_spec (rs : list (option Runnable)) (m : Machine) :
  exists m' writes,
    scheduleAll rs m = Returns tt m' /\
    _pendingRunnables (srv m') = _pendingRunnables (srv m) ++ rs /\
    trace (os m') = trace (os m) ++ writes /\
    run_ids writes = [].
Proof.
  revert m. induction rs as [|r rs IH]; intros m.
  - exists m, []. by rewrite !app_nil_r.
  - cbn [scheduleAll].
    destruct (schedule_spec r m) as (m1 & w1 & Hrun & Hq & Ht & Hids).
    destruct (IH m1) as (m2 & w2 & Hrun2 & Hq2 & Ht2 & Hids2).
    exists m2, (w1 ++ w2). unfold mbind, M_bind, bind. rewrite Hrun.
    split; [done|]. rewrite Hq2, Hq, Ht2, Ht, run_ids_app, Hids, Hids2.
    by rewrite <- !app_assoc.
Qed.

Lemma run_spec (r : Runnable) (m : Machine) :
  exists m' writes,
    run r m = Returns tt m' /\
    _pendingRunnables (srv m') =
      _pendingRunnables (srv m) ++ runnable_schedules r /\
    trace (os m') =
      trace (os m) ++ Runnable_run (runnable_id r) :: writes /\
    run_ids writes = [].
Proof.
  unfold run, emit, modify_os, mbind, M_bind, bind.
  match goal with |- context [scheduleAll ?rs ?m1] =>
    destruct (scheduleAll_spec rs m1) as (m2 & w2 & -> & Hq & Ht & Hids)
  end.
  exists m2, w2. split; [done|]. cbn in *.
  by rewrite Hq, Ht, <- app_assoc.
Qed.

Lemma popNextRunnable_spec (m : Machine) :
  popNextRunnable m =
    match _pendingRunnables (srv m) with
    | [] => Returns None m
    | front :: rest =>
        Returns front
          {| srv := set_pendingRunnables rest (srv m); os := os m |}
    end.
Proof.
  unfold popNextRunnable. rewrite bind_get_srv.
  by destruct (_pendingRunnables (srv m)).
Qed.

(** With enough fuel the loop of [processEventQueue] returns; the runnables
    ahead of the first null runnable of the queue ran first, in the order
    of the queue; and a queue without null runnables is empty at the
    end. *)
Lemma runPending_spec (fuel : nat) (m : Machine)
    (rs : list Runnable) (rest : list (option Runnable)) :
  _pendingRunnables (srv m) = (Some <$> rs) ++ rest ->
  (pending_work (_pendingRunnables (srv m)) < fuel)%nat ->
  exists m' ran more,
    runPending fuel m = Returns tt m' /\
    trace (os m') = trace (os m) ++ ran /\
    run_ids ran = (runnable_id <$> rs) ++ more /\
    (no_null (_pendingRunnables (srv m)) = true ->
     _pendingRunnables (srv m') = []).
Proof.
  revert m rs rest.
  induction fuel as [|fuel IH]; intros m rs rest Hqueue Hfuel; [lia|].
  cbn [runPending]. unfold mbind at 1, M_bind at 1, bind at 1.
  rewrite popNextRunnable_spec.
  destruct (_pendingRunnables (srv m)) as [|[r|] q] eqn:Hq.
  - destruct rs; [|done]. exists m, [], [].
    by rewrite app_nil_r.
  - unfold mbind, M_bind, bind.
    match goal with |- context [run r ?m1] =>
      destruct (run_spec r m1) as (m2 & w2 & -> & Hq2 & Ht2 & Hids2);
      cbn in Hq2, Ht2
    end.
    assert (pending_work (_pendingRunnables (srv m2)) < fuel)%nat as Hfuel2.
    { rewrite Hq2, pending_work_app.
      change (pending_work (Some r :: q))
        with (work r + pending_work q)%nat in Hfuel.
      rewrite work_unfold in Hfuel. lia. }
    assert (exists rs', rs = [] /\ rs' = [] \/ rs = r :: rs') as (rs' & Hrs).
    { destruct rs as [|r0 rs']; [exists nil; by left|].
      exists rs'. right. cbn in Hqueue. congruence. }
    assert (exists rest', _pendingRunnables (srv m2) = (Some <$> rs') ++ rest')
      as (rest' & Hqueue2).
    { destruct Hrs as [[-> ->] | ->]; [by eexists|].
      cbn in Hqueue. injection Hqueue as ->.
      exists (rest ++ runnable_schedules r).
      by rewrite Hq2, app_assoc. }
    destruct (IH m2 rs' rest' Hqueue2 Hfuel2)
      as (m3 & ran & more & -> & Ht3 & Hids3 & Hempty).
    exists m3, (Runnable_run (runnable_id r) :: w2 ++ ran).
    exists (if rs is [] then runnable_id r :: more else more).
    split; [done|]. split; [by rewrite Ht3, Ht2, <- app_assoc|]. split.
    + change (Runnable_run (runnable_id r) :: w2 ++ ran)
        with ([Runnable_run (runnable_id r)] ++ w2 ++ ran).
      rewrite !run_ids_app, Hids2, Hids3. cbn.
      by destruct Hrs as [[-> ->] | ->].
    + intros Hnn. apply Hempty. rewrite Hq2, no_null_app.
      change (no_null (Some r :: q)) with (never_null r && no_null q) in Hnn.
      apply andb_true_iff in Hnn as [Hr Hnn].
      by rewrite Hnn, <- never_null_unfold, Hr.
  - destruct rs; [|done]. eexists _, [], []. split; [reflexivity|].
    cbn. by rewrite app_nil_r.
Qed.

(** The loop of [processEventQueue] serves the queue first-in first-out. *)
Lemma runPending_run_order (fuel : nat) (m : Machine) :
  (pending_work (_pendingRunnables (srv m)) < fuel)%nat ->
  exists m' ran,
    runPending fuel m = Returns tt m' /\
    trace (os m') = trace (os m) ++ ran /\
    run_ids ran = run_order fuel (_pendingRunnables (srv m)).
Proof.
  revert m. induction fuel as [|fuel IH]; intros m Hfuel; [lia|].
  cbn [runPending run_order]. unfold mbind at 1, M_bind at 1, bind at 1.
  rewrite popNextRunnable_spec.
  destruct (_pendingRunnables (srv m)) as [|[r|] q] eqn:Hq.
  - exists m, []. by rewrite app_nil_r.
  - unfold mbind, M_bind, bind.
    match goal with |- context [run r ?m1] =>
      destruct (run_spec r m1) as (m2 & w2 & -> & Hq2 & Ht2 & Hids2);
      cbn in Hq2, Ht2
    end.
    destruct (IH m2) as (m3 & ran & -> & Ht3 & Hids3).
    { rewrite Hq2, pending_work_app.
      change (pending_work (Some r :: q))
        with (work r + pending_work q)%nat in Hfuel.
      rewrite work_unfold in Hfuel. lia. }
    exists m3, (Runnable_run (runnable_id r) :: w2 ++ ran).
    split; [done|]. split; [by rewrite Ht3, Ht2, <- app_assoc|].
    change (Runnable_run (runnable_id r) :: w2 ++ ran)
      with ([Runnable_run (runnable_id r)] ++ w2 ++ ran).
    rewrite !run_ids_app, Hids2, Hids3, Hq2. by cbn.
  - exists {| srv := set_pendingRunnables q (srv m); os := os m |}, [].
    by rewrite app_nil_r.
Qed.

Lemma queued_tasks_app (q k : list (option Runnable)) :
  queued_tasks (q ++ k) = queued_tasks q ++ queued_tasks k.
Proof. unfold queued_tasks. apply flat_map_app. Qed.

Lemma tasks_unfold (r : Runnable) :
  tasks r = runnable_id r :: queued_tasks (runnable_schedules r).
Proof. by destruct r. Qed.

(** A queue without null runnables is served to the end: every runnable
    of the queue, and every runnable they schedule, is served once. *)
Lemma run_order_tasks (fuel : nat) (q : list (option Runnable)) :
  no_null q = true ->
  (pending_work q < fuel)%nat ->
  run_order fuel q ≡ₚ queued_tasks q.
Proof.
  revert q. induction fuel as [|fuel IH]; intros q Hnn Hfuel; [lia|].
  destruct q as [|[r|] q]; [done| |done].
  change (no_null (Some r :: q)) with (never_null r && no_null q) in Hnn.
  apply andb_true_iff in Hnn as [Hr Hnn].
  change (pending_work (Some r :: q))
    with (work r + pending_work q)%nat in Hfuel.
  rewrite work_unfold in Hfuel.
  cbn [run_order]. rewrite IH.
  - change (queued_tasks (Some r :: q)) with (tasks r ++ queued_tasks q).
    rewrite queued_tasks_app, tasks_unfold. cbn.
    apply Permutation_skip, Permutation_app_comm.
  - by rewrite no_null_app, Hnn, <- never_null_unfold, Hr.
  - rewrite pending_work_app. lia.
Qed.

(** ** What happens before and after [epoll_wait] *)

Global Instance no_wait_preorder : PreOrder no_wait.
Proof.
  split.
  - intros m. split; [|done]. exists nil. by rewrite app_nil_r.
  - intros m1 m2 m3 [(c1 & H1 & Hc1) [? ?]] [(c2 & H2 & Hc2) [? ?]].
    split; [|split; congruence].
    exists (c1 ++ c2). rewrite H2, H1, app_assoc, forallb_app, Hc1, Hc2.
    done.
Qed.

Ltac solve_no_wait :=
  split; [first [ exists nil; by rewrite app_nil_r
                | by eexists (cons _ nil) ]
         | by cbn ].

Ltac solve_trace_grows :=
  first [ exists nil; by rewrite app_nil_r
        | by eexists (cons _ nil) ].

Ltac preserves_reactor_step :=
  first
    [ preserves_step
    | progress unfold run, handleAccept, read, epoll_wait, routeEvent,
        reapLameConnections, processEventQueue ].

Lemma scheduleAll_no_wait rs : preserves no_wait (scheduleAll rs).
Proof.
  induction rs as [|r rs IH]; cbn [scheduleAll];
    repeat first [apply IH | preserves_step]; solve_no_wait.
Qed.

Lemma runPending_no_wait fuel : preserves no_wait (runPending fuel).
Proof.
  induction fuel as [|fuel IH]; cbn [runPending];
    repeat first [apply IH | apply scheduleAll_no_wait
                 | preserves_reactor_step];
    solve_no_wait.
Qed.

Lemma deleteEach_no_wait l : preserves no_wait (deleteEach l).
Proof.
  induction l as [|c l IH]; cbn [deleteEach];
    repeat first [apply IH | preserves_step]; solve_no_wait.
Qed.

Lemma reapLameConnections_no_wait : preserves no_wait reapLameConnections.
Proof.
  repeat first [apply deleteEach_no_wait | preserves_reactor_step];
    solve_no_wait.
Qed.

Lemma reapLameConnections_reactor_thread (m : Machine) :
  gettid (os m) = _threadId (srv m) ->
  exists registry w',
    reapLameConnections m =
      Returns tt {| srv := set_connections registry (srv m); os := w' |}.
Proof.
  intros Htid. unfold reapLameConnections. rewrite bind_time, bind_get_srv.
  destruct (_nextDeadConnectionCheck (srv m) <=? clock (os m)).
  - rewrite bind_get_os.
    match goal with |- context [deleteEach ?l m] =>
      destruct (deleteEach_reactor_thread l m Htid) as (w' & -> & _)
    end.
    by eexists _, _.
  - exists (_connections (srv m)), (os m).
    by rewrite set_connections_same.
Qed.

Lemma run_ids_deletions (s : Server) (w : World) (l : list positive) :
  run_ids (flat_map (deletion_calls s w) l) = [].
Proof.
  induction l as [|c l IH]; [done|].
  cbn [flat_map]. by rewrite run_ids_app, IH.
Qed.

(** The scan for lame connections runs no runnable. *)
Lemma reapLameConnections_runs_nothing (m : Machine) :
  gettid (os m) = _threadId (srv m) ->
  exists registry w' calls,
    reapLameConnections m =
      Returns tt {| srv := set_connections registry (srv m); os := w' |} /\
    trace w' = trace (os m) ++ calls /\
    run_ids calls = [].
Proof.
  intros Htid. unfold reapLameConnections. rewrite bind_time, bind_get_srv.
  destruct (_nextDeadConnectionCheck (srv m) <=? clock (os m)).
  - rewrite bind_get_os.
    match goal with |- context [deleteEach ?l m] =>
      destruct (deleteEach_reactor_thread l m Htid) as (w' & -> & Htrace & _)
    end.
    eexists _, _, _. split; [reflexivity|]. split; [exact Htrace|].
    apply run_ids_deletions.
  - exists (_connections (srv m)), (os m), [].
    by rewrite set_connections_same, app_nil_r.
Qed.

Section PollWait.

Context {E : Errno}.

Lemma drainWakePipe_trace_grows fuel :
  preserves trace_grows (drainWakePipe fuel).
Proof.
  induction fuel as [|fuel IH]; cbn [drainWakePipe];
    repeat first [apply IH | preserves_reactor_step]; solve_trace_grows.
Qed.

Lemma routeEvent_trace_grows event toBeDeleted :
  preserves trace_grows (routeEvent event toBeDeleted).
Proof.
  destruct event as [[| |c] events]; unfold routeEvent;
    repeat first [apply drainWakePipe_trace_grows | preserves_reactor_step];
    solve_trace_grows.
Qed.

Lemma routeEvents_trace_grows events toBeDeleted :
  preserves trace_grows (routeEvents events toBeDeleted).
Proof.
  revert toBeDeleted.
  induction events as [|event events IH]; intros toBeDeleted;
    cbn [routeEvents].
  - apply preserves_ret, _.
  - apply preserves_bind; [apply _|apply routeEvent_trace_grows|].
    intros [[] ?]; [apply IH|apply preserves_ret, _].
Qed.

Lemma deleteQueued_trace_grows toBeDeleted :
  preserves trace_grows (deleteQueued toBeDeleted).
Proof.
  induction toBeDeleted as [|c l IH]; cbn [deleteQueued];
    repeat first [apply IH | preserves_step]; solve_trace_grows.
Qed.

(** What [serveOnce] does once [processEventQueue] has returned. *)
Lemma poll_wait_then_grows (m : Machine) (k : M Flow) :
  k = (s ← get_srv;
       '(numEvents, events) ←
         epoll_wait (_epollFd s) maxEvents EpollTimeoutMillis;
       if numEvents =? -1 then
         w ← get_os;
         if errno w =? EINTR then mret Continue else mret Return
       else
         toBeDeleted ← routeEvents events [];
         deleteQueued toBeDeleted;;
         mret Continue) ->
  exists after,
    trace (os (final (k m))) =
      trace (os m) ++
      sys_epoll_wait (_epollFd (srv m)) maxEvents EpollTimeoutMillis :: after.
Proof.
  intros ->. rewrite bind_get_srv.
  match goal with |- context [(?f ≫= ?k) m] =>
    destruct (bind_then
                (fun m m' : Machine =>
                   trace (os m') =
                     trace (os m) ++
                     [sys_epoll_wait (_epollFd (srv m)) maxEvents
                        EpollTimeoutMillis])
                trace_grows f k m)
      as (m1 & Hwait & [after Hafter])
  end.
  - unfold epoll_wait. run. by repeat case_match.
  - intros [numEvents events].
    repeat first [ apply routeEvents_trace_grows
                 | apply deleteQueued_trace_grows
                 | preserves_step ].
  - exists after. by rewrite Hafter, Hwait, <- app_assoc.
Qed.

(** C6, as the code has it.  On the reactor thread an iteration of the
    loop of [serve] first runs [processEventQueue], which returns, and only
    then calls [epoll_wait].  Before that call the loop has run the
    runnables in first-in first-out order, each runnable's own schedules
    joining the back of the queue, up to the first null runnable: the
    runnables queued ahead of it ran first, in the order of the queue.
    When the queue holds no null runnable, and the runnables schedule
    none, every queued runnable and every runnable they schedule has run,
    each once, and the queue is empty when [epoll_wait] is called. *)
Theorem tasks_run_before_poll_wait
    (m : Machine) (rs : list Runnable) (rest : list (option Runnable)) :
  gettid (os m) = _threadId (srv m) ->
  _pendingRunnables (srv m) = (Some <$> rs) ++ rest ->
  exists m1 ran more after,
    processEventQueue m = Returns tt m1 /\
    trace (os m1) = trace (os m) ++ ran /\
    forallb (fun c => negb (is_wait c)) ran = true /\
    run_ids ran =
      run_order (S (pending_work (_pendingRunnables (srv m))))
        (_pendingRunnables (srv m)) /\
    run_ids ran = (runnable_id <$> rs) ++ more /\
    (no_null (_pendingRunnables (srv m)) = true ->
     _pendingRunnables (srv m1) = [] /\
     run_ids ran ≡ₚ queued_tasks (_pendingRunnables (srv m))) /\
    trace (os (final (serveOnce m))) =
      trace (os m1) ++
      sys_epoll_wait (_epollFd (srv m1)) maxEvents EpollTimeoutMillis
      :: after.
Proof.
  intros Htid Hqueue.
  destruct (runPending_spec (S (pending_work (_pendingRunnables (srv m)))) m
              rs rest Hqueue)
    as (m1 & ran & more & Hrun & Htrace & Hids & Hempty); [lia|].
  destruct (runPending_run_order
              (S (pending_work (_pendingRunnables (srv m)))) m)
    as (m1' & ran' & Hrun' & Htrace' & Horder); [lia|].
  rewrite Hrun in Hrun'. injection Hrun' as <-.
  assert (ran' = ran) as ->.
  { rewrite Htrace in Htrace'. by apply app_inv_head in Htrace'. }
  clear Htrace'.
  pose proof (runPending_no_wait
                (S (pending_work (_pendingRunnables (srv m)))) m) as Hframe.
  rewrite Hrun in Hframe. cbn [final] in Hframe.
  destruct Hframe as [(ran' & Htrace' & Hquiet) [Hgettid HthreadId]].
  assert (ran' = ran) as ->.
  { rewrite Htrace in Htrace'. by apply app_inv_head in Htrace'. }
  assert (gettid (os m1) = _threadId (srv m1)) as Htid1 by congruence.
  destruct (reapLameConnections_runs_nothing m1 Htid1)
    as (registry & w2 & reaped & Hreap & Htrace2 & Hnone).
  pose proof (reapLameConnections_no_wait m1) as Hframe.
  rewrite Hreap in Hframe. cbn [final] in Hframe.
  destruct Hframe as [(reaped' & Htrace2' & Hquiet2) _]. cbn in Htrace2'.
  assert (reaped' = reaped) as ->.
  { rewrite Htrace2 in Htrace2'. by apply app_inv_head in Htrace2'. }
  assert (processEventQueue m =
            Returns tt {| srv := set_connections registry (srv m1);
                          os := w2 |}) as Hpeq.
  { unfold processEventQueue. rewrite bind_get_srv.
    unfold mbind, M_bind, bind. by rewrite Hrun, Hreap. }
  unfold serveOnce. unfold mbind at 1, M_bind at 1, bind at 1.
  rewrite Hpeq.
  match goal with |- context [final (?k ?m2)] =>
    destruct (poll_wait_then_grows m2 k eq_refl) as (after & Hafter)
  end.
  eexists _, (ran ++ reaped), more, after.
  split; [reflexivity|]. cbn [srv os].
  split; [by rewrite Htrace2, Htrace, app_assoc|].
  split; [by rewrite forallb_app, Hquiet, Hquiet2|].
  rewrite run_ids_app, Hnone, app_nil_r.
  split; [exact Horder|]. split; [exact Hids|].
  split; [|exact Hafter].
  intros Hnn. split; [by apply Hempty|].
  rewrite Horder. apply run_order_tasks; [done|lia].
Qed.

End PollWait.

(** C6 as stated fails: on [null_then_task] runnable 7 is in the queue
    behind a null runnable when the iteration starts; the iteration calls
    [epoll_wait] without having run it, and it is still in the queue
    afterwards. *)
Lemma task_behind_null_waits_for_next_iteration :
  let m' := final (@serveOnce linux null_then_task) in
  Some (Task 7 []) ∈ _pendingRunnables (srv null_then_task) /\
  trace (os m') = [sys_epoll_wait 4 maxEvents EpollTimeoutMillis] /\
  run_ids (trace (os m')) = [] /\
  _pendingRunnables (srv m') = [Some (Task 7 [])].
Proof.
  split; [apply list_elem_of_further, list_elem_of_here|].
  vm_compute. done.
Qed.

(** * [serve] from start to end *)

(** On [fresh_start], [serve] sets up its descriptors, accepts the peer,
    services a writable and readable event, survives an interrupted wait,
    deletes the connection on hang-up and returns when the listening socket
    reports an error. *)
Example serve_fresh_start :
  match @serve linux 8080 10 fresh_start with
  | Returns finished m =>
      finished = true /\
      _terminate (srv m) = true /\
      _connections (srv m) = ∅ /\
      trace (os m) =
        [sys_socket; sys_ioctl_FIONBIO 3; sys_setsockopt_SO_REUSEADDR 3;
         sys_bind 3 8080; sys_listen 3 5; sys_epoll_create; sys_pipe;
         sys_ioctl_FIONBIO 5; sys_ioctl_FIONBIO 6;
         sys_epoll_ctl 4 EPOLL_CTL_ADD 3 EPOLLIN ThisServer;
         sys_epoll_ctl 4 EPOLL_CTL_ADD 5 EPOLLIN WakePipe;
         sys_epoll_wait 4 256 500; sys_accept 3;
         sys_setsockopt_SO_LINGER 7 {| l_onoff := true; l_linger := 500 |};
         sys_ioctl_FIONBIO 7; sys_setsockopt_SO_REUSEADDR 7;
         new_Connection 1 7;
         sys_epoll_ctl 4 EPOLL_CTL_ADD 7 EPOLLIN (ConnectionPtr 1);
         sys_epoll_wait 4 256 500;
         handleDataReadyForWrite 1; handleDataReadyForRead 1;
         sys_epoll_wait 4 256 500;
         sys_epoll_wait 4 256 500;
         delete_Connection 1;
         sys_epoll_ctl 4 EPOLL_CTL_DEL 7 0 (ConnectionPtr 1);
         sys_close 7;
         sys_epoll_wait 4 256 500]
  | Throws _ => False
  end.
Proof. vm_compute. done. Qed.

(** ** The loop of [serve] runs on the recorded thread *)

Global Instance thread_kept_preorder : PreOrder thread_kept.
Proof.
  split; [by intros m|].
  intros m1 m2 m3 [? ?] [? ?]. split; congruence.
Qed.

Lemma no_wait_thread_kept (m m' : Machine) : no_wait m m' -> thread_kept m m'.
Proof. by intros [_ ?]. Qed.

Section RecordedThread.

Context {E : Errno}.

Ltac solve_thread_kept := by split.

Lemma scheduleAll_thread_kept rs : preserves thread_kept (scheduleAll rs).
Proof. intros m. apply no_wait_thread_kept, scheduleAll_no_wait. Qed.

Lemma processEventQueue_thread_kept : preserves thread_kept processEventQueue.
Proof.
  unfold processEventQueue.
  apply preserves_bind; [apply _|apply preserves_get_srv, _|intros s].
  apply preserves_bind; [apply _| |intros _].
  - intros m. apply no_wait_thread_kept, runPending_no_wait.
  - intros m. apply no_wait_thread_kept, reapLameConnections_no_wait.
Qed.

Lemma drainWakePipe_thread_kept fuel :
  preserves thread_kept (drainWakePipe fuel).
Proof.
  induction fuel as [|fuel IH]; cbn [drainWakePipe];
    repeat first [apply IH | preserves_reactor_step]; solve_thread_kept.
Qed.

Lemma routeEvent_thread_kept event toBeDeleted :
  preserves thread_kept (routeEvent event toBeDeleted).
Proof.
  destruct event as [[| |c] events]; unfold routeEvent;
    repeat first [apply drainWakePipe_thread_kept | preserves_reactor_step];
    solve_thread_kept.
Qed.

Lemma routeEvents_thread_kept events toBeDeleted :
  preserves thread_kept (routeEvents events toBeDeleted).
Proof.
  revert toBeDeleted.
  induction events as [|event events IH]; intros toBeDeleted;
    cbn [routeEvents].
  - apply preserves_ret, _.
  - apply preserves_bind; [apply _|apply routeEvent_thread_kept|].
    intros [[] ?]; [apply IH|apply preserves_ret, _].
Qed.

Lemma deleteQueued_thread_kept toBeDeleted :
  preserves thread_kept (deleteQueued toBeDeleted).
Proof.
  induction toBeDeleted as [|c l IH]; cbn [deleteQueued];
    repeat first [apply IH | preserves_step]; solve_thread_kept.
Qed.

Lemma serveOnce_thread_kept : preserves thread_kept serveOnce.
Proof.
  unfold serveOnce.
  repeat first [ apply processEventQueue_thread_kept
               | apply routeEvents_thread_kept
               | apply deleteQueued_thread_kept
               | preserves_step
               | progress unfold epoll_wait ];
    solve_thread_kept.
Qed.

Lemma serveLoop_thread_kept fuel : preserves thread_kept (serveLoop fuel).
Proof.
  induction fuel as [|fuel IH]; cbn [serveLoop];
    repeat first [apply IH | apply serveOnce_thread_kept | preserves_step].
Qed.

(** X16.  [serve] records the running thread on entry and nothing changes
    the record: whenever [serve] stops, and so at every iteration of its
    loop, [_threadId] is the thread that runs it. *)
Lemma serve_runs_on_recorded_thread (port : Z) (fuel : nat) (m : Machine) :
  let m' := final (serve port fuel m) in
  _threadId (srv m') = gettid (os m) /\ gettid (os m') = gettid (os m).
Proof.
  unfold serve. rewrite bind_get_os.
  match goal with |- context [(modify_srv ?g ≫= ?k) m] =>
    change ((modify_srv g ≫= k) m)
      with (k tt {| srv := g (srv m); os := os m |});
    assert (preserves thread_kept (k tt)) as Hkept
  end.
  { repeat first [apply serveLoop_thread_kept | preserves_step];
      solve_thread_kept. }
  match goal with |- context [final (?k ?m1)] =>
    destruct (Hkept m1) as [Hgettid HthreadId]
  end.
  cbv zeta. by rewrite HthreadId, Hgettid.
Qed.

End RecordedThread.

(** * The loops do not depend on their fuel *)

(** The model gives each unbounded loop of the code as many rounds as a
    measure of the machine allows.  More rounds change nothing: the loops
    end by their own test, never by the bound. *)

Lemma runPending_unfold (fuel : nat) (m : Machine) :
  runPending (S fuel) m =
    match popNextRunnable m with
    | Returns None m1 => Returns tt m1
    | Returns (Some r) m1 => (run r;; runPending fuel) m1
    | Throws m1 => Throws m1
    end.
Proof.
  cbn [runPending]. unfold mbind at 1, M_bind at 1, bind at 1.
  by destruct (popNextRunnable m) as [[r|] m1|m1].
Qed.

Lemma runPending_fuel (fuel fuel' : nat) (m : Machine) :
  (pending_work (_pendingRunnables (srv m)) < fuel)%nat ->
  (pending_work (_pendingRunnables (srv m)) < fuel')%nat ->
  runPending fuel m = runPending fuel' m.
Proof.
  revert fuel' m.
  induction fuel as [|fuel IH]; intros [|fuel'] m Hfuel Hfuel'; try lia.
  rewrite !runPending_unfold, popNextRunnable_spec.
  destruct (_pendingRunnables (srv m)) as [|[r|] q] eqn:Hq; try done.
  unfold mbind, M_bind, bind.
  match goal with |- context [run r ?m1] =>
    destruct (run_spec r m1) as (m2 & w2 & -> & Hq2 & _); cbn in Hq2
  end.
  change (pending_work (Some r :: q))
    with (work r + pending_work q)%nat in Hfuel, Hfuel'.
  rewrite work_unfold in Hfuel, Hfuel'.
  apply IH; rewrite Hq2, pending_work_app; lia.
Qed.

Lemma deleteConnection_returns (c : positive) (m m' : Machine) :
  deleteConnection c m = Returns tt m' ->
  _connections (srv m') = base.delete c (_connections (srv m)).
Proof.
  destruct (decide (gettid (os m) = _threadId (srv m))) as [Htid|Htid].
  - destruct (deleteConnection_reactor_thread c m Htid) as (w' & -> & _).
    by intros [= <-].
  - by destruct (deleteConnection_foreign_thread c m Htid) as (w' & -> & _).
Qed.

Lemma deleteAllConnections_fuel (fuel fuel' : nat) (m : Machine) :
  (size (_connections (srv m)) < fuel)%nat ->
  (size (_connections (srv m)) < fuel')%nat ->
  deleteAllConnections fuel m = deleteAllConnections fuel' m.
Proof.
  revert fuel' m.
  induction fuel as [|fuel IH]; intros [|fuel'] m Hfuel Hfuel'; try lia.
  cbn [deleteAllConnections]. rewrite !bind_get_srv.
  destruct (begin (_connections (srv m))) as [c|] eqn:Hbegin; [|done].
  apply begin_Some in Hbegin.
  unfold mbind, M_bind, bind.
  destruct (deleteConnection c m) as [[] m1|m1] eqn:Hdelete; [|done].
  apply deleteConnection_returns in Hdelete.
  assert (size (_connections (srv m)) <> 0%nat).
  { intros Hzero%map_size_empty_iff.
    rewrite Hzero, lookup_empty in Hbegin. by destruct Hbegin. }
  apply IH; rewrite Hdelete, map_size_delete_Some by done; lia.
Qed.

Section PipeFuel.

Context {E : Errno}.

Lemma drainWakePipe_fuel (fuel fuel' : nat) (m : Machine) :
  (length (pipe_reads (os m)) < fuel)%nat ->
  (length (pipe_reads (os m)) < fuel')%nat ->
  drainWakePipe fuel m = drainWakePipe fuel' m.
Proof.
  revert fuel' m.
  induction fuel as [|fuel IH]; intros [|fuel'] m Hfuel Hfuel'; try lia.
  cbn [drainWakePipe]. unfold read. run.
  destruct (pipe_reads (os m)) as [|[n|e] rest] eqn:Hscript; run; try done.
  destruct (Z.eqb_spec (Z.of_N n) (-1)) as [|_]; [lia|]. cbn.
  apply IH; cbn; cbn in Hfuel, Hfuel'; lia.
Qed.

End PipeFuel.

(** * The theorems at sample machines *)

(** C2 at [woken], with the numbers of Linux: three reads, the last of
    which would block, and the terminate flag stays unset. *)
Lemma wake_pipe_drained_on_linux :
  @EAGAIN linux = @EWOULDBLOCK linux /\
  Z.land EPOLLIN (Z.lnot EPOLLIN) = 0 /\
  exists m',
    @routeEvent linux (WakePipe, EPOLLIN) [] woken = Returns (Next, []) m' /\
    trace (os m') = [sys_read 5; sys_read 5; sys_read 5] /\
    pipe_reads (os m') = [] /\
    _terminate (srv m') = false.
Proof.
  split; [reflexivity|]. split; [reflexivity|].
  exact (@wake_pipe_drained_until_would_block linux EPOLLIN [] woken
           eq_refl eq_refl).
Defined.

(** C3 as amended, at [listening]. *)
Lemma readable_listener_accepts_once :
  Z.land EPOLLIN (Z.lnot EPOLLIN) = 0 /\
  Z.land EPOLLIN EPOLLIN <> 0 /\
  let m' := final (@routeEvent linux (ThisServer, EPOLLIN) [] listening) in
  accept_count (trace (os m')) = 1%nat /\
  (backlog (os m') = backlog (os listening) \/
   backlog (os m') = tail (backlog (os listening))).
Proof.
  split; [reflexivity|]. split; [discriminate|].
  apply (@listening_socket_accepts_once linux EPOLLIN [] listening);
    [reflexivity|discriminate].
Defined.

(** C4 as amended, at [foreign_thread]. *)
Lemma remove_throws_accept_inserts_on_foreign_thread :
  gettid (os foreign_thread) <> _threadId (srv foreign_thread) /\
  remove 1 foreign_thread = Throws foreign_thread /\
  exists m',
    handleAccept foreign_thread = Returns tt m' /\
    _connections (srv m') = map_insert 1 100 ∅.
Proof.
  split; [discriminate|]. split.
  - apply (proj1 (remove_checks_thread_accept_does_not 1 foreign_thread)).
    discriminate.
  - apply (proj2 (proj2
             (remove_checks_thread_accept_does_not 1 foreign_thread))
             {| sin_addr := 167772161; sin_port := 40000 |}
             [ {| sin_addr := 167772162; sin_port := 40001 |} ]
             7 [8; 9]);
      [reflexivity|reflexivity|discriminate|reflexivity|reflexivity].
Defined.

(** C5 at [three_connections]: connection 1 is lame, connection 2 is too
    young and connection 3 has received bytes. *)
Lemma three_connections_reaped :
  gettid (os three_connections) = _threadId (srv three_connections) /\
  _nextDeadConnectionCheck (srv three_connections)
    <= clock (os three_connections) /\
  exists m',
    reapLameConnections three_connections = Returns tt m' /\
    _connections (srv m') !! 1%positive = None /\
    _connections (srv m') !! 2%positive = Some 95 /\
    _connections (srv m') !! 3%positive = Some 50.
Proof.
  split; [reflexivity|]. split; [discriminate|].
  destruct (lame_connections_reaped three_connections eq_refl)
    as [(m' & calls & Hrun & _ & Hall) _]; [discriminate|].
  exists m'. split; [exact Hrun|].
  split; [|split].
  - apply (proj1 (Hall 1%positive 80 eq_refl)).
    split; [reflexivity|discriminate].
  - apply (proj1 (proj2 (Hall 2%positive 95 eq_refl))).
    intros [_ Hage]. apply Hage. reflexivity.
  - apply (proj1 (proj2 (Hall 3%positive 50 eq_refl))).
    intros [Hbytes _]. discriminate Hbytes.
Defined.

(** C6 as amended, at [two_tasks]: runnable 3, which runnable 1 schedules,
    runs behind runnable 2. *)
Lemma two_tasks_run_before_poll_wait :
  gettid (os two_tasks) = _threadId (srv two_tasks) /\
  exists m1 ran,
    processEventQueue two_tasks = Returns tt m1 /\
    trace (os m1) = trace (os two_tasks) ++ ran /\
    run_ids ran = [1%nat; 2%nat; 3%nat] /\
    _pendingRunnables (srv m1) = [].
Proof.
  split; [reflexivity|].
  destruct (@tasks_run_before_poll_wait linux two_tasks
              [Task 1 [Some (Task 3 [])]; Task 2 []] [] eq_refl eq_refl)
    as (m1 & ran & more & after & Hrun & Htrace & _ & Horder & _ & Hempty
        & _).
  exists m1, ran. split; [exact Hrun|]. split; [exact Htrace|].
  split; [exact Horder|]. exact (proj1 (Hempty eq_refl)).
Defined.

(** C7 at [one_accepted], for the mask [EPOLLIN | EPOLLOUT]. *)
Lemma readable_and_writable_connection :
  exists m',
    @routeEvent linux (ConnectionPtr 1, Z.lor EPOLLIN EPOLLOUT) [] one_accepted
      = Returns (Next, []) m' /\
    srv m' = srv one_accepted /\
    trace (os m') =
      trace (os one_accepted) ++
      [handleDataReadyForWrite 1; handleDataReadyForRead 1].
Proof.
  apply (@writable_serviced_before_readable linux 1 (Z.lor EPOLLIN EPOLLOUT)
           [] one_accepted);
    [reflexivity|reflexivity|discriminate|discriminate].
Defined.

(** C8 at [three_connections], on the reactor thread: the connections 1,
    2 and 3 are deleted, and then the descriptors 3, 5, 6 and 4 are
    closed. *)
Lemma three_connections_shut_down :
  gettid (os three_connections) = _threadId (srv three_connections) /\
  returned (Server_destructor three_connections) = true /\
  trace (os (final (Server_destructor three_connections))) =
    [delete_Connection 1;
     sys_epoll_ctl 4 EPOLL_CTL_DEL 7 0 (ConnectionPtr 1); sys_close 7;
     delete_Connection 2;
     sys_epoll_ctl 4 EPOLL_CTL_DEL 8 0 (ConnectionPtr 2); sys_close 8;
     delete_Connection 3;
     sys_epoll_ctl 4 EPOLL_CTL_DEL 9 0 (ConnectionPtr 3); sys_close 9;
     sys_close 3; sys_close 5; sys_close 6; sys_close 4].
Proof.
  split; [reflexivity|].
  pose proof (connections_destroyed_before_resources_closed
                three_connections) as [Hcalls Hreturns].
  split; [exact (Hreturns eq_refl)|].
  destruct (Server_destructor three_connections) as [[] m'|m'].
  - cbv zeta in Hcalls. destruct Hcalls as [Htrace _].
    cbn [final]. rewrite Htrace. vm_compute. reflexivity.
  - specialize (Hreturns eq_refl). discriminate Hreturns.
Defined.

(** C9 at [one_accepted]. *)
Lemma accepted_connection_stays_readable :
  watched_for_read (os one_accepted) 7 = true /\
  watched_for_read (os (final (subscribeToWriteEvents 1 one_accepted))) 7
    = true /\
  watched_for_read (os (final (unsubscribeFromWriteEvents 1 one_accepted))) 7
    = true.
Proof.
  split; [reflexivity|].
  apply (proj2 (proj2 write_subscription_keeps_read_interest) 1%positive
           one_accepted).
  reflexivity.
Defined.

(** C10 as amended, at [with_body] and [without_body]. *)
Lemma content_with_and_without_body :
  PageRequest.contentLength with_body <> 0%N /\
  PageRequest._content with_body <> [] /\
  PageRequest.content with_body = PageRequest.element_of_content 0 /\
  PageRequest.deref with_body (PageRequest.content with_body)
    = Some Byte.x61 /\
  PageRequest.contentLength without_body = 0%N /\
  PageRequest.content without_body = PageRequest.NULL /\
  (PageRequest.content_evaluation without_body).2 = [].
Proof.
  split; [discriminate|]. split; [discriminate|].
  destruct (proj1 (proj2 (content_null_iff_empty with_body)))
    as (Hcontent & _ & Hderef & _); [discriminate|discriminate|].
  split; [exact Hcontent|]. split; [exact Hderef|].
  split; [reflexivity|].
  apply (proj1 (content_null_iff_empty without_body)). reflexivity.
Defined.

(** * More of [server.cpp] *)

(** ** Strings *)

Lemma string_app_nil_r (s : string) : s +:+ "" = s.
Proof.
  induction s as [|a s IH]; [done|].
  change (String a (s +:+ "") = String a s). by rewrite IH.
Qed.

Lemma string_app_assoc (s1 s2 s3 : string) :
  (s1 +:+ s2) +:+ s3 = s1 +:+ (s2 +:+ s3).
Proof.
  induction s1 as [|a s1 IH]; [done|].
  change (String a ((s1 +:+ s2) +:+ s3) = String a (s1 +:+ s2 +:+ s3)).
  by rewrite IH.
Qed.

(** ** [operator<<] for [EventBits] *)

Lemma concat_comma_before (name : string) (names : list string) :
  String.concat ", " (name :: names) = name +:+ comma_before names.
Proof.
  unfold comma_before. revert name.
  induction names as [|n names IH]; intros name.
  - by rewrite string_app_nil_r.
  - change (name +:+ ", " +:+ String.concat ", " (n :: names)
            = name +:+ String.concat "" (List.map (fun x => ", " +:+ x) (n :: names))).
    rewrite IH. f_equal.
    destruct names as [|n' names]; cbn [List.map String.concat].
    + by rewrite string_app_nil_r.
    + by rewrite string_app_assoc.
Qed.

(** Clearing a mask leaves the bits of a mask disjoint from it. *)
Lemma land_clear_disjoint (bits mask other : Z) :
  Z.land mask other = 0 ->
  Z.land (Z.land bits (Z.lnot mask)) other = Z.land bits other.
Proof.
  intros Hdisjoint. apply Z.bits_inj'. intros i Hi.
  rewrite !Z.land_spec, Z.lnot_spec by done.
  assert (Z.testbit (Z.land mask other) i = false) as Hbit
    by (rewrite Hdisjoint; apply Z.bits_0).
  rewrite Z.land_spec in Hbit.
  destruct (Z.testbit bits i), (Z.testbit mask i), (Z.testbit other i);
    done.
Qed.

(** Clearing a mask clears it. *)
Lemma land_clear_same (bits mask : Z) :
  Z.land (Z.land bits (Z.lnot mask)) mask = 0.
Proof.
  apply Z.bits_inj'. intros i Hi.
  rewrite !Z.land_spec, Z.lnot_spec, Z.bits_0 by done.
  by destruct (Z.testbit bits i), (Z.testbit mask i).
Qed.

(** A cleared mask stays cleared. *)
Lemma land_clear_stays (bits mask cleared : Z) :
  Z.land bits cleared = 0 ->
  Z.land (Z.land bits (Z.lnot mask)) cleared = 0.
Proof.
  intros Hcleared.
  rewrite <- Z.land_assoc, (Z.land_comm (Z.lnot mask)), Z.land_assoc.
  by rewrite Hcleared.
Qed.

Lemma set_names_cons (mask : Z) (name : string) (table : list (Z * string))
    (bits : Z) :
  set_names ((mask, name) :: table) bits =
    if nonzero (Z.land bits mask) then name :: set_names table bits
    else set_names table bits.
Proof. unfold set_names. cbn. by destruct (nonzero (Z.land bits mask)). Qed.

Lemma comma_before_cons (name : string) (names : list string) :
  comma_before (name :: names) = ", " +:+ name +:+ comma_before names.
Proof.
  unfold comma_before.
  destruct names as [|n names]; cbn [List.map String.concat].
  - by rewrite !string_app_nil_r.
  - by rewrite !string_app_assoc.
Qed.

Section DoBits.

Variable b_bits : Z.

Lemma do_bits_cons mask name table o bits :
  do_bits b_bits ((mask, name) :: table) (o, bits) =
    do_bits b_bits table
      (if nonzero (Z.land bits mask) then
         ((if negb (bits =? b_bits) then o +:+ ", " else o) +:+ name,
          Z.land bits (Z.lnot mask))
       else (o, bits)).
Proof. reflexivity. Qed.

Lemma Forall_clear_disjoint (bits mask : Z) (table : list (Z * string)) :
  Forall (fun other => Z.land mask other.1 = 0) table ->
  Forall (fun entry => Z.land bits entry.1 = Z.land b_bits entry.1) table ->
  Forall (fun entry =>
            Z.land (Z.land bits (Z.lnot mask)) entry.1
              = Z.land b_bits entry.1) table.
Proof.
  intros Hdisjoint Hsame. induction table as [|entry table IH];
    [constructor|].
  apply Forall_cons in Hdisjoint as [Hhead Hdisjoint].
  apply Forall_cons in Hsame as [Hentry Hsame].
  constructor; [|by apply IH].
  by rewrite land_clear_disjoint.
Qed.

(** Once a name is printed, [bits] differs from [b.bits] in a bit that
    stays cleared: every later name gets the separator. *)
Lemma do_bits_started (table : list (Z * string)) (o : string)
    (bits cleared : Z) :
  Z.land b_bits cleared <> 0 ->
  Z.land bits cleared = 0 ->
  disjoint_masks table ->
  Forall (fun entry => Z.land bits entry.1 = Z.land b_bits entry.1) table ->
  (do_bits b_bits table (o, bits)).1 = o +:+ comma_before (set_names table b_bits).
Proof.
  intros Hset. revert o bits.
  induction table as [|[mask name] table IH];
    intros o bits Hcleared Hdisjoint Hsame.
  - cbn. by rewrite string_app_nil_r.
  - destruct Hdisjoint as [Hhead Hdisjoint].
    apply Forall_cons in Hsame as [Hmask Hsame]. cbn in Hmask, Hhead.
    rewrite do_bits_cons, set_names_cons, Hmask.
    destruct (nonzero (Z.land b_bits mask)) eqn:Hbit; [|by apply IH].
    assert ((bits =? b_bits) = false) as ->.
    { apply Z.eqb_neq. intros ->. by rewrite Hcleared in Hset. }
    cbn [negb]. rewrite IH, comma_before_cons, !string_app_assoc;
      [done|by apply land_clear_stays|done|by apply Forall_clear_disjoint].
Qed.

(** Until a name is printed [bits] is [b.bits], and the first name gets no
    separator. *)
Lemma do_bits_fresh (table : list (Z * string)) (o : string) :
  disjoint_masks table ->
  (do_bits b_bits table (o, b_bits)).1
    = o +:+ String.concat ", " (set_names table b_bits).
Proof.
  revert o. induction table as [|[mask name] table IH]; intros o Hdisjoint.
  - cbn. by rewrite string_app_nil_r.
  - destruct Hdisjoint as [Hhead Hdisjoint]. cbn in Hhead.
    rewrite do_bits_cons, set_names_cons, Z.eqb_refl.
    destruct (nonzero (Z.land b_bits mask)) eqn:Hbit; [|by apply IH].
    cbn [negb].
    rewrite (do_bits_started table _ _ mask), concat_comma_before,
      string_app_assoc.
    + done.
    + unfold nonzero in Hbit. by destruct (Z.eqb_spec (Z.land b_bits mask) 0).
    + apply land_clear_same.
    + done.
    + apply Forall_clear_disjoint; [done|]. by apply Forall_true.
Qed.

End DoBits.

Lemma event_names_disjoint : disjoint_masks event_names.
Proof. cbn. repeat split; repeat constructor. Qed.

(** X1.  [o << EventBits(bits)] appends to the stream the names of the
    bits that are set, in the order of the source, separated by [", "]:
    no separator before the first name or after the last, and nothing for
    bits it has no name for. *)
Theorem print_EventBits_names (o : string) (bits : Z) :
  print_EventBits o bits
    = o +:+ String.concat ", " (set_names event_names bits).
Proof.
  rewrite <- (do_bits_fresh bits event_names o event_names_disjoint).
  reflexivity.
Qed.

Example print_EventBits_hangup_with_input :
  print_EventBits "Got epoll error event (" (Z.lor EPOLLIN EPOLLHUP)
    = "Got epoll error event (EPOLLIN, EPOLLHUP"
  /\ print_EventBits "" 0 = "".
Proof. split; reflexivity. Qed.

(** ** The handler map *)

(** X2.  After [addWebSocketHandler(endpoint, handler, allow)] the two
    lookups of that endpoint return [handler] and [allow], whatever was
    registered for it before, and the lookups of every other endpoint are
    as they were.  For an endpoint that was never registered they return a
    null handler and [false]. *)
Theorem handler_registered_then_found
    (endpoint : string) (h : HandlerPtr) (allow : bool)
    (handlers : gmap string HandlerEntry) :
  let handlers' := addWebSocketHandler endpoint h allow handlers in
  getWebSocketHandler endpoint handlers' = h /\
  isCrossOriginAllowed endpoint handlers' = allow /\
  (forall h0 allow0,
     addWebSocketHandler endpoint h allow
       (addWebSocketHandler endpoint h0 allow0 handlers) = handlers') /\
  (forall other, other <> endpoint ->
     getWebSocketHandler other handlers' = getWebSocketHandler other handlers /\
     isCrossOriginAllowed other handlers'
       = isCrossOriginAllowed other handlers) /\
  (forall unknown,
     handlers !! unknown = None ->
     getWebSocketHandler unknown handlers = None /\
     isCrossOriginAllowed unknown handlers = false).
Proof.
  unfold addWebSocketHandler, getWebSocketHandler, isCrossOriginAllowed.
  cbv zeta. rewrite lookup_insert_eq. cbn.
  split; [done|]. split; [done|]. split; [|split].
  - intros h0 allow0. apply insert_insert_eq.
  - intros other Hother. by rewrite lookup_insert_ne.
  - by intros unknown ->.
Qed.

(** ** The headers of a [PageRequest] *)

(** X3.  [getHeader] returns the empty string for a header the request does
    not have, so a header [getHeader] returns text for is one [hasHeader]
    reports; a header whose value is empty is reported by [hasHeader] and
    reads like a missing one. *)
Theorem getHeader_of_missing_header (r : PageRequest.t) (name : string) :
  (PageRequest.hasHeader r name = false ->
   PageRequest.getHeader r name = "") /\
  (PageRequest.getHeader r name <> "" ->
   PageRequest.hasHeader r name = true) /\
  (PageRequest._headers r !! name = Some "" ->
   PageRequest.hasHeader r name = true /\
   PageRequest.getHeader r name = "").
Proof.
  unfold PageRequest.hasHeader, PageRequest.getHeader.
  destruct (PageRequest._headers r !! name) as [value|] eqn:Hlookup.
  - rewrite bool_decide_eq_true_2 by by eexists.
    split; [done|]. split; [done|]. by intros [= ->].
  - rewrite bool_decide_eq_false_2 by by intros [? ?].
    split; [done|]. split; done.
Qed.

(** ** The connections queued for deletion *)

(** X4.  On the reactor thread, when the connections queued for deletion
    are registered and no connection is queued twice, the loop at
    server.cpp:249-259 deletes each of them, in order, and leaves the
    terminate flag and every other field alone. *)
Theorem queued_connections_deleted (toBeDeleted : list positive) (m : Machine) :
  gettid (os m) = _threadId (srv m) ->
  NoDup toBeDeleted ->
  (forall c, c ∈ toBeDeleted -> is_Some (_connections (srv m) !! c)) ->
  exists w',
    deleteQueued toBeDeleted m =
      Returns tt
        {| srv := set_connections
                    (erase_all toBeDeleted (_connections (srv m))) (srv m);
           os := w' |} /\
    trace w' =
      trace (os m) ++ flat_map (deletion_calls (srv m) (os m)) toBeDeleted /\
    gettid w' = gettid (os m) /\
    objects w' = objects (os m).
Proof.
  revert m. induction toBeDeleted as [|c l IH]; intros m Htid Hnodup Hknown.
  - exists (os m). cbn. rewrite app_nil_r. by rewrite set_connections_same.
  - cbn [deleteQueued]. rewrite bind_get_srv.
    destruct (Hknown c) as [t Hc]; [apply list_elem_of_here|]. rewrite Hc.
    destruct (deleteConnection_reactor_thread c m Htid)
      as (w1 & Hrun & Htrace & Hgettid & Hobjects & _).
    unfold mbind, M_bind, bind. rewrite Hrun.
    apply NoDup_cons in Hnodup as [Hfresh Hnodup].
    match goal with |- context [deleteQueued l ?m1] =>
      destruct (IH m1) as (w2 & -> & Htrace2 & Hgettid2 & Hobjects2)
    end.
    + by cbn; rewrite Hgettid.
    + done.
    + intros k Hk. cbn. rewrite lookup_delete_ne; [|by intros ->].
      apply Hknown. by apply list_elem_of_further.
    + cbn in *. exists w2. split; [reflexivity|].
      unfold deletion_calls in *. cbn in *.
      rewrite Htrace2, Htrace, Hgettid2, Hobjects2, Hobjects, Hgettid.
      by rewrite <- !app_assoc.
Qed.

(** X5.  On the reactor thread, the loop stops at the first queued
    connection that is not in the registry, be it unknown or queued a
    second time: the connections before it are deleted, the terminate
    flag is set, and the connections queued after it are left alone. *)
Theorem unknown_queued_connection_terminates
    (known : list positive) (c : positive) (rest : list positive)
    (m : Machine) :
  gettid (os m) = _threadId (srv m) ->
  NoDup known ->
  (forall k, k ∈ known -> is_Some (_connections (srv m) !! k)) ->
  _connections (srv m) !! c = None \/ c ∈ known ->
  exists w',
    deleteQueued (known ++ c :: rest) m =
      Returns tt
        {| srv := set_terminate true
                    (set_connections
                       (erase_all known (_connections (srv m))) (srv m));
           os := w' |} /\
    trace w' =
      trace (os m) ++ flat_map (deletion_calls (srv m) (os m)) known.
Proof.
  revert m. induction known as [|k l IH]; intros m Htid Hnodup Hknown Hc.
  - cbn [app deleteQueued]. rewrite bind_get_srv.
    destruct Hc as [Hc|Hc]; [|by apply elem_of_nil in Hc]. rewrite Hc.
    exists (os m). cbn. rewrite app_nil_r. split; [|done].
    by destruct m as [[] ?].
  - cbn [app deleteQueued]. rewrite bind_get_srv.
    destruct (Hknown k) as [t Hk]; [apply list_elem_of_here|]. rewrite Hk.
    destruct (deleteConnection_reactor_thread k m Htid)
      as (w1 & Hrun & Htrace & Hgettid & Hobjects & _).
    unfold mbind, M_bind, bind. rewrite Hrun.
    apply NoDup_cons in Hnodup as [Hfresh Hnodup].
    match goal with |- context [deleteQueued _ ?m1] =>
      destruct (IH m1) as (w2 & -> & Htrace2)
    end.
    + by cbn; rewrite Hgettid.
    + done.
    + intros k' Hk'. cbn. rewrite lookup_delete_ne; [|by intros ->].
      apply Hknown. by apply list_elem_of_further.
    + cbn. destruct (decide (c = k)) as [->|Hne].
      * left. apply lookup_delete_eq.
      * rewrite lookup_delete_ne by done.
        destruct Hc as [Hc|Hc]; [by left|right].
        apply elem_of_cons in Hc as [->|Hc]; done.
    + cbn in *. exists w2. split; [reflexivity|].
      unfold deletion_calls in *. cbn in *.
      rewrite Htrace2, Htrace, Hobjects. by rewrite <- !app_assoc.
Qed.

(** ** A batch of events *)

Lemma set_trace_same (w : World) : set_trace (trace w) w = w.
Proof. by destruct w. Qed.

Section Batch.

Context {E : Errno}.

Lemma routeEvent_connection (event : positive * Z)
    (toBeDeleted : list positive) (m : Machine) :
  routeEvent (ConnectionPtr event.1, event.2) toBeDeleted m =
    Returns (Next, toBeDeleted ++ queued_for_deletion [event])
      {| srv := srv m;
         os := set_trace (trace (os m) ++ handler_calls event) (os m) |}.
Proof.
  destruct event as [c events], m as [s w].
  unfold routeEvent, queued_for_deletion, handler_calls, hung_up.
  cbn [fst snd List.filter].
  destruct (nonzero (Z.land events (Z.lnot _))); cbn.
  { by rewrite app_nil_r, set_trace_same. }
  destruct (nonzero (Z.land events EPOLLHUP)); cbn.
  { by rewrite app_nil_r, set_trace_same. }
  rewrite !app_nil_r.
  destruct (nonzero (Z.land events EPOLLOUT)),
    (nonzero (Z.land events EPOLLIN)); run;
    rewrite ?app_nil_r, ?set_trace_same, <- ?app_assoc; reflexivity.
Qed.

Lemma routeEvents_connections_then (batch : list (positive * Z))
    (rest : list epoll_event) (toBeDeleted : list positive) (m : Machine) :
  routeEvents (connection_events batch ++ rest) toBeDeleted m =
    routeEvents rest (toBeDeleted ++ queued_for_deletion batch)
      {| srv := srv m;
         os := set_trace (trace (os m) ++ flat_map handler_calls batch)
                 (os m) |}.
Proof.
  revert toBeDeleted m.
  induction batch as [|event batch IH]; intros toBeDeleted m.
  - cbn [connection_events List.map app flat_map]. unfold queued_for_deletion.
    cbn. rewrite !app_nil_r, set_trace_same. by destruct m.
  - cbn [connection_events List.map app routeEvents].
    unfold mbind, M_bind, bind. rewrite routeEvent_connection.
    fold (connection_events batch). rewrite IH. cbn.
    f_equal.
    + unfold queued_for_deletion. cbn [List.filter].
      destruct (hung_up event.2); cbn; by rewrite <- ?app_assoc, ?app_nil_r.
    + by rewrite <- app_assoc.
Qed.

(** X6.  A batch of events that all belong to connections: [serve] calls
    the handlers in the order of the events, for each event the write
    handler before the read handler, and never for an event with an error
    bit or a hang-up, even when [EPOLLIN] is set; the connections of those
    events are queued for deletion, in order.  What a handler then does is
    in connection.cpp and no part of the statement. *)
Theorem connection_events_routed (batch : list (positive * Z))
    (toBeDeleted : list positive) (m : Machine) :
  exists m',
    routeEvents (connection_events batch) toBeDeleted m =
      Returns (toBeDeleted ++ queued_for_deletion batch) m' /\
    trace (os m') = trace (os m) ++ flat_map handler_calls batch.
Proof.
  rewrite <- (app_nil_r (connection_events batch)).
  rewrite routeEvents_connections_then. cbn [routeEvents].
  eexists. split; [reflexivity|]. done.
Qed.

(** X7.  An event on the listening socket or on the wake-up pipe with a
    bit other than [EPOLLIN] sets the terminate flag and ends the batch:
    the events after it are not looked at, so no connection of theirs is
    served or queued, although the connections queued before it are still
    handed to the deletion loop. *)
Theorem unexpected_event_ends_batch (batch : list (positive * Z))
    (data : Token) (events : Z) (later : list epoll_event)
    (toBeDeleted : list positive) (m : Machine) :
  data = ThisServer \/ data = WakePipe ->
  Z.land events (Z.lnot EPOLLIN) <> 0 ->
  routeEvents (connection_events batch ++ (data, events) :: later)
      toBeDeleted m =
    Returns (toBeDeleted ++ queued_for_deletion batch)
      {| srv := set_terminate true (srv m);
         os := set_trace (trace (os m) ++ flat_map handler_calls batch)
                 (os m) |}.
Proof.
  intros Hdata Hbits. rewrite routeEvents_connections_then.
  cbn [routeEvents]. unfold routeEvent, nonzero.
  destruct (Z.eqb_spec (Z.land events (Z.lnot EPOLLIN)) 0) as [|_]; [done|].
  by destruct Hdata as [-> | ->].
Qed.

End Batch.

(** ** What becomes of an accepted descriptor *)

Lemma deleteConnection_unwatched (c : positive) (m : Machine) :
  gettid (os m) = _threadId (srv m) ->
  interest (os m) !! getFd (objects (os m) c) = None ->
  deleteConnection c m =
    Returns tt
      {| srv := set_connections (base.delete c (_connections (srv m))) (srv m);
         os := set_trace (trace (os m) ++ deletion_calls (srv m) (os m) c)
                 (os m) |}.
Proof.
  intros Htid Hfree.
  unfold deleteConnection, remove, checkThread, epoll_ctl, deletion_calls.
  run. rewrite Htid, Z.eqb_refl. run. rewrite Hfree.
  destruct (faults (os m) _); run; by rewrite <- !app_assoc.
Qed.

(** X8.  On the reactor thread, a peer that [accept] hands over on a
    descriptor that is not watched yet ends in one of two ways: its
    connection is registered with the current time and its descriptor is
    watched for input and not closed; or one of the calls that set the
    descriptor up failed, and then the descriptor is closed and the
    registry and the interest list are as before. *)
Theorem accepted_descriptor_registered_or_closed
    (m : Machine) (peer : sockaddr_in) (waiting : list sockaddr_in)
    (fd : Z) (rest : list Z) :
  gettid (os m) = _threadId (srv m) ->
  faults (os m) (sys_accept (_listenSock (srv m))) = false ->
  backlog (os m) = peer :: waiting ->
  fd_supply (os m) = fd :: rest ->
  fd <> -1 ->
  interest (os m) !! fd = None ->
  _connections (srv m) !! next_object (os m) = None ->
  let c := next_object (os m) in
  exists m' calls,
    handleAccept m = Returns tt m' /\
    trace (os m') = trace (os m) ++ calls /\
    backlog (os m') = waiting /\
    (_connections (srv m') = <[c := clock (os m)]> (_connections (srv m)) /\
     interest (os m') =
       <[fd := (EPOLLIN, ConnectionPtr c)]> (interest (os m)) /\
     getFd (objects (os m') c) = fd /\
     (sys_close fd ∉ calls)
     \/
     _connections (srv m') = _connections (srv m) /\
     interest (os m') = interest (os m) /\
     sys_close fd ∈ calls).
Proof.
  intros Htid Haccept Hbacklog Hsupply Hfd Hfree Hfresh c.
  unfold handleAccept, accept. run.
  rewrite Haccept, Hbacklog, Hsupply. run.
  destruct (Z.eqb_spec fd (-1)) as [|_]; [done|]. run.
  destruct (faults (os m) (sys_setsockopt_SO_LINGER fd {| l_onoff := true; l_linger := 500 |})) eqn:Hlinger; run.
  { eexists _, _. split; [reflexivity|]. cbn.
    split; [by rewrite <- !app_assoc|]. split; [done|]. right.
    split; [done|]. split; [done|]. set_solver. }
  unfold configureSocket, makeNonBlocking. run.
  destruct (faults (os m) (sys_ioctl_FIONBIO fd)) eqn:Hioctl; run.
  { eexists _, _. split; [reflexivity|]. cbn.
    split; [by rewrite <- !app_assoc|]. split; [done|]. right.
    split; [done|]. split; [done|]. set_solver. }
  destruct (faults (os m) (sys_setsockopt_SO_REUSEADDR fd)) eqn:Hreuse; run.
  { eexists _, _. split; [reflexivity|]. cbn.
    split; [by rewrite <- !app_assoc|]. split; [done|]. right.
    split; [done|]. split; [done|]. set_solver. }
  unfold newConnection, epoll_ctl. run. rewrite Hfree.
  destruct (faults (os m) (sys_epoll_ctl (_epollFd (srv m)) EPOLL_CTL_ADD fd EPOLLIN (ConnectionPtr (next_object (os m))))) eqn:Hadd; run.
  - rewrite deleteConnection_unwatched; cbn; [|done|].
    2: { by rewrite Pos.eqb_refl. }
    unfold deletion_calls. cbn. rewrite Pos.eqb_refl. cbn.
    eexists _, _. split; [reflexivity|]. cbn.
    split; [by rewrite <- !app_assoc|]. split; [done|]. right.
    split; [by apply delete_id|]. split; [done|]. set_solver.
  - eexists _, _. split; [reflexivity|]. cbn.
    split; [by rewrite <- !app_assoc|]. split; [done|]. left.
    subst c. unfold map_insert. rewrite Hfresh. split; [done|].
    split; [done|]. rewrite Pos.eqb_refl. split; [done|].
    intros Hin.
    repeat (apply elem_of_cons in Hin as [Heq|Hin]; [discriminate Heq|]).
    by apply elem_of_nil in Hin.
Qed.

(** ** Setting [serve] up *)

Lemma no_wait_trace_grows (m m' : Machine) : no_wait m m' -> trace_grows m m'.
Proof. intros [(calls & ? & _) _]. by exists calls. Qed.

Lemma epoll_ctl_ADD_run (epfd fd events : Z) (data : Token) (m : Machine) :
  epoll_ctl epfd EPOLL_CTL_ADD fd events data m =
    let c := sys_epoll_ctl epfd EPOLL_CTL_ADD fd events data in
    let w := set_trace (trace (os m) ++ [c]) (os m) in
    if faults (os m) c then Returns false {| srv := srv m; os := w |}
    else match interest (os m) !! fd with
         | None =>
             Returns true
               {| srv := srv m;
                  os := set_interest (<[fd := (events, data)]> (interest (os m)))
                          w |}
         | Some _ => Returns false {| srv := srv m; os := w |}
         end.
Proof. unfold epoll_ctl. run. by repeat case_match. Qed.

Lemma is_wait_in_loop (calls : list Call) :
  existsb in_loop calls = false -> existsb is_wait calls = false.
Proof.
  induction calls as [|c calls IH]; [done|]. cbn.
  intros [Hc Hcalls]%orb_false_iff. rewrite (IH Hcalls).
  by destruct c.
Qed.

Section Setup.

Context {E : Errno}.

Lemma processEventQueue_trace_grows : preserves trace_grows processEventQueue.
Proof.
  unfold processEventQueue.
  apply preserves_bind; [apply _|apply preserves_get_srv, _|intros s].
  apply preserves_bind; [apply _| |intros _].
  - intros m. apply no_wait_trace_grows, runPending_no_wait.
  - intros m. apply no_wait_trace_grows, reapLameConnections_no_wait.
Qed.

Lemma serveOnce_trace_grows : preserves trace_grows serveOnce.
Proof.
  unfold serveOnce.
  repeat first [ apply processEventQueue_trace_grows
               | apply routeEvents_trace_grows
               | apply deleteQueued_trace_grows
               | preserves_step
               | progress unfold epoll_wait ];
    solve_trace_grows.
Qed.

Lemma serveLoop_trace_grows fuel : preserves trace_grows (serveLoop fuel).
Proof.
  induction fuel as [|fuel IH]; cbn [serveLoop];
    repeat first [apply IH | apply serveOnce_trace_grows | preserves_step].
Qed.

Ltac setup_fails consumed :=
  left; eexists _, _; split; [reflexivity|]; cbn;
  split; [rewrite <- ?app_assoc; reflexivity|];
  do 7 (split; [done|]);
  exists consumed; split; [done|];
  unfold own_descriptors; cbn; intros fd Hin;
  repeat (apply elem_of_cons in Hin as [->|Hin];
          [repeat first [apply list_elem_of_here|apply list_elem_of_further]|]);
  by apply elem_of_nil in Hin.

(** The two ways the setup of [serve] ends (server.cpp:126-176): a call
    fails and [serve] returns, having made none of the calls of its loop
    and having left the server's flag, registry and queue alone, or all
    succeed and the loop starts on [set_up]. *)
Lemma serve_sets_up (port : Z) (fuel : nat) (m : Machine) :
  (exists m' calls,
     serve port fuel m = Returns true m' /\
     trace (os m') = trace (os m) ++ calls /\
     existsb in_loop calls = false /\
     _terminate (srv m') = _terminate (srv m) /\
     _connections (srv m') = _connections (srv m) /\
     _pendingRunnables (srv m') = _pendingRunnables (srv m) /\
     backlog (os m') = backlog (os m) /\
     gettid (os m') = gettid (os m) /\
     _threadId (srv m') = gettid (os m) /\
     exists consumed,
       fd_supply (os m) = consumed ++ fd_supply (os m') /\
       forall fd, fd ∈ consumed -> fd ∈ own_descriptors (srv m'))
  \/
  (exists listenSock epollFd pipes0 pipes1 supply,
     fd_supply (os m) = listenSock :: epollFd :: pipes0 :: pipes1 :: supply /\
     forallb (fun c => negb (faults (os m) c))
       (setup_calls port listenSock epollFd pipes0 pipes1) = true /\
     listenSock <> -1 /\ epollFd <> -1 /\
     interest (os m) !! listenSock = None /\
     interest (os m) !! pipes0 = None /\
     pipes0 <> listenSock /\
     serve port fuel m =
       serveLoop fuel
         (set_up port listenSock epollFd pipes0 pipes1 supply m)).
Proof.
  unfold serve, socket, fresh_fd. run.
  destruct (faults (os m) sys_socket) eqn:Hsocket; run; [setup_fails (@nil Z)|].
  destruct (fd_supply (os m)) as [|listenSock supply] eqn:Hsupply; run;
    [setup_fails (@nil Z)|].
  destruct (Z.eqb_spec listenSock (-1)) as [|HlistenSock]; run;
    [setup_fails [listenSock]|].
  unfold configureSocket, makeNonBlocking. run.
  destruct (faults (os m) (sys_ioctl_FIONBIO listenSock)) eqn:Hioctl; run;
    [setup_fails [listenSock]|].
  destruct (faults (os m) (sys_setsockopt_SO_REUSEADDR listenSock))
    eqn:Hreuse; run; [setup_fails [listenSock]|].
  destruct (faults (os m) (sys_bind listenSock (uint16_t port))) eqn:Hbind;
    run;
    [setup_fails [listenSock]|].
  destruct (faults (os m) (sys_listen listenSock 5)) eqn:Hlisten; run;
    [setup_fails [listenSock]|].
  unfold epoll_create, fresh_fd. run.
  destruct (faults (os m) sys_epoll_create) eqn:Hcreate; run; [setup_fails [listenSock]|].
  destruct supply as [|epollFd supply]; run; [setup_fails [listenSock]|].
  destruct (Z.eqb_spec epollFd (-1)) as [|HepollFd]; run; [setup_fails [listenSock; epollFd]|].
  unfold pipe. run.
  destruct (faults (os m) sys_pipe) eqn:Hpipe; run; [setup_fails [listenSock; epollFd]|].
  destruct supply as [|pipes0 [|pipes1 supply]]; run;
    [setup_fails [listenSock; epollFd]|setup_fails [listenSock; epollFd]|].
  destruct (faults (os m) (sys_ioctl_FIONBIO pipes0)) eqn:Hioctl0; run;
    [setup_fails [listenSock; epollFd; pipes0; pipes1]|].
  destruct (faults (os m) (sys_ioctl_FIONBIO pipes1)) eqn:Hioctl1; run;
    [setup_fails [listenSock; epollFd; pipes0; pipes1]|].
  rewrite epoll_ctl_ADD_run.
  cbn [srv os faults interest trace set_trace set_interest set_fd_supply].
  destruct (faults (os m)
              (sys_epoll_ctl epollFd EPOLL_CTL_ADD listenSock EPOLLIN
                 ThisServer)) eqn:Hwatch; [setup_fails [listenSock; epollFd; pipes0; pipes1]|].
  destruct (interest (os m) !! listenSock) eqn:Hfree; [setup_fails [listenSock; epollFd; pipes0; pipes1]|].
  cbv beta iota. cbn [negb]. rewrite epoll_ctl_ADD_run.
  cbn [srv os faults interest trace set_trace set_interest set_fd_supply].
  destruct (faults (os m)
              (sys_epoll_ctl epollFd EPOLL_CTL_ADD pipes0 EPOLLIN WakePipe))
    eqn:Hwatch0; [setup_fails [listenSock; epollFd; pipes0; pipes1]|].
  destruct (<[listenSock:=(EPOLLIN, ThisServer)]> (interest (os m)) !! pipes0)
    eqn:Hfree0; [setup_fails [listenSock; epollFd; pipes0; pipes1]|].
  cbv beta iota. cbn [negb].
  right. exists listenSock, epollFd, pipes0, pipes1, supply.
  apply lookup_insert_None in Hfree0 as [Hfree0 Hdistinct].
  split; [done|]. split.
  { cbn. by rewrite ?Hsocket, ?Hioctl, ?Hreuse, ?Hbind, ?Hlisten, ?Hcreate,
      ?Hpipe, ?Hioctl0, ?Hioctl1, ?Hwatch, ?Hwatch0. }
  do 5 (split; [done|]).
  unfold set_up, setup_calls. by rewrite <- !app_assoc.
Qed.

(** X9.  [serve] calls [epoll_wait] only if the terminate flag was unset
    when it was called and every call of its setup succeeded: by then it
    has made, in this order and on the descriptors the kernel handed out,
    the calls that create the listening socket, make it non-blocking and
    reusable, bind it to the port that [htons] leaves of [port], its low
    16 bits, and listen, create the epoll descriptor and the pipe, make
    both ends of the pipe non-blocking and watch the listening socket and
    the read end of the pipe. *)
Theorem serve_polls_only_after_setup (port : Z) (fuel : nat) (m : Machine) :
  exists calls,
    trace (os (final (serve port fuel m))) = trace (os m) ++ calls /\
    (existsb is_wait calls = true ->
     _terminate (srv m) = false /\
     exists listenSock epollFd pipes0 pipes1 supply after,
       fd_supply (os m) =
         listenSock :: epollFd :: pipes0 :: pipes1 :: supply /\
       forallb (fun c => negb (faults (os m) c))
         (setup_calls port listenSock epollFd pipes0 pipes1) = true /\
       calls = setup_calls port listenSock epollFd pipes0 pipes1 ++ after).
Proof.
  destruct (serve_sets_up port fuel m)
    as [(m' & calls & -> & Htrace & Hquiet & _)
       |(listenSock & epollFd & pipes0 & pipes1 & supply & Hsupply & Hfaults
         & _ & _ & _ & _ & _ & ->)].
  { exists calls. split; [done|]. by rewrite (is_wait_in_loop _ Hquiet). }
  destruct (_terminate (srv m)) eqn:Hterminate.
  { exists (setup_calls port listenSock epollFd pipes0 pipes1).
    split; [|done]. destruct fuel; cbn [serveLoop]; [done|].
    rewrite bind_get_srv. cbn. by rewrite Hterminate. }
  match goal with |- context [serveLoop fuel ?m1] =>
    destruct (serveLoop_trace_grows fuel m1) as [after Hafter]
  end.
  exists (setup_calls port listenSock epollFd pipes0 pipes1 ++ after).
  split; [by rewrite Hafter, app_assoc|].
  intros _. split; [done|].
  by exists listenSock, epollFd, pipes0, pipes1, supply, after.
Qed.

(** [serve(".", 70000)] at [fresh_start] binds port [4464]. *)
Example serve_binds_low_16_bits_of_port :
  trace (os (final (@serve linux 70000 0 fresh_start))) =
    [sys_socket; sys_ioctl_FIONBIO 3; sys_setsockopt_SO_REUSEADDR 3;
     sys_bind 3 4464; sys_listen 3 5; sys_epoll_create; sys_pipe;
     sys_ioctl_FIONBIO 5; sys_ioctl_FIONBIO 6;
     sys_epoll_ctl 4 EPOLL_CTL_ADD 3 EPOLLIN ThisServer;
     sys_epoll_ctl 4 EPOLL_CTL_ADD 5 EPOLLIN WakePipe].
Proof. vm_compute. reflexivity. Qed.

(** X10.  The terminate flag is never cleared: [serve] called on a server
    whose flag is set, by a [terminate] before [serve] or by an earlier
    [serve], returns after its setup with the flag still set, without
    polling, accepting a peer or running a scheduled runnable. *)
Theorem serve_returns_once_terminated (port : Z) (fuel : nat) (m : Machine) :
  _terminate (srv m) = true ->
  exists m' calls,
    serve port (S fuel) m = Returns true m' /\
    trace (os m') = trace (os m) ++ calls /\
    existsb in_loop calls = false /\
    _terminate (srv m') = true /\
    _connections (srv m') = _connections (srv m) /\
    _pendingRunnables (srv m') = _pendingRunnables (srv m) /\
    backlog (os m') = backlog (os m).
Proof.
  intros Hterminate.
  destruct (serve_sets_up port (S fuel) m)
    as [(m' & calls & Hrun & Htrace & Hquiet & Hflag & Hregistry & Hqueue
         & Hbacklog & _)
       |(listenSock & epollFd & pipes0 & pipes1 & supply & _ & _
         & _ & _ & _ & _ & _ & ->)].
  { exists m', calls. by rewrite Hflag. }
  cbn [serveLoop]. rewrite bind_get_srv. cbn [set_up srv _terminate set_pipes
    set_epollFd set_listenSock set_threadId]. rewrite Hterminate.
  eexists _, _. split; [reflexivity|]. by cbn.
Qed.

End Setup.

(** ** Member functions that return and keep an invariant *)

Section Safe.

Context (I : Machine -> Prop) (R : relation Machine) `{!PreOrder R}.

Lemma safe_ret {A} (a : A) : safe I R (mret a).
Proof. intros m Hm. by exists a, m. Qed.

Lemma safe_get_srv : safe I R get_srv.
Proof. intros m Hm. by exists (srv m), m. Qed.

Lemma safe_get_os : safe I R get_os.
Proof. intros m Hm. by exists (os m), m. Qed.

Lemma safe_bind {A B} (f : M A) (k : A -> M B) :
  safe I R f -> (forall a, safe I R (k a)) -> safe I R (f ≫= k).
Proof.
  intros Hf Hk m Hm. destruct (Hf m Hm) as (a & m1 & Hrun & Hm1 & HR).
  destruct (Hk a m1 Hm1) as (b & m2 & Hrun2 & Hm2 & HR2).
  exists b, m2. unfold mbind, M_bind, bind. rewrite Hrun.
  split; [done|]. split; [done|]. by etrans.
Qed.

Lemma safe_modify_srv (g : Server -> Server) :
  (forall m, I m ->
     I {| srv := g (srv m); os := os m |} /\
     R m {| srv := g (srv m); os := os m |}) ->
  safe I R (modify_srv g).
Proof. intros Hg m Hm. eexists tt, _. split; [reflexivity|]. by apply Hg. Qed.

Lemma safe_modify_os (g : World -> World) :
  (forall m, I m ->
     I {| srv := srv m; os := g (os m) |} /\
     R m {| srv := srv m; os := g (os m) |}) ->
  safe I R (modify_os g).
Proof. intros Hg m Hm. eexists tt, _. split; [reflexivity|]. by apply Hg. Qed.

End Safe.

(** One step of a proof that a member function is safe. *)
Ltac safe_step :=
  first
    [ apply safe_ret; solve [apply _]
    | apply safe_get_srv; solve [apply _]
    | apply safe_get_os; solve [apply _]
    | apply safe_bind; [solve [apply _]| |intros ?; cbv beta zeta]
    | apply safe_modify_srv; intros ? ?
    | apply safe_modify_os; intros ? ?
    | match goal with
      | |- safe _ _ (if ?b then _ else _) => destruct b
      | |- safe _ _ (match ?x with _ => _ end) => destruct x
      | |- safe _ _ (let '(_, _) := ?x in _) => destruct x
      end
    | progress unfold call, close, Connection_handleDataReadyForWrite,
        Connection_handleDataReadyForRead, emit, time, schedule,
        popNextRunnable ].

(** ** No descriptor is lost *)

Global Instance descriptors_kept_preorder : PreOrder descriptors_kept.
Proof.
  split.
  - intros m. split; [by exists nil|done].
  - intros m1 m2 m3 [[c1 H1] Hheld1] [[c2 H2] Hheld2]. split.
    + exists (c1 ++ c2). by rewrite H1, H2, app_assoc.
    + intros fd Hfd Hheld. by apply Hheld2, Hheld1.
Qed.




Lemma deleteConnection_run (c : positive) (m : Machine) :
  gettid (os m) = _threadId (srv m) ->
  exists watched,
    deleteConnection c m =
      Returns tt
        {| srv := set_connections (base.delete c (_connections (srv m))) (srv m);
           os := set_interest watched
                   (set_trace
                      (trace (os m) ++ deletion_calls (srv m) (os m) c)
                      (os m)) |}.
Proof.
  intros Htid.
  unfold deleteConnection, remove, checkThread, epoll_ctl, deletion_calls.
  run. rewrite Htid, Z.eqb_refl. run.
  destruct (faults (os m) _); run.
  { exists (interest (os m)). rewrite <- !app_assoc. by destruct m as [? []]. }
  destruct (interest (os m) !! _); run.
  - eexists. by rewrite <- !app_assoc.
  - exists (interest (os m)). rewrite <- !app_assoc. by destruct m as [? []].
Qed.





Ltac safe_reactor_step :=
  first
    [ safe_step
    | progress unfold run, read, epoll_wait, routeEvent, reapLameConnections,
        processEventQueue, closeUnlessUnset ].






Section Descriptors.

Context {E : Errno}.







End Descriptors.


Section Shutdown.

Context {E : Errno}.


End Shutdown.

(** ** When [epoll_wait] fails *)

Global Instance poll_kept_preorder : PreOrder poll_kept.
Proof.
  split.
  - intros m. do 3 (split; [done|]). exists nil. by rewrite app_nil_r.
  - intros m1 m2 m3 (? & ? & ? & c1 & Hc1) (? & ? & ? & c2 & Hc2).
    do 3 (split; [congruence|]). exists (c1 ++ c2).
    by rewrite Hc2, Hc1, app_assoc.
Qed.

Ltac solve_poll_kept :=
  match goal with
  | Hm : reactor_thread ?m |- _ =>
      split;
      [ exact Hm
      | do 3 (split; [done|]);
        first [ exists nil; by rewrite app_nil_r | by eexists (cons _ nil) ] ]
  end.

Lemma scheduleAll_poll_kept rs : safe reactor_thread poll_kept (scheduleAll rs).
Proof.
  induction rs as [|r rs IH]; cbn [scheduleAll];
    repeat first [apply IH | safe_step]; solve_poll_kept.
Qed.

Lemma runPending_poll_kept fuel :
  safe reactor_thread poll_kept (runPending fuel).
Proof.
  induction fuel as [|fuel IH]; cbn [runPending];
    repeat first [apply IH | apply scheduleAll_poll_kept | safe_reactor_step];
    solve_poll_kept.
Qed.

Lemma deleteConnection_poll_kept c :
  safe reactor_thread poll_kept (deleteConnection c).
Proof.
  intros m Htid. destruct (deleteConnection_run c m Htid) as [watched ->].
  eexists tt, _. split; [reflexivity|]. split; [exact Htid|].
  do 3 (split; [done|]). by eexists.
Qed.

Lemma deleteEach_poll_kept l : safe reactor_thread poll_kept (deleteEach l).
Proof.
  induction l as [|c l IH]; cbn [deleteEach];
    repeat first [apply IH | apply deleteConnection_poll_kept | safe_step].
Qed.

Lemma processEventQueue_poll_kept :
  safe reactor_thread poll_kept processEventQueue.
Proof.
  repeat first [ apply runPending_poll_kept | apply deleteEach_poll_kept
               | safe_reactor_step ].
Qed.

Section FailedPoll.

Context {E : Errno}.

(** X12.  On the reactor thread, when [epoll_wait] fails the iteration ends
    at once, with no event routed and no connection deleted: the loop goes
    round again when [errno] is [EINTR], and [serve] returns for any other
    error.  In both cases the terminate flag is as it was, so that [serve]
    can return with the flag unset. *)
Theorem failed_poll_ends_iteration
    (m : Machine) (e : Z) (rest : list WaitResult) :
  gettid (os m) = _threadId (srv m) ->
  wait_results (os m) = WaitError e :: rest ->
  exists m' before,
    serveOnce m = Returns (if e =? EINTR then Continue else Return) m' /\
    trace (os m') =
      trace (os m) ++ before ++
      [sys_epoll_wait (_epollFd (srv m)) maxEvents EpollTimeoutMillis] /\
    forallb (fun c => negb (is_wait c)) before = true /\
    _terminate (srv m') = _terminate (srv m) /\
    errno (os m') = e /\
    wait_results (os m') = rest.
Proof.
  intros Htid Hscript.
  destruct (processEventQueue_poll_kept m Htid)
    as ([] & m1 & Hrun & _ & Hwait & Hterminate & Hepoll & _).
  assert (no_wait m m1) as [(before & Htrace & Hquiet) _].
  { assert (preserves no_wait processEventQueue) as Hframe.
    { unfold processEventQueue.
      apply preserves_bind; [apply _|apply preserves_get_srv, _|intros s].
      apply preserves_bind; [apply _|apply runPending_no_wait|intros _].
      apply reapLameConnections_no_wait. }
    specialize (Hframe m). by rewrite Hrun in Hframe. }
  unfold serveOnce. unfold mbind at 1, M_bind at 1, bind at 1. rewrite Hrun.
  rewrite bind_get_srv. unfold epoll_wait. run.
  rewrite Hwait, Hscript. run.
  destruct (e =? EINTR); run;
    (eexists _, before; split; [reflexivity|]; cbn;
     by rewrite Htrace, Hepoll, <- app_assoc).
Qed.

End FailedPoll.

(** ** The write subscription *)

(** X13.  Subscribing a connection to write events and unsubscribing it
    again leaves the interest list as [handleAccept] made it; in between
    the connection is watched for input and output.  On a connection whose
    descriptor is not watched both calls fail and add no entry. *)
Theorem write_subscription_round_trip (c : positive) (m : Machine) :
  let fd := getFd (objects (os m) c) in
  let subscribe :=
    sys_epoll_ctl (_epollFd (srv m)) EPOLL_CTL_MOD fd (Z.lor EPOLLIN EPOLLOUT)
      (ConnectionPtr c) in
  let unsubscribe :=
    sys_epoll_ctl (_epollFd (srv m)) EPOLL_CTL_MOD fd EPOLLIN
      (ConnectionPtr c) in
  (interest (os m) !! fd = Some (EPOLLIN, ConnectionPtr c) ->
   faults (os m) subscribe = false ->
   faults (os m) unsubscribe = false ->
   exists m1 m2,
     subscribeToWriteEvents c m = Returns true m1 /\
     interest (os m1) !! fd = Some (Z.lor EPOLLIN EPOLLOUT, ConnectionPtr c) /\
     unsubscribeFromWriteEvents c m1 = Returns true m2 /\
     interest (os m2) = interest (os m) /\
     srv m2 = srv m /\
     trace (os m2) = trace (os m) ++ [subscribe; unsubscribe]) /\
  (interest (os m) !! fd = None ->
   exists m1 m2,
     subscribeToWriteEvents c m = Returns false m1 /\
     unsubscribeFromWriteEvents c m = Returns false m2 /\
     interest (os m1) = interest (os m) /\
     interest (os m2) = interest (os m)).
Proof.
  intros fd subscribe unsubscribe. subst fd subscribe unsubscribe.
  unfold subscribeToWriteEvents, unsubscribeFromWriteEvents, epoll_ctl.
  split.
  - intros Hwatched Hsubscribe Hunsubscribe. run.
    rewrite Hsubscribe, Hwatched. run.
    eexists _, _. split; [reflexivity|]. cbn.
    rewrite lookup_insert_eq. split; [done|].
    rewrite Hunsubscribe. cbn. split; [reflexivity|]. cbn.
    split; [|split; [done|by rewrite <- app_assoc]].
    rewrite insert_insert_eq. by apply insert_id.
  - intros Hfree. run. rewrite Hfree.
    destruct (faults (os m) _), (faults (os m) _); by eexists _, _.
Qed.

(** ** The time of the next scan for lame connections *)

Global Instance scan_time_kept_preorder : PreOrder scan_time_kept.
Proof.
  split; [by intros m|].
  intros m1 m2 m3 ? ?. unfold scan_time_kept in *. congruence.
Qed.

Lemma scheduleAll_scan_time_kept rs :
  preserves scan_time_kept (scheduleAll rs).
Proof.
  induction rs as [|r rs IH]; cbn [scheduleAll];
    repeat first [apply IH | preserves_step]; done.
Qed.

Lemma runPending_scan_time_kept fuel :
  preserves scan_time_kept (runPending fuel).
Proof.
  induction fuel as [|fuel IH]; cbn [runPending];
    repeat first [apply IH | apply scheduleAll_scan_time_kept
                 | preserves_reactor_step];
    done.
Qed.

Lemma deleteEach_scan_time_kept l : preserves scan_time_kept (deleteEach l).
Proof.
  induction l as [|c l IH]; cbn [deleteEach];
    repeat first [apply IH | preserves_step]; done.
Qed.

Lemma deleteAllConnections_scan_time_kept fuel :
  preserves scan_time_kept (deleteAllConnections fuel).
Proof.
  induction fuel as [|fuel IH]; cbn [deleteAllConnections];
    repeat first [apply IH | preserves_step]; done.
Qed.

Section ScanTime.

Context {E : Errno}.

Lemma drainWakePipe_scan_time_kept fuel :
  preserves scan_time_kept (drainWakePipe fuel).
Proof.
  induction fuel as [|fuel IH]; cbn [drainWakePipe];
    repeat first [apply IH | preserves_reactor_step]; done.
Qed.

Lemma routeEvents_scan_time_kept events toBeDeleted :
  preserves scan_time_kept (routeEvents events toBeDeleted).
Proof.
  revert toBeDeleted.
  induction events as [|event events IH]; intros toBeDeleted;
    cbn [routeEvents].
  - apply preserves_ret, _.
  - apply preserves_bind; [apply _| |].
    + destruct event as [[| |c] events']; unfold routeEvent;
        repeat first [ apply drainWakePipe_scan_time_kept
                     | preserves_reactor_step ];
        done.
    + intros [[] ?]; [apply IH|apply preserves_ret, _].
Qed.

Lemma deleteQueued_scan_time_kept toBeDeleted :
  preserves scan_time_kept (deleteQueued toBeDeleted).
Proof.
  induction toBeDeleted as [|c l IH]; cbn [deleteQueued];
    repeat first [apply IH | preserves_step]; done.
Qed.

Lemma serveLoop_scan_time_kept fuel :
  preserves scan_time_kept (serveLoop fuel).
Proof.
  induction fuel as [|fuel IH]; cbn [serveLoop]; unfold serveOnce;
    repeat first [ apply IH | apply runPending_scan_time_kept
                 | apply deleteEach_scan_time_kept
                 | apply routeEvents_scan_time_kept
                 | apply deleteQueued_scan_time_kept
                 | preserves_reactor_step ];
    done.
Qed.

(** X14.  Nothing advances [_nextDeadConnectionCheck]: whenever [serve]
    stops, and whenever the destructor stops after it, the field has the
    value it had when [serve] was called.  With the constructor's [0] the
    test at server.cpp:270 therefore holds on every iteration whose clock
    is not negative, and every iteration scans the whole registry. *)
Theorem scan_for_lame_connections_never_postponed
    (port : Z) (fuel : nat) (m : Machine) :
  _nextDeadConnectionCheck (srv (final (serve port fuel m)))
    = _nextDeadConnectionCheck (srv m) /\
  _nextDeadConnectionCheck
    (srv (final ((serve port fuel;; Server_destructor) m)))
    = _nextDeadConnectionCheck (srv m).
Proof.
  assert (preserves scan_time_kept (serve port fuel)) as Hserve.
  { unfold serve.
    repeat first [apply serveLoop_scan_time_kept | preserves_step]; done. }
  assert (preserves scan_time_kept Server_destructor) as Hdestructor.
  { unfold Server_destructor.
    repeat first [ apply deleteAllConnections_scan_time_kept
                 | preserves_step
                 | progress unfold closeUnlessUnset ];
      done. }
  split; [apply Hserve|].
  apply (preserves_bind scan_time_kept); [done|]. by intros _.
Qed.

End ScanTime.

(** ** Scheduling *)

Lemma scheduleAll_run (rs : list (option Runnable)) (m : Machine) :
  scheduleAll rs m =
    Returns tt
      {| srv := set_pendingRunnables (_pendingRunnables (srv m) ++ rs) (srv m);
         os := set_trace
                 (trace (os m) ++ concat (replicate (length rs) (wake_up (srv m))))
                 (os m) |}.
Proof.
  revert m. induction rs as [|r rs IH]; intros m.
  - cbn. rewrite !app_nil_r, set_trace_same. by destruct m as [[] ?].
  - cbn [scheduleAll]. unfold schedule, wake_up. run.
    destruct (_pipes1 (srv m) =? -1) eqn:Hpipe; run; rewrite IH; cbn;
      unfold wake_up; cbn; rewrite Hpipe, <- !app_assoc; reflexivity.
Qed.

Lemma length_le_pending_work (rs : list Runnable) :
  (length rs <= pending_work (Some <$> rs))%nat.
Proof.
  induction rs as [|r rs IH]; [done|].
  change (pending_work (Some <$> r :: rs))
    with (work r + pending_work (Some <$> rs))%nat.
  rewrite work_unfold. cbn. lia.
Qed.

(** Runnables that schedule nothing are served in the order of the
    queue, and nothing else is. *)
Lemma run_order_leaves (fuel : nat) (rs : list Runnable) :
  Forall (fun r => runnable_schedules r = []) rs ->
  (length rs < fuel)%nat ->
  run_order fuel (Some <$> rs) = runnable_id <$> rs.
Proof.
  intros Hleaves. revert fuel.
  induction Hleaves as [|r rs Hr _ IH]; intros fuel Hfuel.
  - by destruct fuel.
  - destruct fuel as [|fuel]; [cbn in Hfuel; lia|].
    cbn [fmap list_fmap run_order]. rewrite Hr, app_nil_r.
    f_equal. apply IH. cbn in Hfuel. lia.
Qed.

Lemma no_null_leaves (rs : list Runnable) :
  Forall (fun r => runnable_schedules r = []) rs ->
  no_null (Some <$> rs) = true.
Proof.
  induction 1 as [|r rs Hr _ IH]; [done|].
  change (no_null (Some <$> r :: rs))
    with (never_null r && no_null (Some <$> rs)).
  by rewrite IH, never_null_unfold, Hr.
Qed.

(** X17.  Runnables handed to [schedule] one after the other are queued in
    that order, each call making one [write] call on the write end of the
    pipe once the pipe exists and no call before [serve] has created it.
    When the runnables schedule nothing themselves, the next
    [processEventQueue] on the reactor thread runs exactly them, in the
    order in which they were scheduled, and leaves the queue empty. *)
Theorem scheduled_runnables_run_in_order (rs : list Runnable) (m : Machine) :
  gettid (os m) = _threadId (srv m) ->
  _pendingRunnables (srv m) = [] ->
  Forall (fun r => runnable_schedules r = []) rs ->
  exists m1 m2 ran,
    scheduleAll (Some <$> rs) m = Returns tt m1 /\
    _pendingRunnables (srv m1) = Some <$> rs /\
    trace (os m1) =
      trace (os m) ++ concat (replicate (length rs) (wake_up (srv m))) /\
    processEventQueue m1 = Returns tt m2 /\
    trace (os m2) = trace (os m1) ++ ran /\
    run_ids ran = runnable_id <$> rs /\
    _pendingRunnables (srv m2) = [].
Proof.
  intros Htid Hempty Hleaves.
  rewrite scheduleAll_run, Hempty, length_fmap.
  cbn [app].
  pose proof (length_le_pending_work rs) as Hwork.
  match goal with |- context [Returns tt ?m1 = _] =>
    destruct (runPending_spec (S (pending_work (_pendingRunnables (srv m1))))
                m1 rs []) as (m2 & ran & more & Hrun & Htrace & _ & Hdone);
      [by cbn; rewrite app_nil_r|lia|];
    destruct (runPending_run_order
                (S (pending_work (_pendingRunnables (srv m1)))) m1)
      as (m2' & ran' & Hrun' & Htrace' & Horder); [lia|];
    pose proof (runPending_no_wait
                  (S (pending_work (_pendingRunnables (srv m1)))) m1)
      as Hframe
  end.
  rewrite Hrun in Hrun'. injection Hrun' as <-.
  assert (ran' = ran) as ->.
  { rewrite Htrace in Htrace'. by apply app_inv_head in Htrace'. }
  cbn [srv _pendingRunnables set_pendingRunnables] in Horder, Hdone.
  rewrite run_order_leaves in Horder by (done || lia).
  specialize (Hdone (no_null_leaves rs Hleaves)).
  rewrite Hrun in Hframe. cbn [final] in Hframe.
  destruct Hframe as [_ [Hgettid HthreadId]]. cbn in Hgettid, HthreadId.
  assert (gettid (os m2) = _threadId (srv m2)) as Htid2 by congruence.
  destruct (reapLameConnections_runs_nothing m2 Htid2)
    as (registry & w3 & reaped & Hreap & Htrace3 & Hnone).
  eexists _, _, (ran ++ reaped).
  split; [reflexivity|]. cbn [srv os _pendingRunnables set_pendingRunnables
    trace set_trace].
  split; [done|]. split; [done|]. split.
  { unfold processEventQueue. rewrite bind_get_srv.
    unfold mbind, M_bind, bind. by rewrite Hrun, Hreap. }
  cbn in Htrace. cbn. split; [by rewrite Htrace3, Htrace, app_assoc|].
  split; [|done]. by rewrite run_ids_app, Horder, Hnone, app_nil_r.
Qed.

(** ** An iteration of the loop on connection events *)

Lemma deleteQueued_registered (l : list positive) (m : Machine) :
  gettid (os m) = _threadId (srv m) ->
  NoDup l ->
  (forall c, c ∈ l -> is_Some (_connections (srv m) !! c)) ->
  deleteQueued l m = deleteEach l m.
Proof.
  revert m. induction l as [|c l IH]; intros m Htid Hnodup Hknown; [done|].
  cbn [deleteQueued deleteEach]. rewrite bind_get_srv.
  destruct (Hknown c) as [t Hc]; [apply list_elem_of_here|]. rewrite Hc.
  destruct (deleteConnection_run c m Htid) as [watched Hrun].
  unfold mbind, M_bind, bind. rewrite Hrun.
  apply NoDup_cons in Hnodup as [Hfresh Hnodup].
  apply IH; [done|done|].
  intros k Hk. cbn. rewrite lookup_delete_ne; [|by intros ->].
  apply Hknown. by apply list_elem_of_further.
Qed.

Lemma nothing_to_reap (m : Machine) :
  (forall c t, _connections (srv m) !! c = Some t -> ~ is_lame m c t) ->
  reapLameConnections m = Returns tt m.
Proof.
  intros Hsound. unfold reapLameConnections.
  rewrite bind_time, bind_get_srv.
  destruct (_nextDeadConnectionCheck (srv m) <=? clock (os m)); [|done].
  rewrite bind_get_os.
  destruct ((List.filter _ _).*1) as [|c l] eqn:Hlame; [done|].
  exfalso.
  assert (c ∈ (List.filter
                 (lame (os m) (_lameConnectionTimeoutSeconds (srv m))
                    (clock (os m)))
                 (entries (_connections (srv m)))).*1) as Hin.
  { rewrite Hlame. apply list_elem_of_here. }
  pose proof Hin as ([c' t] & -> & Hentry)%list_elem_of_fmap.
  apply list_elem_of_In, filter_In in Hentry as [Hentry _].
  apply list_elem_of_In, elem_of_entries in Hentry.
  apply (Hsound c' t Hentry). by apply lame_entries.
Qed.

Lemma all_queued_for_deletion (batch : list (positive * Z)) :
  Forall (fun event => hung_up event.2 = true) batch ->
  queued_for_deletion batch = batch.*1.
Proof.
  unfold queued_for_deletion.
  induction 1 as [|event batch Hevent _ IH]; [done|].
  cbn [List.filter]. rewrite Hevent. cbn. by rewrite IH.
Qed.

Lemma no_handler_called (batch : list (positive * Z)) :
  Forall (fun event => hung_up event.2 = true) batch ->
  flat_map handler_calls batch = [].
Proof.
  induction 1 as [|[c events] batch Hevent _ IH]; [done|].
  cbn [flat_map handler_calls]. cbn in Hevent. by rewrite Hevent, IH.
Qed.

Section Iteration.

Context {E : Errno}.

(** X18.  One iteration on the reactor thread, with no runnable queued and
    no lame connection, when [epoll_wait] reports nothing but errors and
    hang-ups of registered connections, each once: no handler is called,
    and every one of those connections is deleted in the same iteration
    and leaves the registry; nothing else of the server changes and the
    loop goes on. *)
Theorem hang_ups_deleted_in_same_iteration
    (m : Machine) (batch : list (positive * Z)) (rest : list WaitResult) :
  gettid (os m) = _threadId (srv m) ->
  _pendingRunnables (srv m) = [] ->
  (forall c t, _connections (srv m) !! c = Some t -> ~ is_lame m c t) ->
  wait_results (os m) = WaitReady (connection_events batch) :: rest ->
  (length batch <= maxEvents)%nat ->
  Forall (fun event => hung_up event.2 = true) batch ->
  NoDup batch.*1 ->
  (forall c, c ∈ batch.*1 -> is_Some (_connections (srv m) !! c)) ->
  exists w',
    serveOnce m =
      Returns Continue
        {| srv := set_connections
                    (erase_all batch.*1 (_connections (srv m))) (srv m);
           os := w' |} /\
    trace w' =
      trace (os m) ++
      sys_epoll_wait (_epollFd (srv m)) maxEvents EpollTimeoutMillis ::
      flat_map (deletion_calls (srv m) (os m)) batch.*1.
Proof.
  intros Htid Hqueue Hsound Hscript Hfits Hhung Hnodup Hknown.
  rewrite <- (all_queued_for_deletion batch Hhung) in *.
  assert (processEventQueue m = Returns tt m) as Hpeq.
  { unfold processEventQueue. rewrite bind_get_srv, Hqueue.
    cbn [pending_work List.map list_sum runPending].
    unfold mbind, M_bind, bind. rewrite popNextRunnable_spec, Hqueue.
    by apply nothing_to_reap. }
  unfold serveOnce. unfold mbind at 1, M_bind at 1, bind at 1. rewrite Hpeq.
  rewrite bind_get_srv. unfold epoll_wait. run. rewrite Hscript. run.
  rewrite take_ge
    by (unfold connection_events, maxEvents in *; rewrite length_map; lia).
  destruct (Z.eqb_spec (Z.of_nat (length (connection_events batch))) (-1))
    as [|_]; [lia|].
  rewrite <- (app_nil_r (connection_events batch)).
  rewrite routeEvents_connections_then. cbn [routeEvents app].
  rewrite (no_handler_called batch Hhung), app_nil_r.
  unfold mret, M_ret, ret.
  match goal with |- context [deleteQueued ?l ?m2] =>
    rewrite (deleteQueued_registered l m2 Htid Hnodup Hknown);
    destruct (deleteEach_reactor_thread l m2 Htid) as (w' & -> & Htrace & _)
  end.
  exists w'. split; [done|]. rewrite Htrace. cbn.
  by rewrite <- !app_assoc.
Qed.

End Iteration.

(** * The further theorems at sample machines *)

(** X4 at [three_connections], for the connections 1 and 3. *)
Lemma two_queued_connections_deleted :
  gettid (os three_connections) = _threadId (srv three_connections) /\
  exists w',
    deleteQueued [1%positive; 3%positive] three_connections =
      Returns tt
        {| srv := set_connections
                    (erase_all [1%positive; 3%positive]
                       (_connections (srv three_connections)))
                    (srv three_connections);
           os := w' |} /\
    trace w' =
      [delete_Connection 1;
       sys_epoll_ctl 4 EPOLL_CTL_DEL 7 0 (ConnectionPtr 1);
       sys_close 7;
       delete_Connection 3;
       sys_epoll_ctl 4 EPOLL_CTL_DEL 9 0 (ConnectionPtr 3);
       sys_close 9].
Proof.
  split; [reflexivity|].
  destruct (queued_connections_deleted [1%positive; 3%positive]
              three_connections eq_refl)
    as (w' & Hrun & Htrace & _).
  - apply NoDup_cons. split; [|apply NoDup_singleton].
    intros Hin%list_elem_of_singleton. discriminate Hin.
  - intros c Hc. apply elem_of_cons in Hc as [->|Hc]; [by eexists|].
    apply list_elem_of_singleton in Hc as ->. by eexists.
  - exists w'. split; [exact Hrun|exact Htrace].
Defined.

(** X5 at [three_connections]: connection 4 is unknown, and connection 2,
    queued behind it, stays. *)
Lemma unknown_connection_4_terminates :
  gettid (os three_connections) = _threadId (srv three_connections) /\
  _connections (srv three_connections) !! 4%positive = None /\
  exists w',
    deleteQueued ([1%positive] ++ 4%positive :: [2%positive])
        three_connections =
      Returns tt
        {| srv := set_terminate true
                    (set_connections
                       (erase_all [1%positive]
                          (_connections (srv three_connections)))
                       (srv three_connections));
           os := w' |} /\
    trace w' =
      [delete_Connection 1;
       sys_epoll_ctl 4 EPOLL_CTL_DEL 7 0 (ConnectionPtr 1);
       sys_close 7].
Proof.
  split; [reflexivity|]. split; [reflexivity|].
  destruct (unknown_queued_connection_terminates [1%positive] 4%positive
              [2%positive] three_connections eq_refl)
    as (w' & Hrun & Htrace).
  - apply NoDup_singleton.
  - intros c ->%list_elem_of_singleton. by eexists.
  - by left.
  - exists w'. split; [exact Hrun|exact Htrace].
Defined.

(** X7 at [one_accepted]: an error on the listening socket between two
    events of connection 1. *)
Lemma error_on_listening_socket_ends_batch :
  Z.land EPOLLERR (Z.lnot EPOLLIN) <> 0 /\
  @routeEvents linux
    (connection_events [(1%positive, EPOLLIN)]
     ++ (ThisServer, EPOLLERR) :: [(ConnectionPtr 1, EPOLLOUT)])
    [] one_accepted =
    Returns ([] ++ queued_for_deletion [(1%positive, EPOLLIN)])
      {| srv := set_terminate true (srv one_accepted);
         os := set_trace
                 (trace (os one_accepted)
                  ++ flat_map handler_calls [(1%positive, EPOLLIN)])
                 (os one_accepted) |}.
Proof.
  split; [discriminate|].
  apply (@unexpected_event_ends_batch linux); [by left|discriminate].
Defined.

(** X8 at [listening]: the first peer arrives on descriptor 7. *)
Lemma first_peer_registered_or_closed :
  gettid (os listening) = _threadId (srv listening) /\
  interest (os listening) !! 7 = None /\
  exists m' calls,
    handleAccept listening = Returns tt m' /\
    trace (os m') = trace (os listening) ++ calls /\
    backlog (os m') = [ {| sin_addr := 167772162; sin_port := 40001 |} ] /\
    (_connections (srv m') =
       <[next_object (os listening) := clock (os listening)]>
         (_connections (srv listening)) /\
     interest (os m') =
       <[7 := (EPOLLIN, ConnectionPtr (next_object (os listening)))]>
         (interest (os listening)) /\
     getFd (objects (os m') (next_object (os listening))) = 7 /\
     (sys_close 7 ∉ calls)
     \/
     _connections (srv m') = _connections (srv listening) /\
     interest (os m') = interest (os listening) /\
     sys_close 7 ∈ calls).
Proof.
  split; [reflexivity|]. split; [reflexivity|].
  apply (accepted_descriptor_registered_or_closed listening
           {| sin_addr := 167772161; sin_port := 40000 |}
           [ {| sin_addr := 167772162; sin_port := 40001 |} ] 7 [8; 9]);
    [reflexivity|reflexivity|reflexivity|reflexivity|discriminate
    |reflexivity|reflexivity].
Defined.

(** X10 at [terminated_start]. *)
Lemma terminated_server_does_not_serve :
  _terminate (srv terminated_start) = true /\
  exists m' calls,
    @serve linux 8080 1 terminated_start = Returns true m' /\
    trace (os m') = trace (os terminated_start) ++ calls /\
    existsb in_loop calls = false /\
    _terminate (srv m') = true /\
    _connections (srv m') = _connections (srv terminated_start) /\
    _pendingRunnables (srv m') = _pendingRunnables (srv terminated_start) /\
    backlog (os m') = backlog (os terminated_start).
Proof.
  split; [reflexivity|].
  exact (@serve_returns_once_terminated linux 8080 0 terminated_start
           eq_refl).
Defined.


(** X12 at [interrupted]: [errno] is [EINTR] and the loop goes on. *)
Lemma interrupted_poll_continues :
  gettid (os interrupted) = _threadId (srv interrupted) /\
  exists m' before,
    @serveOnce linux interrupted =
      Returns (if 4 =? @EINTR linux then Continue else Return) m' /\
    trace (os m') =
      trace (os interrupted) ++ before ++
      [sys_epoll_wait (_epollFd (srv interrupted)) maxEvents
         EpollTimeoutMillis] /\
    forallb (fun c => negb (is_wait c)) before = true /\
    _terminate (srv m') = _terminate (srv interrupted) /\
    errno (os m') = 4 /\
    wait_results (os m') = [].
Proof.
  split; [reflexivity|].
  exact (@failed_poll_ends_iteration linux interrupted 4 [] eq_refl eq_refl).
Defined.

(** X15 at [woken], where the two error numbers differ: the pipe is
    drained until it would block, and the terminate flag is set all the
    same. *)
Lemma wake_terminates_on_distinct_errnos :
  (@EAGAIN distinct_errnos =? @EWOULDBLOCK distinct_errnos) = false /\
  Z.land EPOLLIN (Z.lnot EPOLLIN) = 0 /\
  _terminate
    (srv (final (@routeEvent distinct_errnos (WakePipe, EPOLLIN) [] woken)))
    = true.
Proof.
  split; [reflexivity|]. split; [reflexivity|].
  apply (@wake_terminates_where_errnos_differ distinct_errnos EPOLLIN []
           woken); [discriminate|reflexivity].
Defined.

(** X17 at [listening], for the runnables 1 and 2. *)
Lemma two_scheduled_runnables_run_in_order :
  gettid (os listening) = _threadId (srv listening) /\
  _pendingRunnables (srv listening) = [] /\
  exists m1 m2 ran,
    scheduleAll (Some <$> [Task 1 []; Task 2 []]) listening
      = Returns tt m1 /\
    _pendingRunnables (srv m1) = Some <$> [Task 1 []; Task 2 []] /\
    trace (os m1) =
      trace (os listening) ++
      concat (replicate (length [Task 1 []; Task 2 []])
                (wake_up (srv listening))) /\
    processEventQueue m1 = Returns tt m2 /\
    trace (os m2) = trace (os m1) ++ ran /\
    run_ids ran = runnable_id <$> [Task 1 []; Task 2 []] /\
    _pendingRunnables (srv m2) = [].
Proof.
  split; [reflexivity|]. split; [reflexivity|].
  apply (scheduled_runnables_run_in_order [Task 1 []; Task 2 []] listening
           eq_refl eq_refl).
  by repeat constructor.
Defined.

(** X18 at [hanging_up]: connection 3 is deleted and its input is not
    read. *)
Lemma hung_up_connection_deleted_at_once :
  gettid (os hanging_up) = _threadId (srv hanging_up) /\
  _pendingRunnables (srv hanging_up) = [] /\
  hung_up (Z.lor EPOLLIN EPOLLHUP) = true /\
  exists w',
    @serveOnce linux hanging_up =
      Returns Continue
        {| srv := set_connections
                    (erase_all [(3%positive, Z.lor EPOLLIN EPOLLHUP)].*1
                       (_connections (srv hanging_up))) (srv hanging_up);
           os := w' |} /\
    trace w' =
      [sys_epoll_wait 4 256 500;
       delete_Connection 3;
       sys_epoll_ctl 4 EPOLL_CTL_DEL 9 0 (ConnectionPtr 3);
       sys_close 9].
Proof.
  split; [reflexivity|]. split; [reflexivity|]. split; [reflexivity|].
  destruct (@hang_ups_deleted_in_same_iteration linux hanging_up
              [(3%positive, Z.lor EPOLLIN EPOLLHUP)] [] eq_refl eq_refl)
    as (w' & Hrun & Htrace).
  - intros c t Hc [Hbytes _].
    change (_connections (srv hanging_up))
      with ({[ 3%positive := 50 ]} : gmap positive Z) in Hc.
    apply lookup_singleton_Some in Hc as [<- _]. discriminate Hbytes.
  - reflexivity.
  - unfold maxEvents. cbn. lia.
  - by repeat constructor.
  - apply NoDup_singleton.
  - intros c ->%list_elem_of_singleton. by eexists.
  - exists w'. split; [exact Hrun|exact Htrace].
Defined.
